(** * MigSafe rule engine (rules.py): segmenter, rule matcher, lock estimator
      and risk score, embedded in Rocq and checked against its specification.

    Python's [str] is modelled as [list ascii]: a script is a sequence of
    code points in the range 0..255, each classified as CPython classifies
    it ([str.isspace], the regex classes [\s], [\S], [\w] and lower-casing
    under [re.IGNORECASE]).  Beyond this range [re.IGNORECASE] also lets the
    letter I of a pattern match U+0130 and U+0131, K match U+212A and S
    match U+017F; a word read in any case ([read_ci], [same_ci]) is a word
    in the letters A to Z and a to z.  Python's [int] is [Z]; offsets,
    lengths and line numbers, which are never negative, are [nat]. *)

From Stdlib Require Import Ascii String.
From Stdlib Require Import List ZArith NArith Bool Arith Lia Permutation Sorted.
Import ListNotations.

(** ** Strings and characters *)

Definition str := list ascii.

Abbreviation lit := list_ascii_of_string.

Definition nl : ascii := "010"%char.

Module Char.

Definition code (c : ascii) : N := N_of_ascii c.

Definition between (lo hi : N) (c : ascii) : bool :=
  ((lo <=? code c) && (code c <=? hi))%N.

(** [str.isspace] on one character, which is also the regex class [\s]. *)
Definition isspace (c : ascii) : bool :=
  between 9 13 c || between 28 32 c || (code c =? 133)%N || (code c =? 160)%N.

(** [str.isalnum] on one character. *)
Definition isalnum (c : ascii) : bool :=
  between 48 57 c || between 65 90 c || between 97 122 c
  || (code c =? 170)%N || between 178 179 c || (code c =? 181)%N
  || between 185 186 c || between 188 190 c
  || between 192 214 c || between 216 246 c || between 248 255 c.

(** The regex class [\w]. *)
Definition isword (c : ascii) : bool := isalnum c || (code c =? 95)%N.

(** Lower-casing of one character, as [re.IGNORECASE] applies it. *)
Definition lower (c : ascii) : ascii :=
  if between 65 90 c || (between 192 222 c && negb (code c =? 215)%N)
  then ascii_of_N (code c + 32) else c.

End Char.

(** ** The [str] methods the engine calls *)

Module Py.

(** [s.split(sep)] for a separator of one character. *)
Fixpoint split (sep : ascii) (s : str) : list str :=
  match s with
  | [] => [[]]
  | c :: s' =>
      if Ascii.eqb c sep then [] :: split sep s'
      else match split sep s' with
           | p :: ps => (c :: p) :: ps
           | [] => [[c]]
           end
  end.

Fixpoint lstrip (s : str) : str :=
  match s with
  | c :: s' => if Char.isspace c then lstrip s' else s
  | [] => []
  end.

Definition rstrip (s : str) : str := rev (lstrip (rev s)).

Definition strip (s : str) : str := rstrip (lstrip s).

(** [s.split()]: the maximal runs of characters that are not whitespace. *)
Fixpoint words (s : str) : list str :=
  match s with
  | [] => []
  | c :: s' =>
      if Char.isspace c then words s'
      else match s' with
           | [] => [[c]]
           | c' :: _ =>
               if Char.isspace c' then [c] :: words s'
               else match words s' with
                    | w :: ws => (c :: w) :: ws
                    | [] => [[c]]
                    end
           end
  end.

(** [sep.join(ws)]. *)
Fixpoint join (sep : str) (ws : list str) : str :=
  match ws with
  | [] => []
  | [w] => w
  | w :: ws' => w ++ sep ++ join sep ws'
  end.

Fixpoint startswith (prefix s : str) : bool :=
  match prefix, s with
  | [], _ => true
  | a :: prefix', c :: s' => Ascii.eqb a c && startswith prefix' s'
  | _ :: _, [] => false
  end.

(** [s.count(c)] for a needle of one character. *)
Definition count (c : ascii) (s : str) : nat :=
  length (filter (Ascii.eqb c) s).

(** [bool(s)]: a string is true when it is not empty. *)
Definition truthy (s : str) : bool :=
  match s with [] => false | _ :: _ => true end.

End Py.

(** ** Statement segmenter *)

(** The body of the [for part in parts] loop of [_split_statements]; the
  generator's output is the list of the pairs it yields. *)
Fixpoint split_loop (sql : str) (parts : list str) (offset : nat)
: list (str * nat) :=
match parts with
| [] => []
| part :: parts' =>
    let text := Py.strip part in
    (if Py.truthy text && negb (Py.startswith (lit "--") (Py.lstrip text))
     then [(Py.join (lit " ") (Py.words text),
            Py.count nl (firstn offset sql) + 1)]
     else [])
    ++ split_loop sql parts' (offset + (length part + 1))
end.

Definition _split_statements (sql : str) : list (str * nat) :=
split_loop sql (Py.split ";" sql) 0.

(** ** Regular expressions

    The constructs the rule patterns are written with, in parsed form, and
    a backtracking matcher that lists the positions where a match can end in
    the order [re] tries them (greedy repetition and option first). *)

Inductive category : Type :=
| Space          (* \s *)
| NotSpace       (* \S *)
| NotSemicolon.  (* [^;] *)

Inductive regex : Type :=
| Literal (c : ascii)        (* one character, compared ignoring case *)
| Boundary                   (* \b *)
| Seq (r1 r2 : regex)        (* r1 r2 *)
| Optional (r : regex)       (* (?:r)? *)
| Repeat1 (k : category)     (* k+ *)
| Repeat0 (k : category)     (* k* *)
| NotAhead (r : regex)       (* (?!r) *)
| Epsilon.

(** A position in the subject: the character before it, when there is one,
    and the text from it on. *)
Definition position : Type := option ascii * str.

Module Re.

Definition in_category (k : category) (c : ascii) : bool :=
  match k with
  | Space => Char.isspace c
  | NotSpace => negb (Char.isspace c)
  | NotSemicolon => negb (Ascii.eqb (Char.lower c) ";")
  end.

Definition word_before (p : option ascii) : bool :=
  match p with Some c => Char.isword c | None => false end.

Definition word_after (s : str) : bool :=
  match s with c :: _ => Char.isword c | [] => false end.

(** Positions reached by taking zero or more characters of [k], the longest
    run first. *)
Fixpoint run (k : category) (p : option ascii) (s : str) : list position :=
  match s with
  | c :: s' => if in_category k c then run k (Some c) s' ++ [(p, s)] else [(p, s)]
  | [] => [(p, s)]
  end.

Fixpoint ends (r : regex) (p : option ascii) (s : str) : list position :=
  match r with
  | Literal a =>
      match s with
      | c :: s' => if Ascii.eqb (Char.lower c) (Char.lower a) then [(Some c, s')] else []
      | [] => []
      end
  | Boundary => if xorb (word_before p) (word_after s) then [(p, s)] else []
  | Seq r1 r2 => flat_map (fun q => ends r2 (fst q) (snd q)) (ends r1 p s)
  | Optional r1 => ends r1 p s ++ [(p, s)]
  | Repeat1 k =>
      match s with
      | c :: s' => if in_category k c then run k (Some c) s' else []
      | [] => []
      end
  | Repeat0 k => run k p s
  | NotAhead r1 => match ends r1 p s with [] => [(p, s)] | _ :: _ => [] end
  | Epsilon => [(p, s)]
  end.

(** [re.search]: the pattern is tried at every position from left to right;
    only whether it matches is used. *)
Fixpoint search_from (r : regex) (p : option ascii) (s : str) : bool :=
  match ends r p s with
  | _ :: _ => true
  | [] => match s with
          | c :: s' => search_from r (Some c) s'
          | [] => false
          end
  end.

Definition search (r : regex) (s : str) : bool := search_from r None s.

(** Pattern text: a run of literal characters, and a sequence of pieces. *)
Fixpoint chars (w : str) : regex :=
  match w with
  | [] => Epsilon
  | c :: w' => Seq (Literal c) (chars w')
  end.

Definition kw (w : string) : regex := chars (lit w).

Fixpoint seq (rs : list regex) : regex :=
  match rs with
  | [] => Epsilon
  | r :: rs' => Seq r (seq rs')
  end.

Definition wb : regex := Boundary.          (* \b *)
Definition ws : regex := Repeat1 Space.     (* \s+ *)
Definition nws : regex := Repeat1 NotSpace. (* \S+ *)
Definition nosemi : regex := Repeat0 NotSemicolon. (* [^;]* *)

End Re.

(** ** Exceptions *)

Inductive exn : Type := ZeroDivisionError.

Inductive result (A : Type) : Type :=
| Ok (a : A)
| Raise (e : exn).

Arguments Ok {A} a.
Arguments Raise {A} e.

Definition bind {A B : Type} (m : result A) (k : A -> result B) : result B :=
  match m with
  | Ok a => k a
  | Raise e => Raise e
  end.

Notation "x <- m ;; k" := (bind m (fun x => k))
  (at level 61, m at next level, right associativity).

(** Python's [a // d]. *)
Definition floordiv (a d : Z) : result Z :=
  if (d =? 0)%Z then Raise ZeroDivisionError else Ok (a / d)%Z.

(** ** Findings and the rule catalog *)

Record Finding : Type := mkFinding {
  rule_id : str;
  severity : str;
  message : str;
  line : nat;
  sql : str;
  lock_type : str;
  lock_ms : option Z
}.

Definition SEVERITY_WEIGHT : list (str * Z) :=
  [(lit "critical", 4%Z); (lit "high", 3%Z); (lit "medium", 2%Z); (lit "low", 1%Z)].

Definition rule : Type := str * regex * str * str * str * option Z.

Import Re.

Definition RULES : list rule :=
  [ (lit "BAN001",
     seq [wb; kw "DROP"; ws; kw "TABLE"; wb],
     lit "critical",
     lit "DROP TABLE permanently deletes data and all indexes",
     lit "ACCESS EXCLUSIVE", Some 10%Z);
    (lit "BAN002",
     seq [wb; kw "ALTER"; ws; kw "TABLE"; ws; nws; ws; kw "DROP"; ws;
          kw "COLUMN"; wb],
     lit "high",
     lit "DROP COLUMN is irreversible and may break running queries",
     lit "ACCESS EXCLUSIVE", Some 50%Z);
    (lit "BAN003",
     seq [wb; kw "ALTER"; ws; kw "TABLE"; ws; nws; ws; kw "RENAME"; wb],
     lit "medium",
     lit "Renaming table/column will break application queries",
     lit "ACCESS EXCLUSIVE", Some 5%Z);
    (lit "LCK001",
     seq [wb; kw "ADD"; ws; Optional (seq [kw "COLUMN"; ws]); nws; ws; nws;
          nosemi; wb; kw "NOT"; ws; kw "NULL"; wb;
          NotAhead (seq [nosemi; wb; kw "DEFAULT"; wb])],
     lit "critical",
     lit "Adding NOT NULL column without DEFAULT rewrites entire table under lock",
     lit "ACCESS EXCLUSIVE", None);
    (lit "LCK002",
     seq [wb; kw "CREATE"; ws; Optional (seq [kw "UNIQUE"; ws]); kw "INDEX";
          ws; NotAhead (seq [kw "CONCURRENTLY"; wb])],
     lit "high",
     lit "CREATE INDEX without CONCURRENTLY blocks all writes",
     lit "SHARE", None);
    (lit "LCK003",
     seq [wb; kw "ADD"; ws; Optional (seq [kw "CONSTRAINT"; ws; nws; ws]);
          kw "FOREIGN"; ws; kw "KEY"; wb;
          NotAhead (seq [nosemi; wb; kw "NOT"; ws; kw "VALID"; wb])],
     lit "high",
     lit "Adding FK without NOT VALID scans entire table under lock",
     lit "SHARE ROW EXCLUSIVE", None);
    (lit "LCK004",
     seq [wb; kw "ALTER"; ws; kw "TABLE"; ws; nws; ws; kw "ALTER"; ws;
          kw "COLUMN"; ws; nws; ws; Optional (seq [kw "SET"; ws; kw "DATA"; ws]);
          kw "TYPE"; wb],
     lit "critical",
     lit "Changing column type rewrites the entire table under ACCESS EXCLUSIVE lock",
     lit "ACCESS EXCLUSIVE", None);
    (lit "LCK005",
     seq [wb; kw "ALTER"; ws; kw "TABLE"; ws; nws; ws; kw "ALTER"; ws;
          kw "COLUMN"; ws; nws; ws; kw "SET"; ws; kw "NOT"; ws; kw "NULL"; wb],
     lit "high",
     lit "SET NOT NULL scans full table; use CHECK constraint + NOT VALID instead",
     lit "ACCESS EXCLUSIVE", None) ].

(** ** Lock estimator *)

(** [x or d] for an optional integer [x]: [None] and [0] are false. *)
Definition or_else (x : option Z) (d : Z) : Z :=
  match x with
  | Some v => if (v =? 0)%Z then d else v
  | None => d
  end.

Definition estimate_lock_ms (base_ms : option Z) (rows : Z) : result (option Z) :=
  if (rows <=? 0)%Z then Ok base_ms
  else q <- floordiv rows 10000 ;;
       Ok (Some (Z.max (or_else base_ms 1) (q + or_else base_ms 0))).

(** ** Analysis *)

(** The inner loop of [analyze], over the rules, for one statement;
    [findings] is the list the loop appends to. *)
Fixpoint rules_loop (stmt : str) (line : nat) (rows : Z) (rules : list rule)
  (findings : list Finding) : result (list Finding) :=
  match rules with
  | [] => Ok findings
  | (rid, pattern, sev, msg, lock, base) :: rules' =>
      if search pattern stmt then
        ms <- estimate_lock_ms base rows ;;
        rules_loop stmt line rows rules'
          (findings ++ [mkFinding rid sev msg line (firstn 120 stmt) lock ms])
      else rules_loop stmt line rows rules' findings
  end.

(** The outer loop, over the statements the segmenter yields. *)
Fixpoint statements_loop (rows : Z) (stmts : list (str * nat))
  (findings : list Finding) : result (list Finding) :=
  match stmts with
  | [] => Ok findings
  | (stmt, line) :: stmts' =>
      findings' <- rules_loop stmt line rows RULES findings ;;
      statements_loop rows stmts' findings'
  end.

Definition analyze (sql : str) (rows : Z) : result (list Finding) :=
  statements_loop rows (_split_statements sql) [].

(** ** Risk score *)

Definition str_eqb (a b : str) : bool :=
  if list_eq_dec ascii_dec a b then true else false.

(** [d.get(key, default)] on a dictionary given by its items. *)
Fixpoint dict_get (d : list (str * Z)) (key : str) (default : Z) : Z :=
  match d with
  | [] => default
  | (k, v) :: d' => if str_eqb k key then v else dict_get d' key default
  end.

Definition risk_score (findings : list Finding) : Z :=
  Z.min 100
    (fold_left Z.add
       (map (fun f => (dict_get SEVERITY_WEIGHT (severity f) 1 * 25)%Z) findings) 0%Z).

(** ** Notions the specification is stated with *)

(** The estimate as the specification words it: the baseline unchanged
    without a row count, otherwise the larger of the floored baseline and
    the size term, with truncating division. *)
Definition lock_estimate_spec (baseMs : option Z) (rowCountHint : Z) : option Z :=
  if (rowCountHint <=? 0)%Z then baseMs
  else Some (Z.max (or_else baseMs 1)
                   (Z.quot rowCountHint 10000 + or_else baseMs 0)).

Definition pattern_of (r : rule) : regex :=
  let '(_, pattern, _, _, _, _) := r in pattern.

(** The finding a rule gives on a statement it matches. *)
Definition finding_of (stmt : str) (line : nat) (rows : Z) (r : rule) : Finding :=
  let '(rid, _, sev, msg, lock, base) := r in
  mkFinding rid sev msg line (firstn 120 stmt) lock (lock_estimate_spec base rows).

(** The findings of one statement: the rules that match it, in catalog
    order. *)
Definition findings_of (rows : Z) (sl : str * nat) : list Finding :=
  map (finding_of (fst sl) (snd sl) rows)
      (filter (fun r => search (pattern_of r) (fst sl)) RULES).

(** Number of findings of a given severity, and of none of the four. *)
Definition count_severity (sev : string) (fs : list Finding) : Z :=
  Z.of_nat (length (filter (fun f => str_eqb (lit sev) (severity f)) fs)).

Definition known_severity (f : Finding) : bool :=
  str_eqb (lit "critical") (severity f) || str_eqb (lit "high") (severity f)
  || str_eqb (lit "medium") (severity f) || str_eqb (lit "low") (severity f).

Definition count_other (fs : list Finding) : Z :=
  Z.of_nat (length (filter (fun f => negb (known_severity f)) fs)).

(** The normalized text of a segment. *)
Definition normalize (part : str) : str :=
  Py.join (lit " ") (Py.words (Py.strip part)).

(** The line on which each retained statement begins: the line of the first
    character of its segment that is not whitespace. *)
Fixpoint begin_lines (sql : str) (parts : list str) (offset : nat) : list nat :=
  match parts with
  | [] => []
  | part :: parts' =>
      let text := Py.strip part in
      (if Py.truthy text && negb (Py.startswith (lit "--") (Py.lstrip text))
       then [Py.count nl
               (firstn (offset + (length part - length (Py.lstrip part))) sql) + 1]
       else [])
      ++ begin_lines sql parts' (offset + (length part + 1))
  end.

Definition statement_lines (sql : str) : list nat :=
  begin_lines sql (Py.split ";" sql) 0.

(** The character before the position reached by reading [w] from a position
    whose previous character is [p]. *)
Definition step_over (p : option ascii) (w : str) : option ascii :=
  fold_left (fun _ c => Some c) w p.

(** [w] read at the head of [s] ignoring case: the text after it. *)
Fixpoint read_ci (w s : str) : option str :=
  match w, s with
  | [], _ => Some s
  | a :: w', c :: s' =>
      if Ascii.eqb (Char.lower c) (Char.lower a) then read_ci w' s' else None
  | _ :: _, [] => None
  end.

(** [s] contains [w] ignoring case. *)
Fixpoint contains_ci (w s : str) : bool :=
  match read_ci w s with
  | Some _ => true
  | None => match s with
            | _ :: s' => contains_ci w s'
            | [] => false
            end
  end.

(** The phrase [w] stands at the position as whole words: no word character
    right before it and none right after it. *)
Definition word_here (w : str) (p : option ascii) (s : str) : bool :=
  negb (word_before p)
  && match read_ci w s with
     | Some s' => negb (word_after s')
     | None => false
     end.

Fixpoint has_word_from (w : str) (p : option ascii) (s : str) : bool :=
  word_here w p s
  || match s with
     | c :: s' => has_word_from w (Some c) s'
     | [] => false
     end.

Definition has_word (w : string) (s : str) : bool := has_word_from (lit w) None s.

(** Two texts equal ignoring case. *)
Definition same_ci (w : str) (u : string) : Prop :=
  map Char.lower w = map Char.lower (lit u).

(** A token: a non-empty text without whitespace. *)
Definition token (w : str) : bool :=
  Py.truthy w && forallb (fun c => negb (Char.isspace c)) w.

(** The term of the risk score's sum for one finding. *)
Definition weight_of (f : Finding) : Z :=
  (dict_get SEVERITY_WEIGHT (severity f) 1 * 25)%Z.

(** A finding of a given severity, for examples. *)
Definition sample_finding (sev : string) : Finding :=
  mkFinding (lit "BAN003") (lit sev) (lit "sample") 1 (lit "ALTER TABLE t RENAME TO u")
    (lit "ACCESS EXCLUSIVE") None.

(** The length of the text that a run of segments and their terminators
    takes. *)
Definition span (parts : list str) : nat :=
  list_sum (map (fun part => length part + 1) parts).


(** The patterns of rules BAN001 and LCK001, as they stand in [RULES], and
    the lookahead of the latter. *)
Abbreviation ban001 := (seq [wb; kw "DROP"; ws; kw "TABLE"; wb]).

Abbreviation default_ahead := (seq [nosemi; wb; kw "DEFAULT"; wb]).

Abbreviation lck001 :=
  (seq [wb; kw "ADD"; ws; Optional (seq [kw "COLUMN"; ws]); nws; ws; nws;
        nosemi; wb; kw "NOT"; ws; kw "NULL"; wb; NotAhead default_ahead]).

(** A DEFAULT clause appended at the end of a statement. *)
Abbreviation default_x := (lit " DEFAULT 'x'").

(** The rule identifiers of the findings of an analysis, as the repository's
    tests inspect them. *)
Definition rule_ids (r : result (list Finding)) : list str :=
  match r with
  | Ok fs => map rule_id fs
  | Raise _ => []
  end.

(** ** The command line's use of the engine (migsafe.py) *)

Definition SEV_COLORS : list (str * str) :=
  [(lit "critical", lit "red bold"); (lit "high", lit "red");
   (lit "medium", lit "yellow"); (lit "low", lit "cyan")].

Definition SEV_RANK : list (str * Z) :=
  [(lit "low", 1%Z); (lit "medium", 2%Z); (lit "high", 3%Z); (lit "critical", 4%Z)].

(** [d[key]] on a dictionary given by its items; [None] stands for the
    [KeyError] of a missing key. *)
Fixpoint dict_item {V : Type} (d : list (str * V)) (key : str) : option V :=
  match d with
  | [] => None
  | (k, v) :: d' => if str_eqb k key then Some v else dict_item d' key
  end.

(** [d[key] = v]: the value of a key that is present is replaced where it
    stands, a new key is added at the end. *)
Fixpoint dict_set {V : Type} (d : list (str * V)) (key : str) (v : V)
  : list (str * V) :=
  match d with
  | [] => [(key, v)]
  | (k, v0) :: d' =>
      if str_eqb k key then (k, v) :: d' else (k, v0) :: dict_set d' key v
  end.

(** The values Python builds the reports from. *)
#[local] Unset Elimination Schemes.

Inductive json : Type :=
| JNull
| JInt (n : Z)
| JStr (s : str)
| JList (l : list json)
| JObj (items : list (str * json)).

#[local] Set Elimination Schemes.

(** The severity cell of a row of [_render_table]:
    [f"[{SEV_COLORS[f.severity]}]{f.severity}[/]"]. *)
Definition severity_cell (f : Finding) : option str :=
  match dict_item SEV_COLORS (severity f) with
  | Some color => Some (lit "[" ++ color ++ lit "]" ++ severity f ++ lit "[/]")
  | None => None
  end.

(** [f.severity in ("critical", "high")]. *)
Definition in_critical_high (sev : str) : bool :=
  str_eqb sev (lit "critical") || str_eqb sev (lit "high").

(** One entry of the results of [_to_sarif]. *)
Definition sarif_result (fp : str) (f : Finding) : json :=
  let lvl := if in_critical_high (severity f) then lit "error" else lit "warning" in
  JObj [(lit "ruleId", JStr (rule_id f)); (lit "level", JStr lvl);
        (lit "message", JObj [(lit "text", JStr (message f))]);
        (lit "locations",
         JList [JObj [(lit "physicalLocation",
                       JObj [(lit "artifactLocation", JObj [(lit "uri", JStr fp)]);
                             (lit "region",
                              JObj [(lit "startLine",
                                     JInt (Z.of_nat (line f)))])])]])].

(** The inner loop of [_to_sarif], over the findings of one file. *)
Fixpoint sarif_file_loop (fp : str) (fs : list Finding) (results : list json)
  : list json :=
  match fs with
  | [] => results
  | f :: fs' => sarif_file_loop fp fs' (results ++ [sarif_result fp f])
  end.

(** The outer loop, over the items of [all_findings]. *)
Fixpoint sarif_loop (items : list (str * list Finding)) (results : list json)
  : list json :=
  match items with
  | [] => results
  | (fp, fs) :: items' => sarif_loop items' (sarif_file_loop fp fs results)
  end.

Definition _to_sarif (all_findings : list (str * list Finding)) : json :=
  JObj [(lit "version", JStr (lit "2.1.0"));
        (lit "runs",
         JList [JObj [(lit "tool",
                       JObj [(lit "driver",
                              JObj [(lit "name", JStr (lit "MigSafe"));
                                    (lit "version", JStr (lit "1.0.0"))])]);
                      (lit "results", JList (sarif_loop all_findings []))]])].

(** The loop of [lint] over the files, in a run in which every file is
    read: [files] gives, for each path in the order collected, the text
    that [sf.read_text()] returned for it.  A read that raises ends [lint]
    at that file; such a run has no dictionary and is not described here. *)
Fixpoint collect_loop (rows : Z) (files : list (str * str))
  (all_findings : list (str * list Finding))
  : result (list (str * list Finding)) :=
  match files with
  | [] => Ok all_findings
  | (sf, text) :: files' =>
      fs <- analyze text rows ;;
      collect_loop rows files' (dict_set all_findings sf fs)
  end.

Definition collect_findings (rows : Z) (files : list (str * str))
  : result (list (str * list Finding)) :=
  collect_loop rows files [].

(** The document [lint] prints with [--format json]. *)
Definition json_finding (f : Finding) : json :=
  JObj [(lit "rule_id", JStr (rule_id f)); (lit "severity", JStr (severity f));
        (lit "message", JStr (message f)); (lit "line", JInt (Z.of_nat (line f)));
        (lit "lock_type", JStr (lock_type f));
        (lit "lock_ms", match lock_ms f with Some ms => JInt ms | None => JNull end)].

Definition json_data (all_findings : list (str * list Finding)) : json :=
  JObj (map (fun item => (fst item, JList (map json_finding (snd item))))
            all_findings).

(** The exit status [lint] ends with:
    [any(SEV_RANK.get(f.severity, 0) >= threshold ...)] over all files. *)
Definition exit_status (fail_on : str) (all_findings : list (str * list Finding)) : Z :=
  let threshold := dict_get SEV_RANK fail_on 3 in
  let failed :=
    existsb (fun f => (threshold <=? dict_get SEV_RANK (severity f) 0)%Z)
            (flat_map snd all_findings) in
  if failed then 1%Z else 0%Z.

(** ** Notions for the reports *)

(** A finding without its lock estimate. *)
Definition plain (f : Finding) : str * str * str * nat * str * str :=
  (rule_id f, severity f, message f, line f, sql f, lock_type f).

(** The member [key] of an object. *)
Definition json_field (key : string) (j : json) : option json :=
  match j with
  | JObj items => dict_item items (lit key)
  | _ => None
  end.

(** The results of the single run of a SARIF document. *)
Definition sarif_results (doc : json) : list json :=
  match json_field "runs" doc with
  | Some (JList [run]) =>
      match json_field "results" run with
      | Some (JList results) => results
      | _ => []
      end
  | _ => []
  end.

(** The path and the line a SARIF result points to. *)
Definition sarif_location (r : json) : option (json * json) :=
  match json_field "locations" r with
  | Some (JList [loc]) =>
      match json_field "physicalLocation" loc with
      | Some phys =>
          match json_field "artifactLocation" phys, json_field "region" phys with
          | Some art, Some region =>
              match json_field "uri" art, json_field "startLine" region with
              | Some uri, Some ln => Some (uri, ln)
              | _, _ => None
              end
          | _, _ => None
          end
      | None => None
      end
  | _ => None
  end.

(** The findings of all files, each with the path of its file. *)
Definition located (all_findings : list (str * list Finding)) : list (str * Finding) :=
  flat_map (fun item => map (pair (fst item)) (snd item)) all_findings.

(** The text read last for a path. *)
Fixpoint last_text (files : list (str * str)) (path : str) : option str :=
  match files with
  | [] => None
  | (sf, text) :: files' =>
      match last_text files' path with
      | Some t => Some t
      | None => if str_eqb sf path then Some text else None
      end
  end.

(** The findings of the files without their lock estimates. *)
Definition plain_items (all_findings : list (str * list Finding))
  : list (str * list (str * str * str * nat * str * str)) :=
  map (fun item => (fst item, map plain (snd item))) all_findings.

(** The four names of a severity. *)
Definition severity_names : list str :=
  [lit "critical"; lit "high"; lit "medium"; lit "low"].

(** A finding reported [n] lines further down. *)
Definition shift_line (n : nat) (f : Finding) : Finding :=
  mkFinding (rule_id f) (severity f) (message f) (line f + n) (sql f)
    (lock_type f) (lock_ms f).

(** Whitespace as the normalization leaves it: every whitespace character
    is one space, followed by a character that is not whitespace. *)
Fixpoint spaced (s : str) : bool :=
  match s with
  | [] => true
  | c :: s' =>
      (if Char.isspace c
       then Ascii.eqb c " "
            && match s' with
               | d :: _ => negb (Char.isspace d)
               | [] => false
               end
       else true)
      && spaced s'
  end.

(** A text in normal form: not empty, not beginning with whitespace, and
    spaced as above. *)
Definition normal_form (s : str) : bool :=
  match s with
  | [] => false
  | c :: _ => negb (Char.isspace c)
  end && spaced s.

(** [w] stands at the head of [s] and ends as a word there. *)
Definition starts_word (w : string) (s : str) : bool :=
  match read_ci (lit w) s with
  | Some s' => negb (word_after s')
  | None => false
  end.

(** The pattern of rule LCK002, as it stands in [RULES]. *)
Abbreviation lck002 :=
  (seq [wb; kw "CREATE"; ws; Optional (seq [kw "UNIQUE"; ws]); kw "INDEX"; ws;
        NotAhead (seq [kw "CONCURRENTLY"; wb])]).

(** The text of a statement that creates an index: what precedes, CREATE,
    optionally UNIQUE, INDEX, and what follows. *)
Definition index_creation (pre create unique index post : str) : str :=
  pre ++ create ++ " "%char :: unique ++ index ++ " "%char :: post.

(** INDEX, a space and the word CONCURRENTLY stand at the head of [s]. *)
Definition index_concurrently (s : str) : bool :=
  match read_ci (lit "INDEX ") s with
  | Some b => starts_word "CONCURRENTLY" b
  | None => false
  end.

(** INDEX CONCURRENTLY or UNIQUE INDEX CONCURRENTLY stands at the head of
    [s], the words one space apart. *)
Definition concurrently_follows (s : str) : bool :=
  index_concurrently s
  || match read_ci (lit "UNIQUE ") s with
     | Some b => index_concurrently b
     | None => false
     end.

(** Wherever CREATE and a space stand in [s], what follows is INDEX
    CONCURRENTLY or UNIQUE INDEX CONCURRENTLY. *)
Fixpoint create_always_concurrent (s : str) : bool :=
  match read_ci (lit "CREATE ") s with
  | Some b => concurrently_follows b
  | None => true
  end
  && match s with
     | _ :: s' => create_always_concurrent s'
     | [] => true
     end.

(** The pattern of rule LCK003, as it stands in [RULES], and its
    lookahead. *)
Abbreviation not_valid_ahead := (seq [nosemi; wb; kw "NOT"; ws; kw "VALID"; wb]).

Abbreviation lck003 :=
  (seq [wb; kw "ADD"; ws; Optional (seq [kw "CONSTRAINT"; ws; nws; ws]);
        kw "FOREIGN"; ws; kw "KEY"; wb; NotAhead not_valid_ahead]).

(** A NOT VALID clause appended at the end of a statement. *)
Abbreviation not_valid := (lit " NOT VALID").

(** The text of a statement that adds a foreign key: what precedes, ADD,
    optionally CONSTRAINT and a name, FOREIGN KEY, and what follows. *)
Definition fk_addition (pre add cons foreign key post : str) : str :=
  pre ++ add ++ " "%char :: cons ++ foreign ++ " "%char :: key ++ post.

(** The optional part: nothing, or CONSTRAINT, a name and a space. *)
Definition constraint_clause (cons : str) : Prop :=
  cons = []
  \/ exists word name,
      cons = word ++ " "%char :: name ++ [" "%char]
      /\ same_ci word "CONSTRAINT" /\ token name = true.

(** The pieces of a phrase: a given word, read in any case, or any name. *)
Inductive piece : Type :=
| Word (w : string)
| Name.

(** The words of a text fit the pieces of a phrase one by one. *)
Fixpoint fits (pieces : list piece) (words : list str) : Prop :=
  match pieces, words with
  | [], [] => True
  | Word w :: pieces', x :: words' => same_ci x w /\ fits pieces' words'
  | Name :: pieces', x :: words' => token x = true /\ fits pieces' words'
  | _, _ => False
  end.

(** The phrases of the four rules on ALTER TABLE, with the rule each
    belongs to. *)
Definition alter_table_phrases : list (string * list piece) :=
  [("BAN002"%string,
    [Word "ALTER"; Word "TABLE"; Name; Word "DROP"; Word "COLUMN"]);
   ("BAN003"%string,
    [Word "ALTER"; Word "TABLE"; Name; Word "RENAME"]);
   ("LCK004"%string,
    [Word "ALTER"; Word "TABLE"; Name; Word "ALTER"; Word "COLUMN"; Name;
     Word "TYPE"]);
   ("LCK004"%string,
    [Word "ALTER"; Word "TABLE"; Name; Word "ALTER"; Word "COLUMN"; Name;
     Word "SET"; Word "DATA"; Word "TYPE"]);
   ("LCK005"%string,
    [Word "ALTER"; Word "TABLE"; Name; Word "ALTER"; Word "COLUMN"; Name;
     Word "SET"; Word "NOT"; Word "NULL"])].

(** A character with the letters A to Z made small and every other
    character left as it is. *)
Definition small_letter (c : ascii) : ascii :=
  if Char.between 65 90 c then ascii_of_N (Char.code c + 32) else c.

(** A text with its letters A to Z made small. *)
Definition small_letters (s : str) : str := map small_letter s.

(** A finding with the letters A to Z of its snippet made small. *)
Definition lower_snippet (f : Finding) : Finding :=
  mkFinding (rule_id f) (severity f) (message f) (line f)
    (small_letters (sql f)) (lock_type f) (lock_ms f).

(** A position with its letters A to Z made small. *)
Definition lower_position (q : position) : position :=
  (option_map small_letter (fst q), small_letters (snd q)).

(** * Properties *)

(** ** Lock estimator *)

Lemma floordiv_10000 (a : Z) : floordiv a 10000 = Ok (a / 10000)%Z.
Proof. reflexivity. Qed.

Lemma estimate_lock_ms_value (base_ms : option Z) (rows : Z) :
  estimate_lock_ms base_ms rows = Ok (lock_estimate_spec base_ms rows).
Proof.
  unfold estimate_lock_ms, lock_estimate_spec.
  destruct (Z.leb_spec rows 0) as [Hle | Hgt]; [reflexivity |].
  rewrite floordiv_10000. cbn [bind].
  rewrite Z.quot_div_nonneg by lia. reflexivity.
Qed.

(** C3: the estimator returns the baseline unchanged when the row count is
    not positive, and otherwise the maximum of the baseline-or-1 and the
    truncated quotient by 10000 plus the baseline-or-0; the four sample
    values of the specification are as it gives them. *)
Theorem estimate_lock_ms_formula :
  (forall (baseMs : option Z) (rowCountHint : Z),
      estimate_lock_ms baseMs rowCountHint =
      Ok (if (rowCountHint <=? 0)%Z then baseMs
          else Some (Z.max (or_else baseMs 1)
                           (Z.quot rowCountHint 10000 + or_else baseMs 0))))
  /\ estimate_lock_ms (Some 10%Z) 1000000 = Ok (Some 110%Z)
  /\ estimate_lock_ms None 1000000 = Ok (Some 100%Z)
  /\ estimate_lock_ms (Some 50%Z) 0 = Ok (Some 50%Z)
  /\ estimate_lock_ms None 0 = Ok None.
Proof.
  split; [| repeat split; reflexivity].
  intros baseMs rowCountHint. apply estimate_lock_ms_value.
Qed.

(** C10: with a positive row count a baseline of exactly 0 is treated as an
    absent one: the result is max(1, rows div 10000), which is at least 1;
    with a row count of 0 the zero baseline is returned unchanged. *)
Theorem estimate_lock_ms_zero_baseline (rowCountHint : Z) :
  (0 < rowCountHint)%Z ->
  estimate_lock_ms (Some 0%Z) rowCountHint
    = Ok (Some (Z.max 1 (rowCountHint / 10000)))
  /\ estimate_lock_ms (Some 0%Z) rowCountHint = estimate_lock_ms None rowCountHint
  /\ (1 <= Z.max 1 (rowCountHint / 10000))%Z
  /\ estimate_lock_ms (Some 0%Z) 0 = Ok (Some 0%Z).
Proof.
  intros Hpos. unfold estimate_lock_ms.
  destruct (Z.leb_spec rowCountHint 0) as [Hle | _]; [lia |].
  rewrite floordiv_10000. cbn [bind or_else Z.eqb].
  rewrite Z.add_0_r. repeat split. lia.
Qed.

Lemma estimate_lock_ms_zero_baseline_witness :
  (0 < 5000)%Z
  /\ estimate_lock_ms (Some 0%Z) 5000
    = Ok (Some (Z.max 1 (5000 / 10000)))
  /\ estimate_lock_ms (Some 0%Z) 5000 = estimate_lock_ms None 5000
  /\ (1 <= Z.max 1 (5000 / 10000))%Z
  /\ estimate_lock_ms (Some 0%Z) 0 = Ok (Some 0%Z).
Proof. split; [lia | apply (estimate_lock_ms_zero_baseline 5000); lia]. Defined.

(** ** Risk score *)

Lemma fold_add_shift (l : list Z) (a : Z) :
  fold_left Z.add l a = (a + fold_left Z.add l 0)%Z.
Proof.
  revert a. induction l as [| x l IH]; intros a; cbn [fold_left].
  - lia.
  - rewrite IH, (IH (0 + x)%Z). lia.
Qed.

Lemma total_cons (f : Finding) (fs : list Finding) :
  fold_left Z.add (map weight_of (f :: fs)) 0%Z
  = (weight_of f + fold_left Z.add (map weight_of fs) 0)%Z.
Proof. cbn [map fold_left]. rewrite fold_add_shift. lia. Qed.

Lemma total_app (fs gs : list Finding) :
  fold_left Z.add (map weight_of (fs ++ gs)) 0%Z
  = (fold_left Z.add (map weight_of fs) 0 + fold_left Z.add (map weight_of gs) 0)%Z.
Proof.
  rewrite map_app, fold_left_app, fold_add_shift. reflexivity.
Qed.

Lemma weight_of_positive (f : Finding) : (25 <= weight_of f)%Z.
Proof.
  unfold weight_of, SEVERITY_WEIGHT, dict_get.
  repeat match goal with |- context [str_eqb ?a ?b] => destruct (str_eqb a b) end; lia.
Qed.

Lemma total_nonneg (fs : list Finding) :
  (0 <= fold_left Z.add (map weight_of fs) 0)%Z.
Proof.
  induction fs as [| f fs IH]; [cbn; lia |].
  rewrite total_cons. pose proof (weight_of_positive f). lia.
Qed.

Lemma total_permutation (fs gs : list Finding) :
  Permutation fs gs ->
  fold_left Z.add (map weight_of fs) 0%Z = fold_left Z.add (map weight_of gs) 0%Z.
Proof.
  induction 1 as [| f fs gs _ IH | f g fs | fs gs hs _ IH1 _ IH2].
  - reflexivity.
  - rewrite !total_cons, IH. reflexivity.
  - rewrite !total_cons. lia.
  - congruence.
Qed.

Lemma str_eqb_eq (a b : str) : str_eqb a b = true <-> a = b.
Proof.
  unfold str_eqb. destruct (list_eq_dec ascii_dec a b); split; congruence.
Qed.

Lemma weight_of_cases (f : Finding) :
  weight_of f =
  (25 * (if str_eqb (lit "critical") (severity f) then 4
         else if str_eqb (lit "high") (severity f) then 3
         else if str_eqb (lit "medium") (severity f) then 2
         else 1))%Z.
Proof.
  unfold weight_of, SEVERITY_WEIGHT, dict_get.
  repeat match goal with |- context [str_eqb ?a ?b] => destruct (str_eqb a b) end; lia.
Qed.

Lemma count_severity_cons (sev : string) (f : Finding) (fs : list Finding) :
  count_severity sev (f :: fs)
  = ((if str_eqb (lit sev) (severity f) then 1 else 0) + count_severity sev fs)%Z.
Proof.
  unfold count_severity. cbn [filter].
  destruct (str_eqb (lit sev) (severity f)); [| lia].
  cbn [length]. lia.
Qed.

Lemma count_other_cons (f : Finding) (fs : list Finding) :
  count_other (f :: fs)
  = ((if known_severity f then 0 else 1) + count_other fs)%Z.
Proof.
  unfold count_other. cbn [filter].
  destruct (known_severity f); cbn [negb length]; lia.
Qed.

Lemma total_by_severity (fs : list Finding) :
  fold_left Z.add (map weight_of fs) 0%Z
  = (25 * (1 * count_severity "low" fs + 2 * count_severity "medium" fs
           + 3 * count_severity "high" fs + 4 * count_severity "critical" fs
           + 1 * count_other fs))%Z.
Proof.
  induction fs as [| f fs IH].
  - reflexivity.
  - rewrite total_cons, IH, weight_of_cases, !count_severity_cons, count_other_cons.
    unfold known_severity.
    destruct (str_eqb (lit "critical") (severity f)) eqn:Hc;
      destruct (str_eqb (lit "high") (severity f)) eqn:Hh;
      destruct (str_eqb (lit "medium") (severity f)) eqn:Hm;
      destruct (str_eqb (lit "low") (severity f)) eqn:Hl;
      repeat match goal with
        | H : str_eqb _ _ = true |- _ => apply str_eqb_eq in H
        end;
      try (cbn [list_ascii_of_string] in *; congruence);
      cbn [orb]; lia.
Qed.



(** C4: the risk score is the sum over the findings of 25 times the weight
    of their severity (low 1, medium 2, high 3, critical 4), capped at 100;
    it lies between 0 and 100, and no finding gives 0. *)
Theorem risk_score_weighted_sum (fs : list Finding) :
  risk_score fs
  = Z.min 100
      (25 * (1 * count_severity "low" fs + 2 * count_severity "medium" fs
             + 3 * count_severity "high" fs + 4 * count_severity "critical" fs
             + 1 * count_other fs))
  /\ (0 <= risk_score fs <= 100)%Z
  /\ risk_score [] = 0%Z.
Proof.
  unfold risk_score. fold weight_of.
  split; [| split; [| reflexivity]].
  - rewrite total_by_severity. reflexivity.
  - pose proof (total_nonneg fs). lia.
Qed.

(** C5: the risk score does not depend on the order of the findings, and
    appending a finding never lowers it nor takes it above 100. *)
Theorem risk_score_order_and_growth (fs gs : list Finding) (f : Finding) :
  Permutation fs gs ->
  risk_score fs = risk_score gs
  /\ (risk_score fs <= risk_score (fs ++ [f]) <= 100)%Z.
Proof.
  intros Hperm. unfold risk_score. fold weight_of. split.
  - rewrite (total_permutation _ _ Hperm). reflexivity.
  - rewrite total_app. pose proof (total_nonneg [f]). lia.
Qed.

(** One critical finding already reaches the cap: the strict growth that
    test_risk_score_scales asserts between one finding and two does not
    hold, only the growth in the wide sense. *)
Lemma risk_score_saturates :
  risk_score [sample_finding "critical"] = 100%Z
  /\ risk_score [sample_finding "critical"; sample_finding "high"] = 100%Z.
Proof. split; reflexivity. Qed.

Lemma risk_score_order_and_growth_witness :
  Permutation [sample_finding "medium"; sample_finding "low"]
              [sample_finding "low"; sample_finding "medium"]
  /\ (risk_score [sample_finding "medium"; sample_finding "low"]
      = risk_score [sample_finding "low"; sample_finding "medium"]
      /\ (risk_score [sample_finding "medium"; sample_finding "low"]
          <= risk_score ([sample_finding "medium"; sample_finding "low"]
                         ++ [sample_finding "high"]) <= 100)%Z).
Proof.
  split; [apply perm_swap |].
  apply (risk_score_order_and_growth _ _ (sample_finding "high")), perm_swap.
Defined.

(** ** The analysis loops *)

Lemma rules_loop_value (stmt : str) (line : nat) (rows : Z) (rules : list rule)
  (findings : list Finding) :
  rules_loop stmt line rows rules findings
  = Ok (findings ++ map (finding_of stmt line rows)
                        (filter (fun r => search (pattern_of r) stmt) rules)).
Proof.
  revert findings. induction rules as [| r rules IH]; intros findings.
  - cbn. rewrite app_nil_r. reflexivity.
  - destruct r as [[[[[rid pattern] sev] msg] lock] base].
    cbn [rules_loop filter pattern_of].
    destruct (search pattern stmt).
    + rewrite estimate_lock_ms_value. cbn [bind map finding_of].
      rewrite IH, <- app_assoc. reflexivity.
    + apply IH.
Qed.

Lemma statements_loop_value (rows : Z) (stmts : list (str * nat))
  (findings : list Finding) :
  statements_loop rows stmts findings
  = Ok (findings ++ flat_map (findings_of rows) stmts).
Proof.
  revert findings. induction stmts as [| [stmt line] stmts IH]; intros findings.
  - cbn. rewrite app_nil_r. reflexivity.
  - cbn [statements_loop flat_map]. rewrite rules_loop_value. cbn [bind].
    rewrite IH, <- app_assoc. reflexivity.
Qed.

Lemma analyze_value (sql : str) (rows : Z) :
  analyze sql rows = Ok (flat_map (findings_of rows) (_split_statements sql)).
Proof. unfold analyze. apply statements_loop_value. Qed.

(** The assertions of test_migsafe.py about [analyze]. *)

Example test_drop_table_detected :
  analyze (lit "DROP TABLE users;") 0
  = Ok [mkFinding (lit "BAN001") (lit "critical")
          (lit "DROP TABLE permanently deletes data and all indexes") 1
          (lit "DROP TABLE users") (lit "ACCESS EXCLUSIVE") (Some 10%Z)].
Proof. reflexivity. Qed.

Example test_drop_column_detected :
  rule_ids (analyze (lit "ALTER TABLE users DROP COLUMN age;") 0) = [lit "BAN002"].
Proof. reflexivity. Qed.

Example test_add_not_null_without_default_is_dangerous :
  rule_ids (analyze (lit "ALTER TABLE orders ADD COLUMN status varchar(20) NOT NULL;") 0)
  = [lit "LCK001"].
Proof. reflexivity. Qed.

Example test_add_not_null_with_default_is_safe :
  rule_ids (analyze
    (lit "ALTER TABLE orders ADD COLUMN status varchar(20) NOT NULL DEFAULT 'pending';") 0)
  = [].
Proof. reflexivity. Qed.

Example test_create_index_without_concurrently :
  rule_ids (analyze (lit "CREATE INDEX idx_email ON users(email);") 0) = [lit "LCK002"].
Proof. reflexivity. Qed.

Example test_create_index_concurrently_is_safe :
  rule_ids (analyze (lit "CREATE INDEX CONCURRENTLY idx_email ON users(email);") 0) = [].
Proof. reflexivity. Qed.

Example test_foreign_key_without_not_valid :
  rule_ids (analyze
    (lit "ALTER TABLE orders ADD CONSTRAINT fk_user FOREIGN KEY (user_id) REFERENCES users(id);") 0)
  = [lit "LCK003"].
Proof. reflexivity. Qed.

Example test_foreign_key_with_not_valid_is_safe :
  rule_ids (analyze
    (lit "ALTER TABLE orders ADD CONSTRAINT fk_user FOREIGN KEY (user_id) REFERENCES users(id) NOT VALID;") 0)
  = [].
Proof. reflexivity. Qed.

Example test_alter_column_type :
  exists f,
    analyze (lit "ALTER TABLE big_table ALTER COLUMN price TYPE numeric;") 5000000
    = Ok [f]
    /\ rule_id f = lit "LCK004" /\ lock_ms f = Some 500%Z.
Proof. eexists. split; [vm_compute; reflexivity | split; reflexivity]. Qed.

Example test_rename_table :
  rule_ids (analyze (lit "ALTER TABLE users RENAME TO customers;") 0) = [lit "BAN003"].
Proof. reflexivity. Qed.

Example test_safe_migration_passes_cleanly :
  analyze
    (lit "CREATE TABLE features (id serial PRIMARY KEY, name text);"
     ++ nl :: lit "    ALTER TABLE orders ADD COLUMN notes text;"
     ++ nl :: lit "    CREATE INDEX CONCURRENTLY idx_notes ON orders(notes);") 0
  = Ok [].
Proof. reflexivity. Qed.

(** C8: the analysis returns a list of findings, and raises nothing, on
    every text and every row count; on the empty text the list is empty, and
    a text with an unmatched quote and comment is matched as it stands. *)
Theorem analyze_never_raises :
  (forall (sql : str) (rows : Z), exists fs, analyze sql rows = Ok fs)
  /\ (forall rows : Z, analyze [] rows = Ok [])
  /\ (exists f,
         analyze (lit "SELECT 'it; /* -- DROP TABLE x") 0 = Ok [f]
         /\ rule_id f = lit "BAN001").
Proof.
  split; [| split].
  - intros sql rows. eexists. apply analyze_value.
  - intros rows. reflexivity.
  - eexists. split; [vm_compute; reflexivity | reflexivity].
Qed.

(** ** The segmenter *)

Lemma split_not_nil (sep : ascii) (s : str) : Py.split sep s <> [].
Proof.
  induction s as [| c s IH]; cbn [Py.split]; [discriminate |].
  destruct (Ascii.eqb c sep); [discriminate |].
  destruct (Py.split sep s); [contradiction | discriminate].
Qed.

Lemma split_app (sep : ascii) (a b : str) :
  Py.split sep (a ++ sep :: b) = Py.split sep a ++ Py.split sep b.
Proof.
  induction a as [| c a IH]; cbn [Py.split app].
  - rewrite Ascii.eqb_refl. reflexivity.
  - destruct (Ascii.eqb c sep); rewrite IH; [reflexivity |].
    pose proof (split_not_nil sep a) as Hne.
    destruct (Py.split sep a); [contradiction | reflexivity].
Qed.

Lemma split_without_sep (sep : ascii) (s : str) :
  ~ In sep s -> Py.split sep s = [s].
Proof.
  induction s as [| c s IH]; intros Hnot; cbn [Py.split]; [reflexivity |].
  destruct (Ascii.eqb_spec c sep) as [-> | _].
  - exfalso. apply Hnot. left. reflexivity.
  - rewrite IH; [reflexivity |]. intros Hin. apply Hnot. right. exact Hin.
Qed.

Lemma span_app (l1 l2 : list str) : span (l1 ++ l2) = span l1 + span l2.
Proof. unfold span. rewrite map_app, list_sum_app. reflexivity. Qed.

Lemma span_split (sep : ascii) (s : str) :
  span (Py.split sep s) = length s + 1.
Proof.
  induction s as [| c s IH]; cbn [Py.split]; [reflexivity |].
  destruct (Ascii.eqb c sep).
  - change (span ([] :: Py.split sep s)) with (1 + span (Py.split sep s)).
    rewrite IH. cbn [length]. lia.
  - pose proof (split_not_nil sep s) as Hne.
    destruct (Py.split sep s) as [| p ps]; [contradiction |].
    unfold span in *. cbn [map list_sum fold_right length] in *. lia.
Qed.

Lemma split_loop_app (sql : str) (l1 l2 : list str) (offset : nat) :
  split_loop sql (l1 ++ l2) offset
  = split_loop sql l1 offset ++ split_loop sql l2 (offset + span l1).
Proof.
  revert offset. induction l1 as [| part l1 IH]; intros offset.
  - cbn. rewrite Nat.add_0_r. reflexivity.
  - cbn [app split_loop]. rewrite IH, <- app_assoc.
    change (span (part :: l1)) with (length part + 1 + span l1).
    replace (offset + (length part + 1) + span l1)
      with (offset + (length part + 1 + span l1)) by lia.
    reflexivity.
Qed.

Lemma split_loop_prefix (pre tail : str) (parts : list str) (offset : nat) :
  offset + span parts <= length pre + 1 ->
  split_loop (pre ++ tail) parts offset = split_loop pre parts offset.
Proof.
  revert offset. induction parts as [| part parts IH]; intros offset Hle.
  - reflexivity.
  - change (span (part :: parts)) with (length part + 1 + span parts) in Hle.
    cbn [split_loop]. rewrite IH by lia.
    rewrite firstn_app.
    replace (offset - length pre) with 0 by lia.
    cbn [firstn]. rewrite app_nil_r. reflexivity.
Qed.

Lemma lstrip_app_kept (x y : str) (c : ascii) :
  Char.isspace c = false ->
  Py.lstrip (x ++ c :: y) = Py.lstrip x ++ c :: y.
Proof.
  intros Hc. induction x as [| a x IH]; cbn [app Py.lstrip].
  - rewrite Hc. reflexivity.
  - destruct (Char.isspace a); [exact IH | reflexivity].
Qed.

Lemma rstrip_cons_kept (c : ascii) (s : str) :
  Char.isspace c = false -> Py.rstrip (c :: s) = c :: Py.rstrip s.
Proof.
  intros Hc. unfold Py.rstrip. cbn [rev].
  rewrite lstrip_app_kept by exact Hc.
  rewrite rev_app_distr. reflexivity.
Qed.

Lemma lstrip_head (s : str) :
  Py.lstrip s = [] \/ exists c s', Py.lstrip s = c :: s' /\ Char.isspace c = false.
Proof.
  induction s as [| c s IH]; cbn [Py.lstrip]; [left; reflexivity |].
  destruct (Char.isspace c) eqn:Hc; [exact IH |].
  right. exists c, s. split; [reflexivity | exact Hc].
Qed.

Lemma lstrip_strip (s : str) : Py.lstrip (Py.strip s) = Py.strip s.
Proof.
  unfold Py.strip.
  destruct (lstrip_head s) as [-> | (c & s' & -> & Hc)]; [reflexivity |].
  rewrite rstrip_cons_kept by exact Hc.
  cbn [Py.lstrip]. rewrite Hc. reflexivity.
Qed.

Lemma truthy_not_nil (s : str) : s <> [] -> Py.truthy s = true.
Proof. destruct s; [contradiction | reflexivity]. Qed.

Lemma split_loop_retained (sql part : str) (offset : nat) :
  Py.strip part <> [] ->
  Py.startswith (lit "--") (Py.strip part) = false ->
  split_loop sql [part] offset
  = [(normalize part, Py.count nl (firstn offset sql) + 1)].
Proof.
  intros Hne Hcomment. cbn [split_loop].
  rewrite lstrip_strip, Hcomment, (truthy_not_nil _ Hne). reflexivity.
Qed.

Lemma split_statements_trailing (pre tail : str) :
  pre = [] \/ (exists p, pre = p ++ [";"%char]) ->
  ~ In ";"%char tail ->
  Py.strip tail <> [] ->
  Py.startswith (lit "--") (Py.strip tail) = false ->
  _split_statements (pre ++ tail)
  = _split_statements pre ++ [(normalize tail, Py.count nl pre + 1)].
Proof.
  intros [-> | [p ->]] Hsemi Hne Hcomment; unfold _split_statements.
  - cbn [app]. rewrite (split_without_sep ";"%char tail Hsemi).
    rewrite split_loop_retained by assumption. reflexivity.
  - rewrite <- app_assoc. cbn [app].
    rewrite split_app, (@split_without_sep ";"%char tail Hsemi).
    rewrite split_loop_app, span_split.
    replace (p ++ ";"%char :: tail) with ((p ++ [";"%char]) ++ tail)
      by (rewrite <- app_assoc; reflexivity).
    rewrite split_loop_prefix by (rewrite span_split, length_app; cbn; lia).
    rewrite split_loop_retained by assumption.
    replace (0 + (length p + 1)) with (length (p ++ [";"%char]))
      by (rewrite length_app; cbn; lia).
    rewrite firstn_app, firstn_all, Nat.sub_diag. cbn [firstn].
    rewrite app_nil_r.
    replace (Py.split ";" (p ++ [";"%char])) with (Py.split ";" p ++ [[]])
      by (rewrite split_app; reflexivity).
    rewrite split_loop_app. cbn [split_loop].
    rewrite !app_nil_r. reflexivity.
Qed.

(** C9: when the text after the last semicolon (the whole text when there is
    none) is not empty once trimmed and does not begin with a comment marker,
    the segmenter yields it, normalized, as the last statement, and the
    analysis ends with the findings of the rules that match it. *)
Theorem trailing_statement_included (pre tail : str) (rows : Z) :
  pre = [] \/ (exists p, pre = p ++ [";"%char]) ->
  ~ In ";"%char tail ->
  Py.strip tail <> [] ->
  Py.startswith (lit "--") (Py.strip tail) = false ->
  _split_statements (pre ++ tail)
  = _split_statements pre ++ [(normalize tail, Py.count nl pre + 1)]
  /\ exists fs,
      analyze pre rows = Ok fs
      /\ analyze (pre ++ tail) rows
         = Ok (fs ++ findings_of rows (normalize tail, Py.count nl pre + 1)).
Proof.
  intros Hpre Hsemi Hne Hcomment.
  pose proof (split_statements_trailing pre tail Hpre Hsemi Hne Hcomment) as Hsplit.
  split; [exact Hsplit |].
  eexists. split; [apply analyze_value |].
  rewrite analyze_value, Hsplit, flat_map_app. cbn [flat_map].
  rewrite app_nil_r. reflexivity.
Qed.

Lemma trailing_statement_included_witness :
  (lit "SELECT 1;" = [] \/ (exists p, lit "SELECT 1;" = p ++ [";"%char]))
  /\ ~ In ";"%char (nl :: lit "DROP TABLE users")
  /\ Py.strip (nl :: lit "DROP TABLE users") <> []
  /\ Py.startswith (lit "--") (Py.strip (nl :: lit "DROP TABLE users")) = false
  /\ (_split_statements (lit "SELECT 1;" ++ nl :: lit "DROP TABLE users")
      = _split_statements (lit "SELECT 1;")
        ++ [(normalize (nl :: lit "DROP TABLE users"),
             Py.count nl (lit "SELECT 1;") + 1)]
      /\ exists fs,
          analyze (lit "SELECT 1;") 0 = Ok fs
          /\ analyze (lit "SELECT 1;" ++ nl :: lit "DROP TABLE users") 0
             = Ok (fs ++ findings_of 0 (normalize (nl :: lit "DROP TABLE users"),
                                        Py.count nl (lit "SELECT 1;") + 1))).
Proof.
  assert (H1 : lit "SELECT 1;" = [] \/ (exists p, lit "SELECT 1;" = p ++ [";"%char]))
    by (right; exists (lit "SELECT 1"); reflexivity).
  assert (H2 : ~ In ";"%char (nl :: lit "DROP TABLE users"))
    by (cbn; intuition discriminate).
  assert (H3 : Py.strip (nl :: lit "DROP TABLE users") <> [])
    by (vm_compute; discriminate).
  assert (H4 : Py.startswith (lit "--") (Py.strip (nl :: lit "DROP TABLE users")) = false)
    by reflexivity.
  repeat (split; [assumption |]).
  exact (trailing_statement_included _ _ 0%Z H1 H2 H3 H4).
Defined.

(** C1 (the code departs from it): a finding's line is the line of the
    character after the previous semicolon, not the line on which the
    statement begins.  In the script of two lines [DROP TABLE a;] and
    [DROP TABLE b;] the second statement begins on line 2 and its finding
    carries line 1. *)
Theorem line_of_statement_after_newline :
  exists f1 f2,
    analyze (lit "DROP TABLE a;" ++ nl :: lit "DROP TABLE b;") 0 = Ok [f1; f2]
    /\ sql f1 = lit "DROP TABLE a" /\ line f1 = 1
    /\ sql f2 = lit "DROP TABLE b" /\ line f2 = 1
    /\ statement_lines (lit "DROP TABLE a;" ++ nl :: lit "DROP TABLE b;") = [1; 2].
Proof.
  eexists. eexists. split; [vm_compute; reflexivity |].
  repeat split.
Qed.

(** ** Characters *)

Ltac each_char c :=
  destruct c as [[] [] [] [] [] [] [] []]; reflexivity.

Lemma isword_lower (c : ascii) : Char.isword (Char.lower c) = Char.isword c.
Proof. each_char c. Qed.

Lemma isspace_lower (c : ascii) : Char.isspace (Char.lower c) = Char.isspace c.
Proof. each_char c. Qed.

Lemma semicolon_lower (c : ascii) :
  Ascii.eqb (Char.lower c) ";" = Ascii.eqb c ";".
Proof. each_char c. Qed.

Lemma isword_same (a c : ascii) :
  Char.lower c = Char.lower a -> Char.isword c = Char.isword a.
Proof.
  intros H. rewrite <- (isword_lower c), <- (isword_lower a), H. reflexivity.
Qed.

Lemma isspace_same (a c : ascii) :
  Char.lower c = Char.lower a -> Char.isspace c = Char.isspace a.
Proof.
  intros H. rewrite <- (isspace_lower c), <- (isspace_lower a), H. reflexivity.
Qed.

Lemma not_semicolon (u : str) :
  ~ In ";"%char u -> forallb (in_category NotSemicolon) u = true.
Proof.
  induction u as [| c u IH]; intros Hnot; [reflexivity |].
  cbn [forallb in_category]. rewrite semicolon_lower.
  destruct (Ascii.eqb_spec c ";") as [-> | _].
  - exfalso. apply Hnot. left. reflexivity.
  - apply IH. intros Hin. apply Hnot. right. exact Hin.
Qed.

(** ** Positions *)

Lemma step_over_app (p : option ascii) (u v : str) :
  step_over p (u ++ v) = step_over (step_over p u) v.
Proof. apply fold_left_app. Qed.

Lemma step_over_last (p : option ascii) (u : str) (c : ascii) :
  step_over p (u ++ [c]) = Some c.
Proof. rewrite step_over_app. reflexivity. Qed.

(** ** The matcher *)

Lemma read_ci_app (w u s : str) :
  map Char.lower u = map Char.lower w -> read_ci w (u ++ s) = Some s.
Proof.
  revert u. induction w as [| a w IH]; intros [| c u] H; try discriminate H.
  - reflexivity.
  - cbn [map] in H. injection H as Hc Hu.
    cbn [app read_ci]. rewrite Hc, Ascii.eqb_refl. apply IH, Hu.
Qed.

Lemma read_ci_inv (w s s' : str) :
  read_ci w s = Some s' ->
  exists u, s = u ++ s' /\ map Char.lower u = map Char.lower w
            /\ u = firstn (length w) s.
Proof.
  revert s. induction w as [| a w IH]; intros s H.
  - cbn in H. injection H as <-. exists []. repeat split.
  - destruct s as [| c s]; [discriminate H |].
    cbn [read_ci] in H.
    destruct (Ascii.eqb_spec (Char.lower c) (Char.lower a)) as [Hc | _];
      [| discriminate H].
    destruct (IH _ H) as (u & -> & Hu & Hfirst).
    exists (c :: u). cbn [app map length firstn].
    rewrite Hc, Hu, <- Hfirst. repeat split.
Qed.

Lemma ends_chars (w : str) (p : option ascii) (s : str) :
  ends (chars w) p s
  = match read_ci w s with
    | Some s' => [(step_over p (firstn (length w) s), s')]
    | None => []
    end.
Proof.
  revert p s. induction w as [| a w IH]; intros p s.
  - reflexivity.
  - cbn [chars ends read_ci]. destruct s as [| c s]; [reflexivity |].
    destruct (Ascii.eqb (Char.lower c) (Char.lower a)); [| reflexivity].
    cbn [flat_map fst snd]. rewrite app_nil_r. apply IH.
Qed.

Lemma run_here (k : category) (p : option ascii) (s : str) : In (p, s) (run k p s).
Proof.
  destruct s as [| c s]; cbn [run]; [left; reflexivity |].
  destruct (in_category k c); [apply in_or_app; right |]; left; reflexivity.
Qed.

Lemma In_run (k : category) (p : option ascii) (u s : str) :
  forallb (in_category k) u = true ->
  In (step_over p u, s) (run k p (u ++ s)).
Proof.
  revert p. induction u as [| c u IH]; intros p Hall.
  - apply run_here.
  - cbn [forallb] in Hall. apply andb_prop in Hall as [Hc Hu].
    cbn [app run]. rewrite Hc. apply in_or_app. left. apply IH, Hu.
Qed.

Lemma run_inv (k : category) (p : option ascii) (s : str) (q : position) :
  In q (run k p s) ->
  exists u, s = u ++ snd q /\ fst q = step_over p u
            /\ forallb (in_category k) u = true.
Proof.
  revert p. induction s as [| c s IH]; intros p Hin.
  - cbn in Hin. destruct Hin as [<- | []]. exists []. repeat split.
  - cbn [run] in Hin. destruct (in_category k c) eqn:Hc.
    + apply in_app_or in Hin as [Hin | [<- | []]].
      * destruct (IH _ Hin) as (u & Hs & Hp & Hall).
        exists (c :: u). cbn [app forallb]. rewrite Hc, Hall, <- Hs.
        repeat split. exact Hp.
      * exists []. repeat split.
    + destruct Hin as [<- | []]. exists []. repeat split.
Qed.

Lemma In_boundary (p : option ascii) (s : str) :
  xorb (word_before p) (word_after s) = true -> In (p, s) (ends wb p s).
Proof. intros H. cbn. rewrite H. left. reflexivity. Qed.

Lemma In_kw (w : string) (u : str) (p : option ascii) (s : str) :
  map Char.lower u = map Char.lower (lit w) ->
  In (step_over p u, s) (ends (kw w) p (u ++ s)).
Proof.
  intros Hu. unfold kw. rewrite ends_chars, (read_ci_app _ _ s Hu).
  replace (length (lit w)) with (length u)
    by (rewrite <- (length_map Char.lower u), Hu; apply length_map).
  rewrite firstn_app, firstn_all, Nat.sub_diag. cbn [firstn].
  rewrite app_nil_r. left. reflexivity.
Qed.

Lemma In_repeat1 (k : category) (u : str) (p : option ascii) (s : str) :
  u <> [] -> forallb (in_category k) u = true ->
  In (step_over p u, s) (ends (Repeat1 k) p (u ++ s)).
Proof.
  intros Hne Hall. destruct u as [| c u]; [contradiction |].
  cbn [forallb] in Hall. apply andb_prop in Hall as [Hc Hu].
  cbn [app ends]. rewrite Hc. apply (In_run k (Some c) u s Hu).
Qed.

Lemma In_repeat0 (k : category) (u : str) (p : option ascii) (s : str) :
  forallb (in_category k) u = true ->
  In (step_over p u, s) (ends (Repeat0 k) p (u ++ s)).
Proof. apply In_run. Qed.

Lemma In_optional_skip (r : regex) (p : option ascii) (s : str) :
  In (p, s) (ends (Optional r) p s).
Proof. cbn [ends]. apply in_or_app. right. left. reflexivity. Qed.

Lemma In_notahead (r : regex) (p : option ascii) (s : str) :
  ends r p s = [] -> In (p, s) (ends (NotAhead r) p s).
Proof. intros H. cbn [ends]. rewrite H. left. reflexivity. Qed.

Lemma In_seq_cons (r : regex) (rs : list regex) (p : option ascii) (s : str)
  (q1 q2 : position) :
  In q1 (ends r p s) ->
  In q2 (ends (seq rs) (fst q1) (snd q1)) ->
  In q2 (ends (seq (r :: rs)) p s).
Proof.
  intros H1 H2. cbn [seq ends]. apply in_flat_map. exists q1. split; assumption.
Qed.

Lemma In_seq_nil (p : option ascii) (s : str) : In (p, s) (ends (seq []) p s).
Proof. left. reflexivity. Qed.

Lemma seq_cons_inv (r : regex) (rs : list regex) (p : option ascii) (s : str)
  (q : position) :
  In q (ends (seq (r :: rs)) p s) ->
  exists q1, In q1 (ends r p s) /\ In q (ends (seq rs) (fst q1) (snd q1)).
Proof. cbn [seq ends]. intros H. apply in_flat_map in H. exact H. Qed.

Lemma flat_map_nested (A B C : Type) (f : A -> list B) (g : B -> list C)
  (l : list A) :
  flat_map g (flat_map f l) = flat_map (fun x => flat_map g (f x)) l.
Proof.
  induction l as [| x l IH]; [reflexivity |].
  cbn [flat_map]. rewrite flat_map_app, IH. reflexivity.
Qed.

Lemma ends_seq_app (l1 l2 : list regex) (p : option ascii) (s : str) :
  ends (seq (l1 ++ l2)) p s
  = flat_map (fun q => ends (seq l2) (fst q) (snd q)) (ends (seq l1) p s).
Proof.
  revert p s. induction l1 as [| r l1 IH]; intros p s.
  - cbn [app seq ends flat_map fst snd]. rewrite app_nil_r. reflexivity.
  - cbn [app seq ends]. rewrite flat_map_nested.
    apply flat_map_ext. intros q. apply IH.
Qed.

Lemma ends_suffix (r : regex) (p : option ascii) (s : str) (q : position) :
  In q (ends r p s) -> exists u, s = u ++ snd q /\ fst q = step_over p u.
Proof.
  revert p s q.
  induction r as [a | | r1 IH1 r2 IH2 | r IH | k | k | r IH |]; intros p s q Hin.
  - destruct s as [| c s]; [contradiction |]. cbn [ends] in Hin.
    destruct (Ascii.eqb (Char.lower c) (Char.lower a)); [| contradiction].
    destruct Hin as [<- | []]. exists [c]. split; reflexivity.
  - cbn [ends] in Hin.
    destruct (xorb (word_before p) (word_after s)); [| contradiction].
    destruct Hin as [<- | []]. exists []. split; reflexivity.
  - cbn [ends] in Hin. apply in_flat_map in Hin as (q1 & H1 & H2).
    destruct (IH1 _ _ _ H1) as (u1 & Hs1 & Hp1).
    destruct (IH2 _ _ _ H2) as (u2 & Hs2 & Hp2).
    exists (u1 ++ u2). rewrite <- app_assoc, <- Hs2, <- Hs1, step_over_app, <- Hp1.
    split; [reflexivity | exact Hp2].
  - cbn [ends] in Hin. apply in_app_or in Hin as [Hin | [<- | []]].
    + apply IH, Hin.
    + exists []. split; reflexivity.
  - destruct s as [| c s]; [contradiction |]. cbn [ends] in Hin.
    destruct (in_category k c); [| contradiction].
    destruct (run_inv _ _ _ _ Hin) as (u & Hs & Hp & _).
    exists (c :: u). cbn [app]. rewrite <- Hs. split; [reflexivity | exact Hp].
  - cbn [ends] in Hin. destruct (run_inv _ _ _ _ Hin) as (u & Hs & Hp & _).
    exists u. split; assumption.
  - cbn [ends] in Hin. destruct (ends r p s); [| contradiction].
    destruct Hin as [<- | []]. exists []. split; reflexivity.
  - destruct Hin as [<- | []]. exists []. split; reflexivity.
Qed.

Lemma search_from_found (r : regex) (p : option ascii) (pre s : str) :
  ends r (step_over p pre) s <> [] -> search_from r p (pre ++ s) = true.
Proof.
  revert p. induction pre as [| c pre IH]; intros p Hne.
  - cbn [app]. destruct s; cbn [search_from]; cbn [step_over fold_left] in Hne;
      destruct (ends r p _); try reflexivity; contradiction.
  - cbn [app search_from]. destruct (ends r p _); [| reflexivity].
    apply IH. exact Hne.
Qed.

Lemma search_from_nowhere (r : regex) (p : option ascii) (s : str) :
  (forall pre s', s = pre ++ s' -> ends r (step_over p pre) s' = []) ->
  search_from r p s = false.
Proof.
  revert p. induction s as [| c s IH]; intros p Hnone.
  - cbn [search_from]. pose proof (Hnone [] [] eq_refl) as H0.
    cbn [step_over fold_left] in H0. rewrite H0. reflexivity.
  - cbn [search_from]. pose proof (Hnone [] (c :: s) eq_refl) as H0.
    cbn [step_over fold_left] in H0. rewrite H0.
    apply IH. intros pre s' ->. apply (Hnone (c :: pre)). reflexivity.
Qed.

(** ** Reading keywords *)

Ltac ci_letter H c Hc :=
  match type of H with
  | map _ ?u = _ =>
      destruct u as [| c u];
      [discriminate H | cbn [map] in H; injection H as Hc H]
  end.

Ltac ci_end H :=
  match type of H with
  | map _ ?u = _ => destruct u; [clear H | discriminate H]
  end.

Ltac seq_step tac :=
  eapply In_seq_cons; [tac | cbn [fst snd step_over fold_left]].

Lemma has_word_search (w : str) (r : regex) :
  (forall p s, word_here w p s = true -> ends r p s <> []) ->
  forall p s, has_word_from w p s = true -> search_from r p s = true.
Proof.
  intros Hhere p s. revert p. induction s as [| c s IH]; intros p H.
  - cbn [has_word_from] in H. rewrite orb_false_r in H.
    apply Hhere in H. cbn [search_from]. destruct (ends r p []);
      [contradiction | reflexivity].
  - cbn [has_word_from] in H. cbn [search_from].
    destruct (word_here w p (c :: s)) eqn:Hw.
    + apply Hhere in Hw. destruct (ends r p (c :: s)); [contradiction | reflexivity].
    + destruct (ends r p (c :: s)); [| reflexivity]. apply IH. exact H.
Qed.

Lemma not_nil_of_In (q : position) (l : list position) : In q l -> l <> [].
Proof. intros Hin ->. contradiction. Qed.

Lemma drop_table_here (p : option ascii) (s : str) :
  word_here (lit "DROP TABLE") p s = true ->
  ends ban001 p s <> [].
Proof.
  unfold word_here. intros H. apply andb_prop in H as [Hb Ha].
  apply negb_true_iff in Hb.
  destruct (read_ci (lit "DROP TABLE") s) as [s' |] eqn:Hr; [| discriminate Ha].
  apply negb_true_iff in Ha.
  destruct (read_ci_inv _ _ _ Hr) as (u & -> & Hu & _). clear Hr.
  cbn [map list_ascii_of_string] in Hu.
  ci_letter Hu c1 H1. ci_letter Hu c2 H2. ci_letter Hu c3 H3.
  ci_letter Hu c4 H4. ci_letter Hu c5 H5. ci_letter Hu c6 H6.
  ci_letter Hu c7 H7. ci_letter Hu c8 H8. ci_letter Hu c9 H9.
  ci_letter Hu c10 H10. ci_end Hu.
  apply (not_nil_of_In (Some c10, s')).
  cbn [app].
  seq_step ltac:(apply In_boundary; cbn [word_after];
                 rewrite Hb, (isword_same _ _ H1); reflexivity).
  seq_step ltac:(apply (In_kw "DROP" [c1; c2; c3; c4]);
                 cbn [map list_ascii_of_string]; congruence).
  seq_step ltac:(apply (In_repeat1 Space [c5]);
                 [discriminate
                 | cbn [forallb in_category];
                   rewrite (isspace_same _ _ H5); reflexivity]).
  seq_step ltac:(apply (In_kw "TABLE" [c6; c7; c8; c9; c10]);
                 cbn [map list_ascii_of_string]; congruence).
  seq_step ltac:(apply In_boundary; cbn [word_before];
                 rewrite Ha, (isword_same _ _ H10); reflexivity).
  apply In_seq_nil.
Qed.

Lemma In_findings_of (rows : Z) (stmt : str) (line : nat) (r : rule) :
  In r RULES -> search (pattern_of r) stmt = true ->
  In (finding_of stmt line rows r) (findings_of rows (stmt, line)).
Proof.
  intros Hr Hs. unfold findings_of. cbn [fst snd].
  apply in_map, filter_In. split; assumption.
Qed.

Lemma In_analyze (sql : str) (rows : Z) (stmt : str) (line : nat) (f : Finding) :
  In (stmt, line) (_split_statements sql) ->
  In f (findings_of rows (stmt, line)) ->
  exists fs, analyze sql rows = Ok fs /\ In f fs.
Proof.
  intros Hstmt Hf. eexists. split; [apply analyze_value |].
  apply in_flat_map. exists (stmt, line). split; assumption.
Qed.

(** C2, as amended: for every statement whose normalized text contains
    DROP TABLE, in any case, as whole words (no word character right before
    DROP nor right after TABLE), the analysis yields a finding with rule
    BAN001, severity critical and lock type ACCESS EXCLUSIVE, on the
    statement's line. *)
Theorem drop_table_words_flagged (script : str) (rows : Z) (stmt : str) (ln : nat) :
  In (stmt, ln) (_split_statements script) ->
  has_word "DROP TABLE" stmt = true ->
  exists fs f,
    analyze script rows = Ok fs /\ In f fs
    /\ rule_id f = lit "BAN001" /\ severity f = lit "critical"
    /\ lock_type f = lit "ACCESS EXCLUSIVE" /\ line f = ln.
Proof.
  intros Hstmt Hword.
  assert (Hsearch : search ban001 stmt = true)
    by (apply (has_word_search (lit "DROP TABLE")); [apply drop_table_here | exact Hword]).
  destruct (In_analyze script rows stmt ln _ Hstmt
              (In_findings_of rows stmt ln _ (or_introl eq_refl) Hsearch))
    as (fs & Hfs & Hin).
  exists fs. eexists. split; [exact Hfs |]. split; [exact Hin |].
  repeat split.
Qed.

Lemma drop_table_words_flagged_witness :
  In (lit "drop table users", 1) (_split_statements (lit "drop table users;"))
  /\ has_word "DROP TABLE" (lit "drop table users") = true
  /\ exists fs f,
      analyze (lit "drop table users;") 0 = Ok fs /\ In f fs
      /\ rule_id f = lit "BAN001" /\ severity f = lit "critical"
      /\ lock_type f = lit "ACCESS EXCLUSIVE" /\ line f = 1.
Proof.
  assert (H1 : In (lit "drop table users", 1)
                  (_split_statements (lit "drop table users;")))
    by (left; reflexivity).
  assert (H2 : has_word "DROP TABLE" (lit "drop table users") = true)
    by reflexivity.
  split; [exact H1 |]. split; [exact H2 |].
  exact (drop_table_words_flagged _ 0%Z _ _ H1 H2).
Defined.

(** C2, as stated, fails: the normalized text of [DROP TABLESPACE ts]
    contains DROP TABLE and the analysis yields no finding. *)
Lemma drop_table_substring_not_flagged :
  ~ (forall (script : str) (rows : Z) (stmt : str) (ln : nat),
        In (stmt, ln) (_split_statements script) ->
        contains_ci (lit "DROP TABLE") stmt = true ->
        exists fs f,
          analyze script rows = Ok fs /\ In f fs
          /\ rule_id f = lit "BAN001" /\ severity f = lit "critical"
          /\ lock_type f = lit "ACCESS EXCLUSIVE").
Proof.
  intros Hall.
  destruct (Hall (lit "DROP TABLESPACE ts;") 0%Z (lit "DROP TABLESPACE ts") 1)
    as (fs & f & Hfs & Hin & _).
  - left. reflexivity.
  - reflexivity.
  - vm_compute in Hfs. injection Hfs as <-. contradiction.
Qed.

(** ** Statements hold no semicolon *)

Lemma split_parts_no_sep (sep : ascii) (s part : str) :
  In part (Py.split sep s) -> ~ In sep part.
Proof.
  revert part. induction s as [| c s IH]; intros part Hin.
  - destruct Hin as [<- | []]. intros [].
  - cbn [Py.split] in Hin. destruct (Ascii.eqb_spec c sep) as [-> | Hc].
    + destruct Hin as [<- | Hin]; [intros [] | apply IH, Hin].
    + destruct (Py.split sep s) as [| p0 ps].
      * destruct Hin as [<- | []]. intros [Heq | []]. congruence.
      * destruct Hin as [<- | Hin].
        -- intros [Heq | Hin]; [congruence |].
           apply (IH p0); [left; reflexivity | exact Hin].
        -- apply IH. right. exact Hin.
Qed.

Lemma lstrip_incl (c : ascii) (s : str) : In c (Py.lstrip s) -> In c s.
Proof.
  induction s as [| a s IH]; cbn [Py.lstrip]; [intros [] |].
  destruct (Char.isspace a); [| intros H; exact H].
  intros H. right. apply IH, H.
Qed.

Lemma strip_incl (c : ascii) (s : str) : In c (Py.strip s) -> In c s.
Proof.
  unfold Py.strip, Py.rstrip. intros H.
  apply in_rev, lstrip_incl in H. apply in_rev in H.
  apply lstrip_incl, H.
Qed.

Lemma words_incl (c : ascii) (w s : str) :
  In w (Py.words s) -> In c w -> In c s.
Proof.
  revert w. induction s as [| c0 s IH]; intros w Hw Hc; [contradiction |].
  cbn [Py.words] in Hw. destruct (Char.isspace c0).
  - right. apply (IH w); assumption.
  - destruct s as [| c1 s1].
    + destruct Hw as [<- | []]. exact Hc.
    + destruct (Char.isspace c1).
      * destruct Hw as [<- | Hw].
        -- destruct Hc as [<- | []]. left. reflexivity.
        -- right. apply (IH w); assumption.
      * destruct (Py.words (c1 :: s1)) as [| w0 ws].
        -- destruct Hw as [<- | []]. destruct Hc as [<- | []]. left. reflexivity.
        -- destruct Hw as [<- | Hw].
           ++ destruct Hc as [<- | Hc]; [left; reflexivity |].
              right. apply (IH w0); [left; reflexivity | exact Hc].
           ++ right. apply (IH w); [right; exact Hw | exact Hc].
Qed.

Lemma join_incl (c : ascii) (sep : str) (ws : list str) :
  In c (Py.join sep ws) -> In c sep \/ exists w, In w ws /\ In c w.
Proof.
  induction ws as [| w ws IH]; [intros [] |].
  cbn [Py.join]. destruct ws as [| w1 ws1].
  - intros H. right. exists w. split; [left; reflexivity | exact H].
  - intros H. apply in_app_or in H as [H | H].
    + right. exists w. split; [left; reflexivity | exact H].
    + apply in_app_or in H as [H | H]; [left; exact H |].
      destruct (IH H) as [Hsep | (w' & Hw' & Hc)]; [left; exact Hsep |].
      right. exists w'. split; [right; exact Hw' | exact Hc].
Qed.

Lemma normalize_incl (c : ascii) (part : str) :
  In c (normalize part) -> c = " "%char \/ In c part.
Proof.
  unfold normalize. intros H.
  destruct (join_incl _ _ _ H) as [[<- | []] | (w & Hw & Hc)];
    [left; reflexivity |].
  right. apply strip_incl. apply (words_incl c w); assumption.
Qed.

Lemma split_loop_In (script : str) (parts : list str) (offset : nat)
  (stmt : str) (ln : nat) :
  In (stmt, ln) (split_loop script parts offset) ->
  exists part, In part parts /\ stmt = normalize part.
Proof.
  revert offset. induction parts as [| part parts IH]; intros offset Hin;
    [contradiction |].
  cbn [split_loop] in Hin. apply in_app_or in Hin as [Hin | Hin].
  - destruct (_ && _); [| contradiction].
    destruct Hin as [Heq | []]. injection Heq as <- _.
    exists part. split; [left |]; reflexivity.
  - destruct (IH _ Hin) as (part' & Hpart & Hstmt).
    exists part'. split; [right; exact Hpart | exact Hstmt].
Qed.

Lemma statement_no_semicolon (script stmt : str) (ln : nat) :
  In (stmt, ln) (_split_statements script) -> ~ In ";"%char stmt.
Proof.
  intros Hin Hsemi.
  destruct (split_loop_In _ _ _ _ _ Hin) as (part & Hpart & ->).
  destruct (normalize_incl _ _ Hsemi) as [Heq | Hc]; [discriminate Heq |].
  exact (split_parts_no_sep _ _ _ Hpart Hc).
Qed.

(** ** The lookahead for DEFAULT *)

Lemma has_word_from_app (w : str) (p : option ascii) (u s : str) :
  word_here w (step_over p u) s = true -> has_word_from w p (u ++ s) = true.
Proof.
  revert p. induction u as [| c u IH]; intros p H.
  - cbn [app]. destruct s; cbn [has_word_from]; cbn [step_over fold_left] in H;
      rewrite H; reflexivity.
  - cbn [app has_word_from]. rewrite (IH _ H). apply orb_true_r.
Qed.



(** ** The rule on NOT NULL columns *)

Lemma token_inv (w : str) :
  token w = true -> w <> [] /\ forallb (in_category NotSpace) w = true.
Proof.
  unfold token. intros H. apply andb_prop in H as [Hne Hall]. split.
  - intros ->. discriminate Hne.
  - exact Hall.
Qed.


Lemma flat_map_nil (A B : Type) (f : A -> list B) (l : list A) :
  (forall x, In x l -> f x = []) -> flat_map f l = [].
Proof.
  induction l as [| x l IH]; intros H; [reflexivity |].
  cbn [flat_map]. rewrite (H x) by (left; reflexivity).
  apply IH. intros y Hy. apply H. right. exact Hy.
Qed.

Lemma notahead_blocked (r : regex) (p : option ascii) (s : str) :
  ends r p s <> [] -> ends (seq [NotAhead r]) p s = [].
Proof.
  intros Hne. cbn [seq ends].
  destruct (ends r p s); [contradiction | reflexivity].
Qed.




Lemma space_only (c : ascii) :
  Char.lower c = Char.lower " " -> c = " "%char.
Proof.
  destruct c as [[] [] [] [] [] [] [] []]; intros H;
    first [reflexivity | vm_compute in H; discriminate H].
Qed.








(** * Further properties of the engine *)

(** ** More on the lock estimator *)

(** X1: once a positive row count is given, the estimate of a rule whose
    baseline is absent or not negative is known, at least 1 ms, and at
    least one ms per 10000 rows. *)
Theorem estimate_known_with_rows (base_ms : option Z) (rows : Z) :
  (0 < rows)%Z ->
  (forall b, base_ms = Some b -> (0 <= b)%Z) ->
  exists ms,
    estimate_lock_ms base_ms rows = Ok (Some ms)
    /\ (1 <= ms)%Z /\ (rows / 10000 <= ms)%Z.
Proof.
  intros Hrows Hbase. rewrite estimate_lock_ms_value.
  unfold lock_estimate_spec.
  destruct (Z.leb_spec rows 0) as [Hle | _]; [lia |].
  rewrite Z.quot_div_nonneg by lia.
  eexists. split; [reflexivity |].
  pose proof (Z.div_pos rows 10000 ltac:(lia) ltac:(lia)) as Hq.
  destruct base_ms as [b |]; cbn [or_else].
  - specialize (Hbase b eq_refl). destruct (Z.eqb_spec b 0); lia.
  - lia.
Qed.

Lemma estimate_known_with_rows_witness :
  (0 < 250000)%Z
  /\ (forall b, @None Z = Some b -> (0 <= b)%Z)
  /\ exists ms,
      estimate_lock_ms None 250000 = Ok (Some ms)
      /\ (1 <= ms)%Z /\ (250000 / 10000 <= ms)%Z.
Proof.
  assert (H1 : (0 < 250000)%Z) by lia.
  assert (H2 : forall b, @None Z = Some b -> (0 <= b)%Z) by (intros b H; discriminate H).
  split; [exact H1 |]. split; [exact H2 |].
  exact (estimate_known_with_rows None 250000 H1 H2).
Defined.

(** X2: for a positive baseline and a positive row count the estimate is
    exactly the baseline plus one ms per 10000 rows: the maximum never
    selects the bare baseline. *)
Theorem estimate_adds_baseline (b rows : Z) :
  (0 < b)%Z -> (0 < rows)%Z ->
  estimate_lock_ms (Some b) rows = Ok (Some (b + rows / 10000)%Z).
Proof.
  intros Hb Hrows. unfold estimate_lock_ms.
  destruct (Z.leb_spec rows 0) as [Hle | _]; [lia |].
  rewrite floordiv_10000. cbn [bind or_else].
  destruct (Z.eqb_spec b 0) as [-> | _]; [lia |].
  pose proof (Z.div_pos rows 10000 ltac:(lia) ltac:(lia)) as Hq.
  do 2 f_equal. lia.
Qed.

Lemma estimate_adds_baseline_witness :
  (0 < 50)%Z /\ (0 < 1000000)%Z
  /\ estimate_lock_ms (Some 50%Z) 1000000 = Ok (Some (50 + 1000000 / 10000)%Z).
Proof.
  assert (H1 : (0 < 50)%Z) by lia.
  assert (H2 : (0 < 1000000)%Z) by lia.
  split; [exact H1 |]. split; [exact H2 |].
  exact (estimate_adds_baseline 50 1000000 H1 H2).
Defined.

(** X3: the estimate does not decrease when the row count grows, whatever
    the baseline. *)
Theorem estimate_monotone_in_rows (base_ms : option Z) (rows1 rows2 ms1 ms2 : Z) :
  (rows1 <= rows2)%Z ->
  estimate_lock_ms base_ms rows1 = Ok (Some ms1) ->
  estimate_lock_ms base_ms rows2 = Ok (Some ms2) ->
  (ms1 <= ms2)%Z.
Proof.
  intros Hle. rewrite !estimate_lock_ms_value. unfold lock_estimate_spec.
  destruct (Z.leb_spec rows1 0) as [H1 | H1];
    destruct (Z.leb_spec rows2 0) as [H2 | H2]; try lia.
  - intros E1 E2. rewrite E1 in E2. injection E2 as ->. lia.
  - rewrite Z.quot_div_nonneg by lia.
    pose proof (Z.div_pos rows2 10000 ltac:(lia) ltac:(lia)) as Hq.
    intros E1 E2. injection E1 as ->. injection E2 as <-.
    cbn [or_else]. destruct (Z.eqb_spec ms1 0); lia.
  - rewrite !Z.quot_div_nonneg by lia.
    pose proof (Z.div_le_mono rows1 rows2 10000 ltac:(lia) Hle) as Hq.
    intros E1 E2. injection E1 as <-. injection E2 as <-. lia.
Qed.

Lemma estimate_monotone_in_rows_witness :
  (0 <= 20000)%Z
  /\ estimate_lock_ms (Some 10%Z) 0 = Ok (Some 10%Z)
  /\ estimate_lock_ms (Some 10%Z) 20000 = Ok (Some 12%Z)
  /\ (10 <= 12)%Z.
Proof.
  assert (H1 : (0 <= 20000)%Z) by lia.
  assert (H2 : estimate_lock_ms (Some 10%Z) 0 = Ok (Some 10%Z)) by reflexivity.
  assert (H3 : estimate_lock_ms (Some 10%Z) 20000 = Ok (Some 12%Z)) by reflexivity.
  split; [exact H1 |]. split; [exact H2 |]. split; [exact H3 |].
  exact (estimate_monotone_in_rows (Some 10%Z) 0 20000 10 12 H1 H2 H3).
Defined.

(** ** More on the risk score *)

Lemma weight_by_rank (f : Finding) :
  weight_of f = (25 * Z.max 1 (dict_get SEV_RANK (severity f) 0))%Z.
Proof.
  rewrite weight_of_cases. unfold SEV_RANK, dict_get.
  destruct (str_eqb (lit "critical") (severity f)) eqn:Hc;
    destruct (str_eqb (lit "high") (severity f)) eqn:Hh;
    destruct (str_eqb (lit "medium") (severity f)) eqn:Hm;
    destruct (str_eqb (lit "low") (severity f)) eqn:Hl;
    repeat match goal with
      | H : str_eqb _ _ = true |- _ => apply str_eqb_eq in H
      end;
    try (cbn [list_ascii_of_string] in *; congruence);
    reflexivity.
Qed.

Lemma total_multiple (fs : list Finding) :
  exists k, fold_left Z.add (map weight_of fs) 0%Z = (25 * k)%Z
            /\ (Z.of_nat (length fs) <= k)%Z.
Proof.
  induction fs as [| f fs (k & Hk & Hlen)].
  - exists 0%Z. split; [reflexivity | cbn; lia].
  - exists (Z.max 1 (dict_get SEV_RANK (severity f) 0) + k)%Z.
    rewrite total_cons, Hk, weight_by_rank. cbn [length]. split; lia.
Qed.

(** X4: the risk score is one of 0, 25, 50, 75 and 100, and it is 0 only
    when there is no finding. *)
Theorem risk_score_values (fs : list Finding) :
  In (risk_score fs) [0; 25; 50; 75; 100]%Z
  /\ (risk_score fs = 0%Z <-> fs = []).
Proof.
  unfold risk_score. fold weight_of. split.
  - destruct (total_multiple fs) as (k & -> & Hlen).
    assert (Hk : (k = 0 \/ k = 1 \/ k = 2 \/ k = 3 \/ 4 <= k)%Z) by lia.
    destruct Hk as [-> | [-> | [-> | [-> | Hk]]]]; cbn [In].
    + left. reflexivity.
    + right. left. reflexivity.
    + do 2 right. left. reflexivity.
    + do 3 right. left. reflexivity.
    + do 4 right. left. lia.
  - split; [| intros ->; reflexivity].
    intros H0. destruct fs as [| f fs]; [reflexivity |]. exfalso.
    destruct (total_multiple (f :: fs)) as (k & Hk & Hlen).
    rewrite Hk in H0. cbn [length] in Hlen. lia.
Qed.

(** X5: four findings or more, or one critical finding, take the score to
    its cap of 100. *)
Theorem risk_score_saturation (fs : list Finding) :
  4 <= length fs \/ (exists f, In f fs /\ severity f = lit "critical") ->
  risk_score fs = 100%Z.
Proof.
  unfold risk_score. fold weight_of. intros [Hlen | (f & Hin & Hsev)].
  - destruct (total_multiple fs) as (k & -> & Hk). lia.
  - apply in_split in Hin as (fs1 & fs2 & ->).
    rewrite total_app, total_cons.
    pose proof (total_nonneg fs1). pose proof (total_nonneg fs2).
    assert (Hw : weight_of f = 100%Z)
      by (unfold weight_of; rewrite Hsev; reflexivity).
    lia.
Qed.

Lemma risk_score_saturation_witness :
  (4 <= length [sample_finding "critical"]
   \/ (exists f, In f [sample_finding "critical"] /\ severity f = lit "critical"))
  /\ risk_score [sample_finding "critical"] = 100%Z.
Proof.
  assert (H : 4 <= length [sample_finding "critical"]
              \/ (exists f, In f [sample_finding "critical"]
                            /\ severity f = lit "critical"))
    by (right; exists (sample_finding "critical"); split; [left |]; reflexivity).
  split; [exact H |].
  exact (risk_score_saturation [sample_finding "critical"] H).
Defined.

(** X6: the score of two lists of findings put together is the sum of
    their scores, capped at 100. *)
Theorem risk_score_app (fs gs : list Finding) :
  risk_score (fs ++ gs) = Z.min 100 (risk_score fs + risk_score gs).
Proof.
  unfold risk_score. fold weight_of. rewrite total_app.
  pose proof (total_nonneg fs). pose proof (total_nonneg gs). lia.
Qed.

(** X7: replacing a finding by one that the command line ranks at least as
    high ([SEV_RANK]) never lowers the score. *)
Theorem risk_score_severity_monotone (fs1 fs2 : list Finding) (f g : Finding) :
  (dict_get SEV_RANK (severity f) 0 <= dict_get SEV_RANK (severity g) 0)%Z ->
  (risk_score (fs1 ++ f :: fs2) <= risk_score (fs1 ++ g :: fs2))%Z.
Proof.
  intros Hrank. unfold risk_score. fold weight_of.
  rewrite !total_app, !total_cons, !weight_by_rank. lia.
Qed.

Lemma risk_score_severity_monotone_witness :
  (dict_get SEV_RANK (severity (sample_finding "low")) 0
   <= dict_get SEV_RANK (severity (sample_finding "high")) 0)%Z
  /\ (risk_score ([] ++ sample_finding "low" :: [])
      <= risk_score ([] ++ sample_finding "high" :: []))%Z.
Proof.
  assert (H : (dict_get SEV_RANK (severity (sample_finding "low")) 0
               <= dict_get SEV_RANK (severity (sample_finding "high")) 0)%Z)
    by (vm_compute; discriminate).
  split; [exact H |].
  exact (risk_score_severity_monotone [] [] _ _ H).
Defined.

(** ** What a finding of the analysis is *)

Lemma analyze_In_inv (script : str) (rows : Z) (fs : list Finding) (f : Finding) :
  analyze script rows = Ok fs -> In f fs ->
  exists stmt r,
    In (stmt, line f) (_split_statements script)
    /\ In r RULES /\ search (pattern_of r) stmt = true
    /\ f = finding_of stmt (line f) rows r.
Proof.
  rewrite analyze_value. intros Hfs Hin. injection Hfs as <-.
  apply in_flat_map in Hin as ([stmt ln] & Hstmt & Hin).
  unfold findings_of in Hin. cbn [fst snd] in Hin.
  apply in_map_iff in Hin as (r & <- & Hr).
  apply filter_In in Hr as [Hr Hsearch].
  exists stmt, r.
  destruct r as [[[[[rid pattern] sev] msg] lock] base]. cbn [finding_of line].
  repeat split; assumption.
Qed.

Lemma rules_baseline (r : rule) :
  In r RULES ->
  let '(_, _, _, _, _, base) := r in
  base = None \/ exists b, base = Some b /\ (0 < b)%Z.
Proof.
  unfold RULES. intros Hr.
  repeat (destruct Hr as [<- | Hr];
          [ first [ left; reflexivity
                  | right; eexists; split; [reflexivity | reflexivity] ] |]).
  contradiction.
Qed.

Lemma rules_severity (r : rule) :
  In r RULES ->
  let '(_, _, sev, _, _, _) := r in
  In sev [lit "critical"; lit "high"; lit "medium"].
Proof.
  unfold RULES. intros Hr.
  repeat (destruct Hr as [<- | Hr];
          [ cbn [In]; first [ left; reflexivity
                            | right; left; reflexivity
                            | right; right; left; reflexivity ] |]).
  contradiction.
Qed.

Lemma analyze_severity (script : str) (rows : Z) (fs : list Finding) (f : Finding) :
  analyze script rows = Ok fs -> In f fs ->
  In (severity f) [lit "critical"; lit "high"; lit "medium"].
Proof.
  intros Hfs Hin.
  destruct (analyze_In_inv _ _ _ _ Hfs Hin) as (stmt & r & _ & Hr & _ & ->).
  pose proof (rules_severity r Hr) as Hsev.
  destruct r as [[[[[rid pattern] sev] msg] lock] base]. exact Hsev.
Qed.

(** X8: every finding the analysis returns is backed by the catalog: its
    identifier, severity, message and lock type are those of one rule whose
    pattern matches a statement of the script at the finding's line; its
    snippet is the first 120 characters of that statement and its estimate
    the estimator's value for the rule's baseline. *)
Theorem finding_backed_by_rule (script : str) (rows : Z) (fs : list Finding)
  (f : Finding) :
  analyze script rows = Ok fs -> In f fs ->
  exists pattern base stmt,
    In (rule_id f, pattern, severity f, message f, lock_type f, base) RULES
    /\ In (stmt, line f) (_split_statements script)
    /\ search pattern stmt = true
    /\ sql f = firstn 120 stmt /\ length (sql f) <= 120
    /\ estimate_lock_ms base rows = Ok (lock_ms f).
Proof.
  intros Hfs Hin.
  destruct (analyze_In_inv _ _ _ _ Hfs Hin) as (stmt & r & Hstmt & Hr & Hs & Hf).
  destruct r as [[[[[rid pattern] sev] msg] lock] base].
  exists pattern, base, stmt. rewrite Hf. cbn [finding_of rule_id severity message
    lock_type line sql lock_ms pattern_of] in *.
  repeat split; try assumption.
  - apply firstn_le_length.
  - apply estimate_lock_ms_value.
Qed.

Lemma finding_backed_by_rule_witness :
  exists fs f,
    analyze (lit "DROP TABLE users;") 7 = Ok fs /\ In f fs
    /\ exists pattern base stmt,
        In (rule_id f, pattern, severity f, message f, lock_type f, base) RULES
        /\ In (stmt, line f) (_split_statements (lit "DROP TABLE users;"))
        /\ search pattern stmt = true
        /\ sql f = firstn 120 stmt /\ length (sql f) <= 120
        /\ estimate_lock_ms base 7 = Ok (lock_ms f).
Proof.
  eexists. eexists.
  assert (H1 : analyze (lit "DROP TABLE users;") 7
               = Ok [finding_of (lit "DROP TABLE users") 1 7
                       (lit "BAN001", ban001, lit "critical",
                        lit "DROP TABLE permanently deletes data and all indexes",
                        lit "ACCESS EXCLUSIVE", Some 10%Z)])
    by reflexivity.
  split; [exact H1 |].
  split; [left; reflexivity |].
  exact (finding_backed_by_rule _ _ _ _ H1 (or_introl eq_refl)).
Defined.

(** X9: with a positive row count every finding has a known estimate, of at
    least 1 ms and at least one ms per 10000 rows. *)
Theorem findings_have_estimate (script : str) (rows : Z) (fs : list Finding)
  (f : Finding) :
  (0 < rows)%Z -> analyze script rows = Ok fs -> In f fs ->
  exists ms, lock_ms f = Some ms /\ (1 <= ms)%Z /\ (rows / 10000 <= ms)%Z.
Proof.
  intros Hrows Hfs Hin.
  destruct (analyze_In_inv _ _ _ _ Hfs Hin) as (stmt & r & _ & Hr & _ & ->).
  pose proof (rules_baseline r Hr) as Hbase.
  destruct r as [[[[[rid pattern] sev] msg] lock] base].
  cbn [finding_of lock_ms]. unfold lock_estimate_spec.
  destruct (Z.leb_spec rows 0) as [Hle | _]; [lia |].
  rewrite Z.quot_div_nonneg by lia.
  pose proof (Z.div_pos rows 10000 ltac:(lia) ltac:(lia)) as Hq.
  eexists. split; [reflexivity |].
  destruct Hbase as [-> | (b & -> & Hb)]; cbn [or_else].
  - lia.
  - destruct (Z.eqb_spec b 0); lia.
Qed.

Lemma findings_have_estimate_witness :
  exists fs f,
    (0 < 30000)%Z
    /\ analyze (lit "CREATE INDEX i ON t(c);") 30000 = Ok fs /\ In f fs
    /\ exists ms, lock_ms f = Some ms /\ (1 <= ms)%Z /\ (30000 / 10000 <= ms)%Z.
Proof.
  eexists. eexists.
  assert (H0 : (0 < 30000)%Z) by lia.
  assert (H1 : analyze (lit "CREATE INDEX i ON t(c);") 30000
               = Ok [mkFinding (lit "LCK002") (lit "high")
                       (lit "CREATE INDEX without CONCURRENTLY blocks all writes") 1
                       (lit "CREATE INDEX i ON t(c)") (lit "SHARE") (Some 3%Z)])
    by reflexivity.
  split; [exact H0 |]. split; [exact H1 |]. split; [left; reflexivity |].
  exact (findings_have_estimate _ _ _ _ H0 H1 (or_introl eq_refl)).
Defined.

Lemma plain_findings_of (rows1 rows2 : Z) (sl : str * nat) :
  map plain (findings_of rows1 sl) = map plain (findings_of rows2 sl).
Proof.
  unfold findings_of. rewrite !map_map. apply map_ext.
  intros [[[[[rid pattern] sev] msg] lock] base]. reflexivity.
Qed.

Lemma plain_flat_map (rows1 rows2 : Z) (stmts : list (str * nat)) :
  map plain (flat_map (findings_of rows1) stmts)
  = map plain (flat_map (findings_of rows2) stmts).
Proof.
  induction stmts as [| sl stmts IH]; [reflexivity |].
  cbn [flat_map]. rewrite !map_app, IH, (plain_findings_of rows1 rows2).
  reflexivity.
Qed.

Lemma weights_of_plain (fs : list Finding) :
  map weight_of fs
  = map (fun p => (dict_get SEVERITY_WEIGHT (snd (fst (fst (fst (fst p))))) 1 * 25)%Z)
        (map plain fs).
Proof. rewrite map_map. reflexivity. Qed.

(** X10: the row count changes nothing but the estimates: two analyses of
    one script agree on every other field of every finding, and so on the
    risk score. *)
Theorem rows_change_only_estimates (script : str) (rows1 rows2 : Z)
  (fs1 fs2 : list Finding) :
  analyze script rows1 = Ok fs1 -> analyze script rows2 = Ok fs2 ->
  map plain fs1 = map plain fs2 /\ risk_score fs1 = risk_score fs2.
Proof.
  rewrite !analyze_value. intros H1 H2. injection H1 as <-. injection H2 as <-.
  pose proof (plain_flat_map rows1 rows2 (_split_statements script)) as Hplain.
  split; [exact Hplain |].
  unfold risk_score. fold weight_of.
  rewrite !weights_of_plain, Hplain. reflexivity.
Qed.

Lemma rows_change_only_estimates_witness :
  exists fs1 fs2,
    analyze (lit "DROP TABLE users;") 0 = Ok fs1
    /\ analyze (lit "DROP TABLE users;") 5000000 = Ok fs2
    /\ map plain fs1 = map plain fs2 /\ risk_score fs1 = risk_score fs2.
Proof.
  eexists. eexists.
  assert (H1 : analyze (lit "DROP TABLE users;") 0
               = Ok (flat_map (findings_of 0) (_split_statements (lit "DROP TABLE users;"))))
    by apply analyze_value.
  assert (H2 : analyze (lit "DROP TABLE users;") 5000000
               = Ok (flat_map (findings_of 5000000)
                       (_split_statements (lit "DROP TABLE users;"))))
    by apply analyze_value.
  split; [exact H1 |]. split; [exact H2 |].
  exact (rows_change_only_estimates _ _ _ _ _ H1 H2).
Defined.

(** ** The SARIF report *)

Lemma sarif_file_loop_value (fp : str) (fs : list Finding) (results : list json) :
  sarif_file_loop fp fs results = results ++ map (sarif_result fp) fs.
Proof.
  revert results. induction fs as [| f fs IH]; intros results.
  - cbn. rewrite app_nil_r. reflexivity.
  - cbn [sarif_file_loop map]. rewrite IH, <- app_assoc. reflexivity.
Qed.

Lemma sarif_loop_value (items : list (str * list Finding)) (results : list json) :
  sarif_loop items results
  = results ++ map (fun pf => sarif_result (fst pf) (snd pf)) (located items).
Proof.
  revert results. induction items as [| [fp fs] items IH]; intros results.
  - cbn. rewrite app_nil_r. reflexivity.
  - cbn [sarif_loop]. rewrite IH, sarif_file_loop_value.
    unfold located. cbn [flat_map fst snd].
    rewrite map_app, map_map, <- app_assoc. reflexivity.
Qed.

Lemma sarif_results_value (all_findings : list (str * list Finding)) :
  sarif_results (_to_sarif all_findings)
  = map (fun pf => sarif_result (fst pf) (snd pf)) (located all_findings).
Proof.
  unfold sarif_results, _to_sarif. cbn. apply (sarif_loop_value all_findings []).
Qed.

(** X11: the SARIF document has a single run with one result per finding,
    in the order of the files and, within a file, of its findings; each
    result carries the finding's rule identifier and points to the path of
    its file and to the finding's line. *)
Theorem sarif_one_result_per_finding (all_findings : list (str * list Finding)) :
  length (sarif_results (_to_sarif all_findings))
  = length (flat_map snd all_findings)
  /\ Forall2
       (fun pf r =>
          json_field "ruleId" r = Some (JStr (rule_id (snd pf)))
          /\ sarif_location r
             = Some (JStr (fst pf), JInt (Z.of_nat (line (snd pf)))))
       (located all_findings) (sarif_results (_to_sarif all_findings)).
Proof.
  rewrite sarif_results_value. split.
  - rewrite length_map. unfold located.
    induction all_findings as [| [fp fs] d IH]; [reflexivity |].
    cbn [flat_map fst snd]. rewrite !length_app, length_map, IH. reflexivity.
  - induction (located all_findings) as [| pf l IH]; constructor.
    + split; reflexivity.
    + exact IH.
Qed.

Lemma error_level_by_rank (sev : str) :
  in_critical_high sev = (3 <=? dict_get SEV_RANK sev 0)%Z.
Proof.
  unfold in_critical_high, SEV_RANK, dict_get.
  destruct (str_eqb sev (lit "critical")) eqn:Hc;
    destruct (str_eqb sev (lit "high")) eqn:Hh;
    destruct (str_eqb (lit "low") sev) eqn:Hl;
    destruct (str_eqb (lit "medium") sev) eqn:Hm;
    destruct (str_eqb (lit "high") sev) eqn:Hh';
    destruct (str_eqb (lit "critical") sev) eqn:Hc';
    repeat match goal with
      | H : str_eqb _ _ = true |- _ => apply str_eqb_eq in H
      | H : str_eqb ?a ?b = false |- _ =>
          assert (a <> b) by (intros E; apply str_eqb_eq in E; congruence);
          clear H
      end;
    try (cbn [list_ascii_of_string] in *; congruence);
    reflexivity.
Qed.

Lemma sarif_level (fp : str) (f : Finding) :
  json_field "level" (sarif_result fp f)
  = Some (JStr (if in_critical_high (severity f) then lit "error" else lit "warning")).
Proof. reflexivity. Qed.

Lemma existsb_same (A : Type) (f g : A -> bool) (l : list A) :
  (forall x, f x = g x) -> existsb f l = existsb g l.
Proof.
  intros Hfg. induction l as [| x l IH]; [reflexivity |].
  cbn [existsb]. rewrite Hfg, IH. reflexivity.
Qed.

Lemma dict_get_missing (d : list (str * Z)) (key : str) (default : Z) :
  dict_item d key = None -> dict_get d key default = default.
Proof.
  induction d as [| [k v] d IH]; [reflexivity |].
  cbn [dict_item dict_get]. destruct (str_eqb k key); [discriminate | exact IH].
Qed.

Lemma In_located (all_findings : list (str * list Finding)) (f : Finding) :
  In f (flat_map snd all_findings) <-> exists fp, In (fp, f) (located all_findings).
Proof.
  unfold located. split.
  - intros H. apply in_flat_map in H as ([fp fs] & Hitem & Hf).
    exists fp. apply in_flat_map. exists (fp, fs). split; [exact Hitem |].
    cbn [fst snd] in *. apply in_map. exact Hf.
  - intros (fp & H). apply in_flat_map in H as ([fp' fs] & Hitem & Hf).
    cbn [fst snd] in Hf. apply in_map_iff in Hf as (f' & Heq & Hf').
    injection Heq as _ ->.
    apply in_flat_map. exists (fp', fs). split; assumption.
Qed.

(** X12: with the threshold [high], which is also the one an unrecognized
    [--fail-on] value selects, [lint] exits with status 1 exactly when the
    SARIF report of the same findings holds a result of level [error]. *)
Theorem lint_fails_on_sarif_error (fail_on : str)
  (all_findings : list (str * list Finding)) :
  fail_on = lit "high" \/ dict_item SEV_RANK fail_on = None ->
  (exit_status fail_on all_findings = 1%Z
   <-> exists r, In r (sarif_results (_to_sarif all_findings))
                 /\ json_field "level" r = Some (JStr (lit "error"))).
Proof.
  intros Hfail.
  assert (Hthreshold : dict_get SEV_RANK fail_on 3 = 3%Z)
    by (destruct Hfail as [-> | Hnone];
        [reflexivity | apply dict_get_missing, Hnone]).
  unfold exit_status. rewrite Hthreshold. cbv zeta.
  rewrite (existsb_same _ _ (fun f => in_critical_high (severity f)))
    by (intros f; symmetry; apply error_level_by_rank).
  rewrite sarif_results_value. split.
  - destruct (existsb _ _) eqn:Hex; [intros _ | discriminate].
    apply existsb_exists in Hex as (f & Hin & Hlevel).
    apply In_located in Hin as (fp & Hin).
    exists (sarif_result fp f). split.
    + apply in_map_iff. exists (fp, f). split; [reflexivity | exact Hin].
    + rewrite sarif_level, Hlevel. reflexivity.
  - intros (r & Hin & Hlevel).
    apply in_map_iff in Hin as ([fp f] & <- & Hin). cbn [fst snd] in Hlevel.
    rewrite sarif_level in Hlevel.
    assert (Hex : existsb (fun f => in_critical_high (severity f))
                    (flat_map snd all_findings) = true).
    { apply existsb_exists. exists f. split.
      - apply In_located. exists fp. exact Hin.
      - destruct (in_critical_high (severity f)); [reflexivity |].
        cbn [list_ascii_of_string] in Hlevel. discriminate Hlevel. }
    rewrite Hex. reflexivity.
Qed.

Lemma lint_fails_on_sarif_error_witness :
  (lit "strict" = lit "high" \/ dict_item SEV_RANK (lit "strict") = None)
  /\ (exit_status (lit "strict") [(lit "a.sql", [sample_finding "critical"])] = 1%Z
      <-> exists r,
          In r (sarif_results (_to_sarif [(lit "a.sql", [sample_finding "critical"])]))
          /\ json_field "level" r = Some (JStr (lit "error"))).
Proof.
  assert (H : lit "strict" = lit "high" \/ dict_item SEV_RANK (lit "strict") = None)
    by (right; reflexivity).
  split; [exact H |].
  exact (lint_fails_on_sarif_error (lit "strict") _ H).
Defined.

(** X13: a threshold that is not lower lets through at least as much: when
    the rank of one [--fail-on] value is at most that of another, a run that
    fails under the second fails under the first. *)
Theorem exit_status_monotone (fail_on1 fail_on2 : str)
  (all_findings : list (str * list Finding)) :
  (dict_get SEV_RANK fail_on1 3 <= dict_get SEV_RANK fail_on2 3)%Z ->
  (exit_status fail_on2 all_findings <= exit_status fail_on1 all_findings)%Z.
Proof.
  intros Hle. unfold exit_status. cbv zeta.
  destruct (existsb (fun f => (dict_get SEV_RANK fail_on2 3
                               <=? dict_get SEV_RANK (severity f) 0)%Z) _) eqn:H2.
  - apply existsb_exists in H2 as (f & Hin & Hf). apply Z.leb_le in Hf.
    assert (H1 : existsb (fun f => (dict_get SEV_RANK fail_on1 3
                                    <=? dict_get SEV_RANK (severity f) 0)%Z)
                   (flat_map snd all_findings) = true)
      by (apply existsb_exists; exists f; split; [exact Hin | apply Z.leb_le; lia]).
    rewrite H1. cbv iota. lia.
  - match goal with
    | |- context [existsb ?p ?l] => destruct (existsb p l)
    end; lia.
Qed.

Lemma exit_status_monotone_witness :
  (dict_get SEV_RANK (lit "medium") 3 <= dict_get SEV_RANK (lit "critical") 3)%Z
  /\ (exit_status (lit "critical") [(lit "a.sql", [sample_finding "high"])]
      <= exit_status (lit "medium") [(lit "a.sql", [sample_finding "high"])])%Z.
Proof.
  assert (H : (dict_get SEV_RANK (lit "medium") 3
               <= dict_get SEV_RANK (lit "critical") 3)%Z)
    by (vm_compute; discriminate).
  split; [exact H |].
  exact (exit_status_monotone (lit "medium") (lit "critical") _ H).
Defined.

Lemma threshold_positive (fail_on : str) : (1 <= dict_get SEV_RANK fail_on 3)%Z.
Proof.
  unfold SEV_RANK, dict_get.
  repeat match goal with |- context [str_eqb ?a ?b] => destruct (str_eqb a b) end; lia.
Qed.

(** X14: a finding whose severity is not one of the four names never makes
    [lint] fail, whatever the threshold, although the risk score counts it
    for 25; without any finding the status is 0. *)
Theorem unranked_severity_never_fails (fail_on : str)
  (all_findings : list (str * list Finding)) :
  (forall f, In f (flat_map snd all_findings) ->
             dict_item SEV_RANK (severity f) = None) ->
  exit_status fail_on all_findings = 0%Z
  /\ risk_score (flat_map snd all_findings)
     = Z.min 100 (25 * Z.of_nat (length (flat_map snd all_findings))).
Proof.
  intros Hnone. split.
  - unfold exit_status. cbv zeta.
    destruct (existsb _ _) eqn:Hex; [| reflexivity].
    apply existsb_exists in Hex as (f & Hin & Hf). apply Z.leb_le in Hf.
    rewrite (dict_get_missing _ _ _ (Hnone f Hin)) in Hf.
    pose proof (threshold_positive fail_on). lia.
  - unfold risk_score. fold weight_of. f_equal.
    induction (flat_map snd all_findings) as [| f fs IH]; [reflexivity |].
    rewrite total_cons, IH by (intros g Hg; apply Hnone; right; exact Hg).
    rewrite weight_by_rank.
    rewrite (dict_get_missing _ _ _ (Hnone f (or_introl eq_refl))).
    cbn [length]. lia.
Qed.

Lemma unranked_severity_never_fails_witness :
  (forall f, In f (flat_map snd [(lit "a.sql", [sample_finding "fatal"])]) ->
             dict_item SEV_RANK (severity f) = None)
  /\ exit_status (lit "low") [(lit "a.sql", [sample_finding "fatal"])] = 0%Z
  /\ risk_score (flat_map snd [(lit "a.sql", [sample_finding "fatal"])])
     = Z.min 100
         (25 * Z.of_nat (length (flat_map snd [(lit "a.sql", [sample_finding "fatal"])]))).
Proof.
  assert (H : forall f, In f (flat_map snd [(lit "a.sql", [sample_finding "fatal"])]) ->
                        dict_item SEV_RANK (severity f) = None).
  { intros f [<- | []]. reflexivity. }
  split; [exact H |].
  exact (unranked_severity_never_fails (lit "low") _ H).
Defined.

(** ** Collecting the findings of the files *)

Lemma dict_item_set (V : Type) (d : list (str * V)) (key key' : str) (v : V) :
  dict_item (dict_set d key v) key'
  = if str_eqb key key' then Some v else dict_item d key'.
Proof.
  induction d as [| [k v0] d IH]; cbn [dict_set dict_item].
  - reflexivity.
  - destruct (str_eqb k key) eqn:Hk; cbn [dict_item].
    + apply str_eqb_eq in Hk. subst k.
      destruct (str_eqb key key'); reflexivity.
    + destruct (str_eqb k key') eqn:Hk'; [| exact IH].
      destruct (str_eqb key key') eqn:Hkey; [| reflexivity].
      apply str_eqb_eq in Hk', Hkey. subst key' key.
      assert (Hrefl : str_eqb k k = true) by (apply str_eqb_eq; reflexivity).
      congruence.
Qed.

Lemma dict_set_keys (V : Type) (d : list (str * V)) (key : str) (v : V) :
  map fst (dict_set d key v)
  = if existsb (fun k => str_eqb k key) (map fst d)
    then map fst d else map fst d ++ [key].
Proof.
  induction d as [| [k v0] d IH]; [reflexivity |].
  cbn [dict_set map fst existsb].
  destruct (str_eqb k key); cbn [orb map fst]; [reflexivity |].
  rewrite IH. destruct (existsb _ _); reflexivity.
Qed.

Lemma dict_set_nodup (V : Type) (d : list (str * V)) (key : str) (v : V) :
  NoDup (map fst d) -> NoDup (map fst (dict_set d key v)).
Proof.
  intros Hd. rewrite dict_set_keys.
  destruct (existsb _ _) eqn:Hex; [exact Hd |].
  apply NoDup_app; [exact Hd | constructor; [intros [] | constructor] |].
  intros k Hk [Heq | []]. subst k.
  assert (Hex' : existsb (fun k' => str_eqb k' key) (map fst d) = true)
    by (apply existsb_exists; exists key; split;
        [exact Hk | apply str_eqb_eq; reflexivity]).
  congruence.
Qed.

Lemma collect_loop_value (rows : Z) (files : list (str * str))
  (acc : list (str * list Finding)) :
  exists d,
    collect_loop rows files acc = Ok d
    /\ (NoDup (map fst acc) -> NoDup (map fst d))
    /\ forall path,
        dict_item d path
        = match last_text files path with
          | Some text => Some (flat_map (findings_of rows) (_split_statements text))
          | None => dict_item acc path
          end.
Proof.
  revert acc. induction files as [| [sf text] files IH]; intros acc.
  - exists acc. repeat split; auto.
  - cbn [collect_loop]. rewrite analyze_value. cbn [bind].
    destruct (IH (dict_set acc sf
                    (flat_map (findings_of rows) (_split_statements text))))
      as (d & Hd & Hnodup & Hitem).
    exists d. split; [exact Hd |]. split.
    + intros Hacc. apply Hnodup, dict_set_nodup, Hacc.
    + intros path. rewrite Hitem. cbn [last_text].
      destruct (last_text files path); [reflexivity |].
      rewrite dict_item_set. destruct (str_eqb sf path); reflexivity.
Qed.

(** X15: when the loop over the files has run to its end, the findings are
    kept by path: however many times a path is given, it has one entry,
    which holds the analysis of the text read last for it; a path that was
    not given has none. *)
Theorem collect_findings_by_path (rows : Z) (files : list (str * str))
  (all_findings : list (str * list Finding)) :
  collect_findings rows files = Ok all_findings ->
  NoDup (map fst all_findings)
  /\ forall path,
      match last_text files path with
      | Some text =>
          exists fs, analyze text rows = Ok fs
                     /\ dict_item all_findings path = Some fs
      | None => dict_item all_findings path = None
      end.
Proof.
  intros Hall.
  destruct (collect_loop_value rows files []) as (d & Hd & Hnodup & Hitem).
  unfold collect_findings in Hall. rewrite Hd in Hall. injection Hall as <-.
  split; [apply Hnodup; constructor |].
  intros path. specialize (Hitem path).
  destruct (last_text files path) as [text |].
  - eexists. split; [apply analyze_value | exact Hitem].
  - exact Hitem.
Qed.

Lemma collect_findings_by_path_witness :
  collect_findings 0
    [(lit "a.sql", lit "DROP TABLE t;"); (lit "b.sql", lit "SELECT 1;");
     (lit "a.sql", lit "SELECT 2;")]
  = Ok [(lit "a.sql", []); (lit "b.sql", [])]
  /\ NoDup (map fst [(lit "a.sql", @nil Finding); (lit "b.sql", [])])
  /\ forall path,
      match last_text
              [(lit "a.sql", lit "DROP TABLE t;"); (lit "b.sql", lit "SELECT 1;");
               (lit "a.sql", lit "SELECT 2;")] path with
      | Some text =>
          exists fs, analyze text 0 = Ok fs
                     /\ dict_item [(lit "a.sql", []); (lit "b.sql", [])] path
                        = Some fs
      | None => dict_item [(lit "a.sql", @nil Finding); (lit "b.sql", [])] path = None
      end.
Proof.
  assert (Hall : collect_findings 0
                   [(lit "a.sql", lit "DROP TABLE t;"); (lit "b.sql", lit "SELECT 1;");
                    (lit "a.sql", lit "SELECT 2;")]
                 = Ok [(lit "a.sql", []); (lit "b.sql", [])])
    by reflexivity.
  split; [exact Hall |].
  exact (collect_findings_by_path 0 _ _ Hall).
Defined.

Lemma dict_set_Forall (V : Type) (P : str * V -> Prop) (d : list (str * V))
  (key : str) (v : V) :
  Forall P d -> P (key, v) -> Forall P (dict_set d key v).
Proof.
  intros Hd Hv. induction Hd as [| [k v0] d Hk Hd IH]; cbn [dict_set].
  - constructor; [exact Hv | constructor].
  - destruct (str_eqb k key) eqn:Heq.
    + apply str_eqb_eq in Heq. subst k. constructor; assumption.
    + constructor; assumption.
Qed.

Lemma collect_loop_analysed (rows : Z) (files : list (str * str))
  (acc d : list (str * list Finding)) :
  Forall (fun item => exists text, analyze text rows = Ok (snd item)) acc ->
  collect_loop rows files acc = Ok d ->
  Forall (fun item => exists text, analyze text rows = Ok (snd item)) d.
Proof.
  revert acc. induction files as [| [sf text] files IH]; intros acc Hacc Hd.
  - cbn in Hd. injection Hd as <-. exact Hacc.
  - cbn [collect_loop] in Hd. rewrite analyze_value in Hd. cbn [bind] in Hd.
    apply (IH _ (dict_set_Forall _ _ _ _ _ Hacc
                   (ex_intro _ text (analyze_value text rows))) Hd).
Qed.

Lemma rank_of_analysed (script : str) (rows : Z) (fs : list Finding) (f : Finding) :
  analyze script rows = Ok fs -> In f fs ->
  (2 <= dict_get SEV_RANK (severity f) 0)%Z.
Proof.
  intros Hfs Hin. pose proof (analyze_severity _ _ _ _ Hfs Hin) as Hsev.
  destruct Hsev as [<- | [<- | [<- | []]]]; vm_compute; discriminate.
Qed.

(** X16: on the findings of analysed files the thresholds [low] and
    [medium] are the same, no rule of the catalog being of low severity:
    under either, [lint] exits with 0 exactly when no file has a finding. *)
Theorem low_threshold_is_medium (rows : Z) (files : list (str * str))
  (all_findings : list (str * list Finding)) :
  collect_findings rows files = Ok all_findings ->
  exit_status (lit "low") all_findings = exit_status (lit "medium") all_findings
  /\ (exit_status (lit "medium") all_findings = 0%Z
      <-> flat_map snd all_findings = []).
Proof.
  intros Hd.
  pose proof (collect_loop_analysed rows files [] all_findings
                (Forall_nil _) Hd) as Hall.
  assert (Hrank : forall f, In f (flat_map snd all_findings) ->
                            (2 <= dict_get SEV_RANK (severity f) 0)%Z).
  { intros f Hin. apply in_flat_map in Hin as (item & Hitem & Hf).
    rewrite Forall_forall in Hall. destruct (Hall item Hitem) as (text & Htext).
    exact (rank_of_analysed _ _ _ _ Htext Hf). }
  unfold exit_status. cbv zeta.
  change (dict_get SEV_RANK (lit "low") 3) with 1%Z.
  change (dict_get SEV_RANK (lit "medium") 3) with 2%Z.
  destruct (flat_map snd all_findings) as [| f fs] eqn:Hfs.
  - split; [reflexivity | split; reflexivity].
  - assert (Hf : (2 <= dict_get SEV_RANK (severity f) 0)%Z)
      by (apply Hrank; left; reflexivity).
    cbn [existsb].
    destruct (Z.leb_spec 1 (dict_get SEV_RANK (severity f) 0)); [| lia].
    destruct (Z.leb_spec 2 (dict_get SEV_RANK (severity f) 0)); [| lia].
    cbn [orb]. split; [reflexivity | split; discriminate].
Qed.

Lemma low_threshold_is_medium_witness :
  collect_findings 0 [(lit "a.sql", lit "ALTER TABLE t RENAME TO u;")]
  = Ok [(lit "a.sql",
         flat_map (findings_of 0) (_split_statements (lit "ALTER TABLE t RENAME TO u;")))]
  /\ exit_status (lit "low")
       [(lit "a.sql",
         flat_map (findings_of 0) (_split_statements (lit "ALTER TABLE t RENAME TO u;")))]
     = exit_status (lit "medium")
         [(lit "a.sql",
           flat_map (findings_of 0) (_split_statements (lit "ALTER TABLE t RENAME TO u;")))]
  /\ (exit_status (lit "medium")
        [(lit "a.sql",
          flat_map (findings_of 0) (_split_statements (lit "ALTER TABLE t RENAME TO u;")))]
      = 0%Z
      <-> flat_map snd
            [(lit "a.sql",
              flat_map (findings_of 0)
                (_split_statements (lit "ALTER TABLE t RENAME TO u;")))] = []).
Proof.
  assert (Hd : collect_findings 0 [(lit "a.sql", lit "ALTER TABLE t RENAME TO u;")]
               = Ok [(lit "a.sql",
                      flat_map (findings_of 0)
                        (_split_statements (lit "ALTER TABLE t RENAME TO u;")))])
    by reflexivity.
  split; [exact Hd |].
  exact (low_threshold_is_medium 0 _ _ Hd).
Defined.

Lemma dict_set_map (V W : Type) (g : V -> W) (d : list (str * V)) (key : str) (v : V) :
  map (fun item => (fst item, g (snd item))) (dict_set d key v)
  = dict_set (map (fun item => (fst item, g (snd item))) d) key (g v).
Proof.
  induction d as [| [k v0] d IH]; [reflexivity |].
  cbn [dict_set map fst snd]. destruct (str_eqb k key); cbn [map fst snd].
  - reflexivity.
  - rewrite IH. reflexivity.
Qed.

Lemma collect_loop_plain (rows1 rows2 : Z) (files : list (str * str))
  (acc1 acc2 d1 d2 : list (str * list Finding)) :
  plain_items acc1 = plain_items acc2 ->
  collect_loop rows1 files acc1 = Ok d1 ->
  collect_loop rows2 files acc2 = Ok d2 ->
  plain_items d1 = plain_items d2.
Proof.
  revert acc1 acc2. induction files as [| [sf text] files IH];
    intros acc1 acc2 Hacc H1 H2.
  - cbn in H1, H2. injection H1 as <-. injection H2 as <-. exact Hacc.
  - cbn [collect_loop] in H1, H2. rewrite analyze_value in H1, H2.
    cbn [bind] in H1, H2. refine (IH _ _ _ H1 H2).
    unfold plain_items. rewrite !(dict_set_map _ _ (map plain)).
    fold (plain_items acc1). fold (plain_items acc2).
    rewrite Hacc, (plain_flat_map rows1 rows2). reflexivity.
Qed.

Lemma existsb_map (A B : Type) (g : A -> B) (p : B -> bool) (l : list A) :
  existsb p (map g l) = existsb (fun x => p (g x)) l.
Proof.
  induction l as [| x l IH]; [reflexivity |].
  cbn [map existsb]. rewrite IH. reflexivity.
Qed.

Lemma plain_items_findings (d : list (str * list Finding)) :
  flat_map snd (plain_items d) = map plain (flat_map snd d).
Proof.
  induction d as [| item d IH]; [reflexivity |].
  cbn [plain_items map flat_map snd]. rewrite map_app, <- IH. reflexivity.
Qed.

Lemma exit_status_plain (fail_on : str) (d1 d2 : list (str * list Finding)) :
  plain_items d1 = plain_items d2 ->
  exit_status fail_on d1 = exit_status fail_on d2.
Proof.
  intros Hplain. unfold exit_status. cbv zeta.
  assert (Hex : forall d,
             existsb (fun f => (dict_get SEV_RANK fail_on 3
                                <=? dict_get SEV_RANK (severity f) 0)%Z)
               (flat_map snd d)
             = existsb (fun p => (dict_get SEV_RANK fail_on 3
                                  <=? dict_get SEV_RANK
                                        (snd (fst (fst (fst (fst p))))) 0)%Z)
                 (flat_map snd (plain_items d))).
  { intros d. rewrite plain_items_findings, existsb_map. reflexivity. }
  rewrite !Hex, Hplain. reflexivity.
Qed.

(** X17: the row count has no part in the exit status: the findings of
    the same files, analysed with two row counts, give the same status
    under every threshold. *)
Theorem exit_status_ignores_rows (files : list (str * str)) (rows rows' : Z)
  (fail_on : str) (all_findings all_findings' : list (str * list Finding)) :
  collect_findings rows files = Ok all_findings ->
  collect_findings rows' files = Ok all_findings' ->
  exit_status fail_on all_findings = exit_status fail_on all_findings'.
Proof.
  intros Hall Hall'. apply exit_status_plain.
  exact (collect_loop_plain rows rows' files [] [] _ _ eq_refl Hall Hall').
Qed.

Lemma exit_status_ignores_rows_witness :
  collect_findings 0 [(lit "a.sql", lit "ALTER TABLE t DROP COLUMN c;")]
  = Ok [(lit "a.sql",
         flat_map (findings_of 0)
           (_split_statements (lit "ALTER TABLE t DROP COLUMN c;")))]
  /\ collect_findings 5000000 [(lit "a.sql", lit "ALTER TABLE t DROP COLUMN c;")]
     = Ok [(lit "a.sql",
            flat_map (findings_of 5000000)
              (_split_statements (lit "ALTER TABLE t DROP COLUMN c;")))]
  /\ exit_status (lit "high")
       [(lit "a.sql",
         flat_map (findings_of 0)
           (_split_statements (lit "ALTER TABLE t DROP COLUMN c;")))]
     = exit_status (lit "high")
         [(lit "a.sql",
           flat_map (findings_of 5000000)
             (_split_statements (lit "ALTER TABLE t DROP COLUMN c;")))].
Proof.
  assert (Hall : collect_findings 0 [(lit "a.sql", lit "ALTER TABLE t DROP COLUMN c;")]
                 = Ok [(lit "a.sql",
                        flat_map (findings_of 0)
                          (_split_statements (lit "ALTER TABLE t DROP COLUMN c;")))])
    by reflexivity.
  assert (Hall' : collect_findings 5000000
                    [(lit "a.sql", lit "ALTER TABLE t DROP COLUMN c;")]
                  = Ok [(lit "a.sql",
                         flat_map (findings_of 5000000)
                           (_split_statements (lit "ALTER TABLE t DROP COLUMN c;")))])
    by reflexivity.
  split; [exact Hall |]. split; [exact Hall' |].
  exact (exit_status_ignores_rows _ 0%Z 5000000%Z (lit "high") _ _ Hall Hall').
Defined.

(** ** The severity cell of the table *)

Lemma dict_item_colors (sev : str) :
  dict_item SEV_COLORS sev = None <-> ~ In sev severity_names.
Proof.
  unfold SEV_COLORS, severity_names, dict_item.
  destruct (str_eqb (lit "critical") sev) eqn:Hc;
    [apply str_eqb_eq in Hc; split; [discriminate | intros H; exfalso; apply H; left; exact Hc] |].
  destruct (str_eqb (lit "high") sev) eqn:Hh;
    [apply str_eqb_eq in Hh; split;
     [discriminate | intros H; exfalso; apply H; right; left; exact Hh] |].
  destruct (str_eqb (lit "medium") sev) eqn:Hm;
    [apply str_eqb_eq in Hm; split;
     [discriminate | intros H; exfalso; apply H; right; right; left; exact Hm] |].
  destruct (str_eqb (lit "low") sev) eqn:Hl;
    [apply str_eqb_eq in Hl; split;
     [discriminate | intros H; exfalso; apply H; right; right; right; left; exact Hl] |].
  split; [intros _ | reflexivity].
  intros [H | [H | [H | [H | []]]]]; apply str_eqb_eq in H; congruence.
Qed.

(** X18: the colour lookup of the table's severity cell fails with a
    missing key exactly for a severity outside the four names; it never
    fails on a finding the analysis returns. *)
Theorem severity_cell_defined :
  (forall f, severity_cell f = None <-> ~ In (severity f) severity_names)
  /\ (forall script rows fs f,
         analyze script rows = Ok fs -> In f fs -> severity_cell f <> None).
Proof.
  assert (Hcell : forall f, severity_cell f = None <-> ~ In (severity f) severity_names).
  { intros f. unfold severity_cell. rewrite <- dict_item_colors.
    destruct (dict_item SEV_COLORS (severity f)); split; congruence. }
  split; [exact Hcell |].
  intros script rows fs f Hfs Hin Hnone. apply Hcell in Hnone. apply Hnone.
  pose proof (analyze_severity _ _ _ _ Hfs Hin) as Hsev. unfold severity_names.
  destruct Hsev as [<- | [<- | [<- | []]]]; cbn [In]; auto.
Qed.

(** ** The JSON report *)

(** X19: the JSON entry of a finding keeps every field but the snippet:
    two findings with the same entry differ at most in their snippets. *)
Theorem json_finding_keeps_fields (f g : Finding) :
  json_finding f = json_finding g ->
  rule_id f = rule_id g /\ severity f = severity g /\ message f = message g
  /\ line f = line g /\ lock_type f = lock_type g /\ lock_ms f = lock_ms g.
Proof.
  unfold json_finding. intros H.
  injection H as Hid Hsev Hmsg Hline Hlock Hms.
  apply Nat2Z.inj in Hline.
  repeat split; try assumption.
  destruct (lock_ms f), (lock_ms g); congruence.
Qed.

Lemma json_finding_keeps_fields_witness :
  json_finding (sample_finding "high")
  = json_finding (mkFinding (lit "BAN003") (lit "high") (lit "sample") 1
                    (lit "another snippet") (lit "ACCESS EXCLUSIVE") None)
  /\ rule_id (sample_finding "high") = lit "BAN003"
  /\ lock_ms (sample_finding "high") = None.
Proof.
  assert (H : json_finding (sample_finding "high")
              = json_finding (mkFinding (lit "BAN003") (lit "high") (lit "sample") 1
                                (lit "another snippet") (lit "ACCESS EXCLUSIVE") None))
    by reflexivity.
  split; [exact H |].
  destruct (json_finding_keeps_fields _ _ H) as (Hid & _ & _ & _ & _ & Hms).
  split; [exact Hid | exact Hms].
Defined.

(** ** More on the segmenter *)

Lemma count_app (c : ascii) (u v : str) :
  Py.count c (u ++ v) = Py.count c u + Py.count c v.
Proof. unfold Py.count. rewrite filter_app, length_app. reflexivity. Qed.

Lemma count_firstn_le (c : ascii) (n : nat) (s : str) :
  Py.count c (firstn n s) <= Py.count c s.
Proof.
  rewrite <- (firstn_skipn n s) at 2. rewrite count_app. lia.
Qed.

Lemma count_firstn_mono (c : ascii) (n m : nat) (s : str) :
  n <= m -> Py.count c (firstn n s) <= Py.count c (firstn m s).
Proof.
  intros Hle. replace (firstn n s) with (firstn n (firstn m s)).
  - apply count_firstn_le.
  - rewrite firstn_firstn. f_equal. lia.
Qed.

Lemma split_loop_lines (script : str) (parts : list str) (offset : nat) :
  Forall (fun sl => Py.count nl (firstn offset script) + 1 <= snd sl
                    /\ snd sl <= Py.count nl script + 1)
         (split_loop script parts offset)
  /\ StronglySorted le (map snd (split_loop script parts offset)).
Proof.
  revert offset. induction parts as [| part parts IH]; intros offset.
  - split; constructor.
  - destruct (IH (offset + (length part + 1))) as [Hall Hsorted].
    assert (Hlater : Forall (fun sl => Py.count nl (firstn offset script) + 1 <= snd sl
                                       /\ snd sl <= Py.count nl script + 1)
                       (split_loop script parts (offset + (length part + 1)))).
    { eapply Forall_impl; [| exact Hall]. intros sl [Hlo Hhi]. split; [| exact Hhi].
      pose proof (count_firstn_mono nl offset (offset + (length part + 1)) script
                    ltac:(lia)). lia. }
    cbn [split_loop]. destruct (_ && _); cbn [app map snd].
    + split.
      * constructor; [| exact Hlater]. cbn [snd].
        pose proof (count_firstn_le nl offset script). lia.
      * constructor; [exact Hsorted |].
        apply Forall_map. eapply Forall_impl; [| exact Hlater].
        intros sl [Hlo _]. exact Hlo.
    + split; assumption.
Qed.

(** X20: the line of every statement the segmenter yields lies between 1
    and the number of lines of the script, and the lines never decrease
    along the statements. *)
Theorem statement_lines_in_order (script : str) :
  Forall (fun sl => 1 <= snd sl <= Py.count nl script + 1)
         (_split_statements script)
  /\ StronglySorted le (map snd (_split_statements script)).
Proof.
  destruct (split_loop_lines script (Py.split ";" script) 0) as [Hall Hsorted].
  split; [| exact Hsorted].
  eapply Forall_impl; [| exact Hall]. intros sl [Hlo Hhi]. lia.
Qed.

Lemma split_length (sep : ascii) (s : str) :
  length (Py.split sep s) = Py.count sep s + 1.
Proof.
  induction s as [| c s IH]; [reflexivity |].
  cbn [Py.split]. unfold Py.count in *. cbn [filter].
  rewrite (Ascii.eqb_sym sep c).
  destruct (Ascii.eqb c sep).
  - cbn [length]. rewrite IH. reflexivity.
  - pose proof (split_not_nil sep s) as Hne.
    destruct (Py.split sep s); [contradiction |]. exact IH.
Qed.

Lemma split_loop_length (script : str) (parts : list str) (offset : nat) :
  length (split_loop script parts offset) <= length parts.
Proof.
  revert offset. induction parts as [| part parts IH]; intros offset; [constructor |].
  cbn [split_loop]. rewrite length_app. specialize (IH (offset + (length part + 1))).
  destruct (_ && _); cbn [length]; lia.
Qed.

Lemma findings_of_length (rows : Z) (sl : str * nat) :
  length (findings_of rows sl) <= 8.
Proof.
  unfold findings_of. rewrite length_map.
  apply (Nat.le_trans _ _ _ (filter_length_le _ RULES)). reflexivity.
Qed.

(** X21: a script with n semicolons yields at most n + 1 statements, and
    its analysis at most 8 findings for each of them. *)
Theorem analysis_size_bounded (script : str) (rows : Z) :
  length (_split_statements script) <= Py.count ";" script + 1
  /\ exists fs, analyze script rows = Ok fs
                /\ length fs <= 8 * (Py.count ";" script + 1).
Proof.
  assert (Hstmts : length (_split_statements script) <= Py.count ";" script + 1).
  { unfold _split_statements. rewrite <- split_length. apply split_loop_length. }
  split; [exact Hstmts |].
  eexists. split; [apply analyze_value |].
  apply (Nat.le_trans _ (8 * length (_split_statements script))); [| lia].
  clear Hstmts.
  induction (_split_statements script) as [| sl stmts IH]; [constructor |].
  cbn [flat_map]. rewrite length_app. cbn [length].
  pose proof (findings_of_length rows sl). lia.
Qed.

Lemma split_loop_shift (pre script : str) (parts : list str) (offset : nat) :
  split_loop (pre ++ script) parts (length pre + offset)
  = map (fun sl => (fst sl, snd sl + Py.count nl pre))
        (split_loop script parts offset).
Proof.
  revert offset. induction parts as [| part parts IH]; intros offset; [reflexivity |].
  cbn [split_loop]. rewrite map_app.
  replace (length pre + offset + (length part + 1))
    with (length pre + (offset + (length part + 1))) by lia.
  rewrite IH. f_equal.
  destruct (_ && _); [| reflexivity]. cbn [map fst snd].
  rewrite firstn_app, firstn_all2 by lia.
  replace (length pre + offset - length pre) with offset by lia.
  rewrite count_app. do 2 f_equal. lia.
Qed.

Lemma split_statements_semicolon (a b : str) :
  _split_statements (a ++ ";"%char :: b)
  = _split_statements a
    ++ map (fun sl => (fst sl, snd sl + Py.count nl a)) (_split_statements b).
Proof.
  unfold _split_statements.
  rewrite split_app, split_loop_app, span_split. f_equal.
  - apply split_loop_prefix. rewrite span_split. lia.
  - replace (a ++ ";"%char :: b) with ((a ++ [";"%char]) ++ b)
      by (rewrite <- app_assoc; reflexivity).
    replace (0 + (length a + 1)) with (length (a ++ [";"%char]) + 0)
      by (rewrite length_app; cbn; lia).
    rewrite split_loop_shift, count_app. cbn. rewrite Nat.add_0_r. reflexivity.
Qed.

Lemma findings_of_shift (rows : Z) (n : nat) (sl : str * nat) :
  findings_of rows (fst sl, snd sl + n) = map (shift_line n) (findings_of rows sl).
Proof.
  unfold findings_of. cbn [fst snd]. rewrite map_map. apply map_ext.
  intros [[[[[rid pattern] sev] msg] lock] base]. reflexivity.
Qed.

Lemma flat_map_findings_shift (rows : Z) (n : nat) (stmts : list (str * nat)) :
  flat_map (findings_of rows) (map (fun sl => (fst sl, snd sl + n)) stmts)
  = map (shift_line n) (flat_map (findings_of rows) stmts).
Proof.
  induction stmts as [| sl stmts IH]; [reflexivity |].
  cbn [map flat_map]. rewrite map_app, IH, findings_of_shift. reflexivity.
Qed.

Lemma analyze_semicolon (a b : str) (rows : Z) :
  analyze (a ++ ";"%char :: b) rows
  = Ok (flat_map (findings_of rows) (_split_statements a)
        ++ map (shift_line (Py.count nl a))
             (flat_map (findings_of rows) (_split_statements b))).
Proof.
  rewrite analyze_value, split_statements_semicolon, flat_map_app,
    flat_map_findings_shift.
  reflexivity.
Qed.

(** C7: the findings follow the order of the statements in the script, and
    for one statement the order of the catalog.  The findings of a script
    are those of its statements one after the other, a statement giving
    the findings of the rules that match it, every rule of the catalog
    being tried, in the order of the catalog; the findings of the text
    before a semicolon all come before those of the text after it, which
    are the same as when that text is analysed alone but for their lines.
    So a later rule of the catalog comes first when its statement does, and
    one statement can give several findings. *)
Theorem analyze_statement_then_catalog_order :
  (forall (sql : str) (rows : Z),
      analyze sql rows
      = Ok (flat_map
              (fun sl =>
                 map (finding_of (fst sl) (snd sl) rows)
                     (filter (fun r => search (pattern_of r) (fst sl)) RULES))
              (_split_statements sql)))
  /\ (forall (a b : str) (rows : Z),
         exists fa fb,
           analyze a rows = Ok fa /\ analyze b rows = Ok fb
           /\ analyze (a ++ ";"%char :: b) rows
              = Ok (fa ++ map (shift_line (Py.count nl a)) fb))
  /\ (exists f1 f2,
         analyze (lit "CREATE INDEX i ON t(c); DROP TABLE x;") 0 = Ok [f1; f2]
         /\ rule_id f1 = lit "LCK002" /\ sql f1 = lit "CREATE INDEX i ON t(c)"
         /\ rule_id f2 = lit "BAN001" /\ sql f2 = lit "DROP TABLE x")
  /\ (exists f1 f2,
         analyze (lit "ALTER TABLE t DROP COLUMN a, ADD COLUMN b int NOT NULL;") 0
         = Ok [f1; f2]
         /\ rule_id f1 = lit "BAN002" /\ rule_id f2 = lit "LCK001"
         /\ sql f1 = sql f2).
Proof.
  split; [| split; [| split]].
  - intros sql rows. apply analyze_value.
  - intros a b rows. eexists. eexists.
    split; [apply analyze_value |]. split; [apply analyze_value |].
    apply analyze_semicolon.
  - eexists. eexists. split; [vm_compute; reflexivity |].
    repeat split.
  - eexists. eexists. split; [vm_compute; reflexivity |].
    repeat split.
Qed.

(** X22: analysing two texts joined by a semicolon gives the findings of
    the first followed by those of the second, the lines of the latter
    moved down by the number of newlines of the first; the segmenter splits
    the joined text in the same way. *)
Theorem analyze_across_semicolon (a b : str) (rows : Z) :
  _split_statements (a ++ ";"%char :: b)
  = _split_statements a
    ++ map (fun sl => (fst sl, snd sl + Py.count nl a)) (_split_statements b)
  /\ exists fa fb,
      analyze a rows = Ok fa /\ analyze b rows = Ok fb
      /\ analyze (a ++ ";"%char :: b) rows
         = Ok (fa ++ map (shift_line (Py.count nl a)) fb).
Proof.
  split; [apply split_statements_semicolon |].
  eexists. eexists. split; [apply analyze_value |]. split; [apply analyze_value |].
  rewrite analyze_value, split_statements_semicolon, flat_map_app. do 2 f_equal.
  induction (_split_statements b) as [| sl stmts IH]; [reflexivity |].
  cbn [map flat_map]. rewrite map_app, IH, findings_of_shift. reflexivity.
Qed.

Lemma strip_comment (body : str) :
  Py.startswith (lit "--") (Py.strip (lit "--" ++ body)) = true.
Proof.
  unfold Py.strip. cbn [list_ascii_of_string app Py.lstrip].
  change (Char.isspace "-") with false. cbv iota.
  rewrite !rstrip_cons_kept by reflexivity. reflexivity.
Qed.

Lemma lstrip_spaces (blank s : str) :
  forallb Char.isspace blank = true -> Py.lstrip (blank ++ s) = Py.lstrip s.
Proof.
  induction blank as [| c blank IH]; intros Hall; [reflexivity |].
  cbn [forallb] in Hall. apply andb_prop in Hall as [Hc Hblank].
  cbn [app Py.lstrip]. rewrite Hc. apply IH, Hblank.
Qed.

(** X23: a segment that begins, after blanks, with the comment marker is
    dropped whole, with whatever follows the comment's line up to the next
    semicolon: the analysis of such a text finds nothing. *)
Theorem comment_hides_segment (blank body : str) (rows : Z) :
  forallb Char.isspace blank = true ->
  ~ In ";"%char (blank ++ lit "--" ++ body) ->
  _split_statements (blank ++ lit "--" ++ body) = []
  /\ analyze (blank ++ lit "--" ++ body) rows = Ok [].
Proof.
  intros Hblank Hsemi.
  assert (Hnone : _split_statements (blank ++ lit "--" ++ body) = []).
  { unfold _split_statements.
    rewrite (split_without_sep _ _ Hsemi). cbn [split_loop].
    rewrite lstrip_strip. unfold Py.strip at 2.
    rewrite (lstrip_spaces _ _ Hblank).
    fold (Py.strip (lit "--" ++ body)).
    assert (Hkept : Py.lstrip (lit "--" ++ body) = lit "--" ++ body) by reflexivity.
    unfold Py.strip at 2. rewrite Hkept. fold (Py.strip (lit "--" ++ body)).
    replace (Py.rstrip (lit "--" ++ body)) with (Py.strip (lit "--" ++ body))
      by (unfold Py.strip; rewrite Hkept; reflexivity).
    rewrite strip_comment, andb_false_r. reflexivity. }
  split; [exact Hnone |].
  rewrite analyze_value, Hnone. reflexivity.
Qed.

Lemma comment_hides_segment_witness :
  forallb Char.isspace [nl] = true
  /\ ~ In ";"%char ([nl] ++ lit "--" ++ lit " old table" ++ nl :: lit "DROP TABLE users")
  /\ _split_statements
       ([nl] ++ lit "--" ++ lit " old table" ++ nl :: lit "DROP TABLE users") = []
  /\ analyze ([nl] ++ lit "--" ++ lit " old table" ++ nl :: lit "DROP TABLE users") 0
     = Ok [].
Proof.
  assert (H1 : forallb Char.isspace [nl] = true) by reflexivity.
  assert (H2 : ~ In ";"%char
                 ([nl] ++ lit "--" ++ lit " old table" ++ nl :: lit "DROP TABLE users"))
    by (cbn; intuition discriminate).
  split; [exact H1 |]. split; [exact H2 |].
  exact (comment_hides_segment [nl] (lit " old table" ++ nl :: lit "DROP TABLE users")
           0%Z H1 H2).
Defined.

(** ** The normal form of statements *)

Lemma words_head (c : ascii) (s : str) :
  Char.isspace c = false -> exists w ws, Py.words (c :: s) = (c :: w) :: ws.
Proof.
  intros Hc. cbn [Py.words]. rewrite Hc. destruct s as [| d s].
  - exists [], []. reflexivity.
  - destruct (Char.isspace d).
    + exists [], (Py.words (d :: s)). reflexivity.
    + destruct (Py.words (d :: s)) as [| w ws].
      * exists [], []. reflexivity.
      * exists w, ws. reflexivity.
Qed.

Lemma words_tokens (s : str) : Forall (fun w => token w = true) (Py.words s).
Proof.
  induction s as [| c s IH]; [constructor |].
  cbn [Py.words]. destruct (Char.isspace c) eqn:Hc; [exact IH |].
  assert (Hone : token [c] = true) by (unfold token; cbn; rewrite Hc; reflexivity).
  destruct s as [| d s]; [constructor; [exact Hone | constructor] |].
  destruct (Char.isspace d); [constructor; assumption |].
  destruct (Py.words (d :: s)) as [| w ws]; [constructor; [exact Hone | constructor] |].
  inversion IH as [| w' ws' Hw Hws]; subst. constructor; [| exact Hws].
  unfold token in *. cbn [Py.truthy forallb andb]. rewrite Hc. cbn [negb andb].
  apply andb_prop in Hw as [_ Hw]. exact Hw.
Qed.

Lemma words_spaces (t : str) :
  forallb Char.isspace t = true -> Py.words t = [].
Proof.
  induction t as [| c t IH]; intros Hall; [reflexivity |].
  cbn [forallb] in Hall. apply andb_prop in Hall as [Hc Ht].
  cbn [Py.words]. rewrite Hc. apply IH, Ht.
Qed.

Lemma words_app_spaces (u t : str) :
  forallb Char.isspace t = true -> Py.words (u ++ t) = Py.words u.
Proof.
  intros Ht. induction u as [| c u IH]; [apply words_spaces, Ht |].
  cbn [app Py.words]. destruct (Char.isspace c); [exact IH |].
  destruct u as [| d u].
  - cbn [app]. destruct t as [| e t]; [reflexivity |].
    cbn [forallb] in Ht. apply andb_prop in Ht as [He Ht'].
    rewrite He. f_equal. cbn [Py.words]. rewrite He. apply words_spaces, Ht'.
  - cbn [app] in *. destruct (Char.isspace d); rewrite IH; reflexivity.
Qed.

Lemma lstrip_decomp (s : str) :
  exists t, s = t ++ Py.lstrip s /\ forallb Char.isspace t = true.
Proof.
  induction s as [| c s (t & Hs & Ht)]; [exists []; split; reflexivity |].
  cbn [Py.lstrip]. destruct (Char.isspace c) eqn:Hc.
  - exists (c :: t). cbn [app forallb]. rewrite Hc, Ht, <- Hs. split; reflexivity.
  - exists []. split; reflexivity.
Qed.

Lemma rstrip_decomp (s : str) :
  exists t, s = Py.rstrip s ++ t /\ forallb Char.isspace t = true.
Proof.
  destruct (lstrip_decomp (rev s)) as (t & Hs & Ht).
  exists (rev t). unfold Py.rstrip. split.
  - rewrite <- rev_app_distr, <- Hs, rev_involutive. reflexivity.
  - rewrite forallb_forall in *. intros c Hc. apply Ht, in_rev, Hc.
Qed.

Lemma words_lstrip (s : str) : Py.words (Py.lstrip s) = Py.words s.
Proof.
  induction s as [| c s IH]; [reflexivity |].
  cbn [Py.lstrip]. destruct (Char.isspace c) eqn:Hc; [| reflexivity].
  cbn [Py.words]. rewrite Hc. exact IH.
Qed.

Lemma words_strip (s : str) : Py.words (Py.strip s) = Py.words s.
Proof.
  unfold Py.strip. destruct (rstrip_decomp (Py.lstrip s)) as (t & Hs & Ht).
  rewrite <- (words_lstrip s). rewrite Hs at 2.
  rewrite (words_app_spaces _ _ Ht). reflexivity.
Qed.

Lemma words_token_then (w rest : str) (c : ascii) :
  token w = true -> Char.isspace c = true ->
  Py.words (w ++ c :: rest) = w :: Py.words rest.
Proof.
  intros Hw Hc. unfold token in Hw. apply andb_prop in Hw as [Hne Hall].
  induction w as [| a w IH]; [discriminate Hne |].
  cbn [forallb] in Hall. apply andb_prop in Hall as [Ha Hall].
  apply negb_true_iff in Ha. cbn [app Py.words]. rewrite Ha.
  destruct w as [| b w].
  - cbn [app]. rewrite Hc. f_equal. cbn [Py.words]. rewrite Hc. reflexivity.
  - cbn [app] in *. pose proof Hall as Hall'.
    cbn [forallb] in Hall'. apply andb_prop in Hall' as [Hb _].
    apply negb_true_iff in Hb. rewrite Hb.
    rewrite (IH eq_refl Hall). reflexivity.
Qed.

Lemma words_token (w : str) : token w = true -> Py.words w = [w].
Proof.
  intros Hw. pose proof (words_token_then w [] " "%char Hw eq_refl) as H.
  rewrite <- (words_app_spaces w [" "%char] eq_refl). exact H.
Qed.

Lemma words_join (ws : list str) :
  Forall (fun w => token w = true) ws ->
  Py.words (Py.join (lit " ") ws) = ws.
Proof.
  induction 1 as [| w ws Hw Hws IH]; [reflexivity |].
  cbn [Py.join]. destruct ws as [| w1 ws1]; [apply words_token, Hw |].
  change (w ++ lit " " ++ Py.join (lit " ") (w1 :: ws1))
    with (w ++ " "%char :: Py.join (lit " ") (w1 :: ws1)).
  rewrite (words_token_then w _ " "%char Hw eq_refl), IH. reflexivity.
Qed.

Lemma spaced_token_app (w rest : str) :
  forallb (fun c => negb (Char.isspace c)) w = true ->
  spaced (w ++ rest) = spaced rest.
Proof.
  induction w as [| a w IH]; intros Hall; [reflexivity |].
  cbn [forallb] in Hall. apply andb_prop in Hall as [Ha Hall].
  apply negb_true_iff in Ha. cbn [app spaced]. rewrite Ha. apply IH, Hall.
Qed.

Lemma join_normal (ws : list str) :
  Forall (fun w => token w = true) ws -> ws <> [] ->
  normal_form (Py.join (lit " ") ws) = true.
Proof.
  induction 1 as [| w ws Hw Hws IH]; intros Hne; [contradiction |].
  pose proof Hw as Hw'. unfold token in Hw'. apply andb_prop in Hw' as [Hnil Hall].
  destruct w as [| a w]; [discriminate Hnil |].
  pose proof Hall as Hall'. cbn [forallb] in Hall'.
  apply andb_prop in Hall' as [Ha _].
  unfold normal_form. cbn [Py.join]. destruct ws as [| w1 ws1].
  - cbn [app]. rewrite Ha. cbn [andb].
    rewrite <- (app_nil_r (a :: w)). apply spaced_token_app, Hall.
  - cbn [app]. rewrite Ha. cbn [andb].
    change (a :: w ++ lit " " ++ Py.join (lit " ") (w1 :: ws1))
      with ((a :: w) ++ " "%char :: Py.join (lit " ") (w1 :: ws1)).
    rewrite (spaced_token_app _ _ Hall).
    specialize (IH ltac:(discriminate)). unfold normal_form in IH.
    apply andb_prop in IH as [Hhead Hspaced].
    cbn [spaced]. change (Char.isspace " ") with true. cbv iota.
    rewrite Hspaced.
    destruct (Py.join (lit " ") (w1 :: ws1)); [discriminate Hhead |].
    rewrite Hhead. reflexivity.
Qed.

Lemma strip_head (s : str) :
  Py.strip s = []
  \/ exists c s', Py.strip s = c :: s' /\ Char.isspace c = false.
Proof.
  unfold Py.strip.
  destruct (lstrip_head s) as [-> | (c & s' & -> & Hc)]; [left; reflexivity |].
  right. exists c, (Py.rstrip s'). split; [apply rstrip_cons_kept, Hc | exact Hc].
Qed.

Lemma words_cons (c : ascii) (s : str) :
  Py.words (c :: s)
  = if Char.isspace c then Py.words s
    else match s with
         | [] => [[c]]
         | c' :: _ =>
             if Char.isspace c' then [c] :: Py.words s
             else match Py.words s with
                  | w :: ws => (c :: w) :: ws
                  | [] => [[c]]
                  end
         end.
Proof. reflexivity. Qed.

Lemma normalize_comment (part : str) :
  Py.strip part <> [] ->
  Py.startswith (lit "--") (normalize part)
  = Py.startswith (lit "--") (Py.strip part).
Proof.
  intros Hne. unfold normalize.
  destruct (strip_head part) as [Hnil | (c & s & Hs & Hc)]; [contradiction |].
  rewrite Hs, words_cons, Hc. destruct s as [| d s]; [reflexivity |].
  destruct (Char.isspace d) eqn:Hd.
  - assert (Hdash : Ascii.eqb "-" d = false)
      by (destruct (Ascii.eqb_spec "-"%char d) as [<- |];
          [discriminate Hd | reflexivity]).
    cbn [list_ascii_of_string Py.startswith]. rewrite Hdash.
    cbn [andb]. rewrite andb_false_r.
    destruct (Py.words (d :: s)); cbn [Py.join app Py.startswith];
      rewrite ?andb_false_r; reflexivity.
  - destruct (words_head d s Hd) as (w & ws & Hw). rewrite Hw.
    cbn [Py.join]. destruct ws; reflexivity.
Qed.

Lemma statement_shape (script stmt : str) (ln : nat) :
  In (stmt, ln) (_split_statements script) ->
  exists part,
    stmt = normalize part /\ Py.strip part <> []
    /\ Py.startswith (lit "--") (Py.strip part) = false.
Proof.
  unfold _split_statements. generalize 0.
  induction (Py.split ";" script) as [| part parts IH]; intros offset Hin;
    [contradiction |].
  cbn [split_loop] in Hin. apply in_app_or in Hin as [Hin | Hin].
  - destruct (Py.truthy (Py.strip part)) eqn:Htruthy; [| contradiction].
    rewrite lstrip_strip in Hin.
    destruct (Py.startswith (lit "--") (Py.strip part)) eqn:Hcomment;
      [contradiction |].
    destruct Hin as [Heq | []]. injection Heq as <- _.
    exists part. split; [reflexivity |]. split; [| exact Hcomment].
    intros Hnil. rewrite Hnil in Htruthy. discriminate Htruthy.
  - exact (IH _ Hin).
Qed.

(** X24: every statement the segmenter yields is in normal form: it is not
    empty, begins and ends with a character that is not whitespace, holds no
    semicolon and no whitespace but single spaces, does not begin with the
    comment marker, and normalizing it again leaves it unchanged. *)
Theorem statement_normal_form (script stmt : str) (ln : nat) :
  In (stmt, ln) (_split_statements script) ->
  normal_form stmt = true
  /\ ~ In ";"%char stmt
  /\ Py.startswith (lit "--") stmt = false
  /\ normalize stmt = stmt.
Proof.
  intros Hin. pose proof (statement_no_semicolon _ _ _ Hin) as Hsemi.
  destruct (statement_shape _ _ _ Hin) as (part & -> & Hne & Hcomment).
  assert (Hwords : Py.words (Py.strip part) <> []).
  { destruct (strip_head part) as [Hnil | (c & s & Hs & Hc)]; [contradiction |].
    rewrite Hs. destruct (words_head c s Hc) as (w & ws & Hw).
    rewrite Hw. discriminate. }
  split; [| split; [exact Hsemi | split]].
  - apply join_normal; [apply words_tokens | exact Hwords].
  - rewrite (normalize_comment _ Hne). exact Hcomment.
  - unfold normalize at 1. rewrite words_strip. unfold normalize.
    rewrite words_join by apply words_tokens. reflexivity.
Qed.

Lemma statement_normal_form_witness :
  In (lit "DROP TABLE users", 2)
     (_split_statements (lit "SELECT 1" ++ nl :: lit ";  DROP   TABLE users ;"))
  /\ normal_form (lit "DROP TABLE users") = true
  /\ ~ In ";"%char (lit "DROP TABLE users")
  /\ Py.startswith (lit "--") (lit "DROP TABLE users") = false
  /\ normalize (lit "DROP TABLE users") = lit "DROP TABLE users".
Proof.
  assert (H : In (lit "DROP TABLE users", 2)
                 (_split_statements
                    (lit "SELECT 1" ++ nl :: lit ";  DROP   TABLE users ;"))).
  { right. left. reflexivity. }
  split; [exact H |].
  exact (statement_normal_form _ _ _ H).
Defined.

(** ** What every rule needs *)

Lemma search_from_inv (r : regex) (p : option ascii) (s : str) :
  search_from r p s = true ->
  exists pre s', s = pre ++ s' /\ ends r (step_over p pre) s' <> [].
Proof.
  revert p. induction s as [| c s IH]; intros p H; cbn [search_from] in H.
  - exists [], []. split; [reflexivity |].
    cbn [step_over fold_left]. destruct (ends r p []); [discriminate H | discriminate].
  - destruct (ends r p (c :: s)) eqn:He.
    + destruct (IH _ H) as (pre & s' & -> & Hne).
      exists (c :: pre), s'. split; [reflexivity | exact Hne].
    + exists [], (c :: s). split; [reflexivity |].
      cbn [step_over fold_left]. rewrite He. discriminate.
Qed.

Lemma contains_ci_app (w pre s : str) :
  read_ci w s <> None -> contains_ci w (pre ++ s) = true.
Proof.
  intros Hread. induction pre as [| c pre IH]; cbn [app].
  - destruct s; cbn [contains_ci]; destruct (read_ci w _);
      first [reflexivity | contradiction].
  - cbn [contains_ci]. destruct (read_ci w (c :: pre ++ s)); [reflexivity | exact IH].
Qed.

Lemma contains_ci_inv (w s : str) :
  contains_ci w s = true ->
  exists a u b, s = a ++ u ++ b /\ map Char.lower u = map Char.lower w.
Proof.
  induction s as [| c s IH]; cbn [contains_ci]; intros H.
  - destruct (read_ci w []) as [s' |] eqn:Hr; [| discriminate H].
    destruct (read_ci_inv _ _ _ Hr) as (u & Hs & Hu & _).
    exists [], u, s'. split; assumption.
  - destruct (read_ci w (c :: s)) as [s' |] eqn:Hr.
    + destruct (read_ci_inv _ _ _ Hr) as (u & Hs & Hu & _).
      exists [], u, s'. split; assumption.
    + destruct (IH H) as (a & u & b & -> & Hu).
      exists (c :: a), u, b. split; [reflexivity | exact Hu].
Qed.

Lemma contains_ci_intro (w a u b : str) :
  map Char.lower u = map Char.lower w -> contains_ci w (a ++ u ++ b) = true.
Proof.
  intros Hu. apply contains_ci_app. rewrite (read_ci_app _ _ _ Hu). discriminate.
Qed.

Lemma search_needs_keyword (w : string) (rs : list regex) (s : str) :
  search (seq (wb :: kw w :: rs)) s = true -> contains_ci (lit w) s = true.
Proof.
  intros H. apply search_from_inv in H as (pre & s' & -> & Hne).
  apply contains_ci_app.
  destruct (ends _ _ s') as [| q l] eqn:He; [contradiction |].
  assert (Hq : In q (ends (seq (wb :: kw w :: rs)) (step_over None pre) s'))
    by (rewrite He; left; reflexivity).
  apply seq_cons_inv in Hq as (q1 & H1 & Hq).
  cbn [wb ends] in H1. destruct (xorb _ _); [| contradiction].
  destruct H1 as [<- | []]. cbn [fst snd] in Hq.
  apply seq_cons_inv in Hq as (q2 & H2 & _).
  unfold kw in H2. rewrite ends_chars in H2.
  destruct (read_ci (lit w) s'); [discriminate | contradiction].
Qed.

(** Words are pieces of the text they are split from. *)

Lemma words_first_prefix (c : ascii) (s w : str) (ws : list str) :
  Char.isspace c = false -> Py.words (c :: s) = w :: ws ->
  exists s2, c :: s = w ++ s2.
Proof.
  revert c w ws. induction s as [| d s IH]; intros c w ws Hc Hw;
    rewrite words_cons, Hc in Hw.
  - injection Hw as <- _. exists []. reflexivity.
  - destruct (Char.isspace d) eqn:Hd.
    + injection Hw as <- _. exists (d :: s). reflexivity.
    + destruct (Py.words (d :: s)) as [| w0 ws0] eqn:Hw0.
      * injection Hw as <- _. exists (d :: s). reflexivity.
      * injection Hw as <- _.
        destruct (IH d w0 ws0 Hd Hw0) as (s2 & Hs2).
        exists s2. cbn [app]. rewrite Hs2. reflexivity.
Qed.

Lemma words_piece (s w : str) :
  In w (Py.words s) -> exists s1 s2, s = s1 ++ w ++ s2.
Proof.
  induction s as [| c s IH]; intros Hin; [contradiction |].
  rewrite words_cons in Hin. destruct (Char.isspace c) eqn:Hc.
  - destruct (IH Hin) as (s1 & s2 & ->). exists (c :: s1), s2. reflexivity.
  - destruct s as [| d s].
    + destruct Hin as [<- | []]. exists [], []. reflexivity.
    + destruct (Char.isspace d) eqn:Hd.
      * destruct Hin as [<- | Hin]; [exists [], (d :: s); reflexivity |].
        destruct (IH Hin) as (s1 & s2 & ->). exists (c :: s1), s2. reflexivity.
      * destruct (Py.words (d :: s)) as [| w0 ws0] eqn:Hw0.
        -- destruct Hin as [<- | []]. exists [], (d :: s). reflexivity.
        -- destruct Hin as [<- | Hin].
           ++ destruct (words_first_prefix d s w0 ws0 Hd Hw0) as (s2 & Hs2).
              exists [], s2. cbn [app]. rewrite Hs2. reflexivity.
           ++ destruct (IH (or_intror Hin)) as (s1 & s2 & ->).
              exists (c :: s1), s2. reflexivity.
Qed.

Lemma join_piece (ws : list str) (a u b : str) :
  Py.join (lit " ") ws = a ++ u ++ b ->
  u <> [] -> forallb (fun c => negb (Char.isspace c)) u = true ->
  exists w x y, In w ws /\ w = x ++ u ++ y.
Proof.
  intros Hjoin Hne Hu. revert a Hjoin.
  induction ws as [| w ws IH]; intros a Hjoin.
  - cbn in Hjoin. destruct a; [destruct u; [contradiction | discriminate] | discriminate].
  - cbn [Py.join] in Hjoin. destruct ws as [| w1 ws1].
    + exists w, a, b. split; [left; reflexivity | exact Hjoin].
    + change (w ++ lit " " ++ Py.join (lit " ") (w1 :: ws1))
        with (w ++ " "%char :: Py.join (lit " ") (w1 :: ws1)) in Hjoin.
      symmetry in Hjoin. apply app_eq_app in Hjoin as (l & [[Ha Hrest] | [Hw Hub]]).
      * destruct l as [| c l]; cbn [app] in Hrest.
        -- destruct u as [| c u]; [contradiction |].
           cbn [app] in Hrest. injection Hrest as <- _.
           cbn [forallb] in Hu. discriminate Hu.
        -- injection Hrest as _ Hrest.
           destruct (IH l Hrest) as (w' & x & y & Hin & Hw').
           exists w', x, y. split; [right; exact Hin | exact Hw'].
      * apply app_eq_app in Hub as (m & [[Hu' Hrest] | [Hl Hb]]).
        -- destruct m as [| c m]; cbn [app] in Hrest.
           ++ exists w, a, []. split; [left; reflexivity |].
              rewrite Hw, Hu', !app_nil_r. reflexivity.
           ++ injection Hrest as <- _. rewrite Hu', forallb_app in Hu.
              cbn [forallb] in Hu. rewrite andb_false_r in Hu. discriminate Hu.
        -- exists w, a, m. split; [left; reflexivity |].
           rewrite Hw, Hl. reflexivity.
Qed.

Lemma split_first_prefix (sep : ascii) (s p0 : str) (ps : list str) :
  Py.split sep s = p0 :: ps -> exists s2, s = p0 ++ s2.
Proof.
  revert p0 ps. induction s as [| c s IH]; intros p0 ps Hs; cbn [Py.split] in Hs.
  - injection Hs as <- _. exists []. reflexivity.
  - destruct (Ascii.eqb c sep).
    + injection Hs as <- _. exists (c :: s). reflexivity.
    + destruct (Py.split sep s) as [| q qs] eqn:Hq.
      * injection Hs as <- _. exists s. reflexivity.
      * injection Hs as <- _. destruct (IH q qs eq_refl) as (s2 & ->).
        exists s2. reflexivity.
Qed.

Lemma split_piece (sep : ascii) (s part : str) :
  In part (Py.split sep s) -> exists s1 s2, s = s1 ++ part ++ s2.
Proof.
  revert part. induction s as [| c s IH]; intros part Hin.
  - destruct Hin as [<- | []]. exists [], []. reflexivity.
  - cbn [Py.split] in Hin. destruct (Ascii.eqb c sep).
    + destruct Hin as [<- | Hin]; [exists [], (c :: s); reflexivity |].
      destruct (IH _ Hin) as (s1 & s2 & ->). exists (c :: s1), s2. reflexivity.
    + destruct (Py.split sep s) as [| p0 ps] eqn:Hsplit.
      * destruct Hin as [<- | []]. exists [], s. reflexivity.
      * destruct Hin as [<- | Hin].
        -- destruct (split_first_prefix sep s p0 ps Hsplit) as (s2 & ->).
           exists [], s2. reflexivity.
        -- destruct (IH part (or_intror Hin)) as (s1 & s2 & ->).
           exists (c :: s1), s2. reflexivity.
Qed.

Lemma strip_piece (s : str) : exists t1 t2, s = t1 ++ Py.strip s ++ t2.
Proof.
  unfold Py.strip.
  destruct (lstrip_decomp s) as (t1 & Hs & _).
  destruct (rstrip_decomp (Py.lstrip s)) as (t2 & Hl & _).
  exists t1, t2. rewrite <- Hl. exact Hs.
Qed.

Lemma same_ci_nonspace (u w : str) :
  map Char.lower u = map Char.lower w ->
  forallb (fun c => negb (Char.isspace c)) w = true ->
  forallb (fun c => negb (Char.isspace c)) u = true.
Proof.
  revert w. induction u as [| c u IH]; intros [| a w] H Hw; try discriminate H;
    [reflexivity |].
  cbn [map] in H. injection H as Hc Hu.
  cbn [forallb] in *. apply andb_prop in Hw as [Ha Hw].
  rewrite (isspace_same _ _ Hc), Ha. exact (IH w Hu Hw).
Qed.

Lemma normalize_contains (w part : str) :
  token w = true ->
  contains_ci w (normalize part) = true -> contains_ci w part = true.
Proof.
  intros Hw Hin. unfold token in Hw. apply andb_prop in Hw as [Hne Hall].
  apply contains_ci_inv in Hin as (a & u & b & Hnorm & Hu).
  assert (Hu_ne : u <> []).
  { intros ->. destruct w; [discriminate Hne | discriminate Hu]. }
  destruct (join_piece _ a u b Hnorm Hu_ne (same_ci_nonspace _ _ Hu Hall))
    as (word & x & y & Hword & ->).
  destruct (words_piece _ _ Hword) as (s1 & s2 & Hstrip).
  destruct (strip_piece part) as (t1 & t2 & Hpart).
  rewrite Hpart, Hstrip.
  replace (t1 ++ (s1 ++ (x ++ u ++ y) ++ s2) ++ t2)
    with ((t1 ++ s1 ++ x) ++ u ++ (y ++ s2 ++ t2))
    by (rewrite <- !app_assoc; reflexivity).
  apply contains_ci_intro, Hu.
Qed.

Lemma statement_contains (w script stmt : str) (ln : nat) :
  token w = true ->
  In (stmt, ln) (_split_statements script) ->
  contains_ci w stmt = true -> contains_ci w script = true.
Proof.
  intros Hw Hin Hc.
  destruct (split_loop_In _ _ _ _ _ Hin) as (part & Hpart & ->).
  apply (normalize_contains _ _ Hw) in Hc.
  apply contains_ci_inv in Hc as (a & u & b & Hp & Hu).
  destruct (split_piece _ _ _ Hpart) as (s1 & s2 & ->). rewrite Hp.
  replace (s1 ++ (a ++ u ++ b) ++ s2) with ((s1 ++ a) ++ u ++ (b ++ s2))
    by (rewrite <- !app_assoc; reflexivity).
  apply contains_ci_intro, Hu.
Qed.

Lemma rule_keyword (r : rule) (stmt : str) :
  In r RULES -> search (pattern_of r) stmt = true ->
  contains_ci (lit "DROP") stmt = true \/ contains_ci (lit "ALTER") stmt = true
  \/ contains_ci (lit "ADD") stmt = true \/ contains_ci (lit "CREATE") stmt = true.
Proof.
  unfold RULES. intros Hr Hs.
  repeat (destruct Hr as [<- | Hr];
          [ cbn [pattern_of] in Hs; apply search_needs_keyword in Hs;
            rewrite Hs; tauto |]).
  contradiction.
Qed.

Lemma filter_nil (A : Type) (p : A -> bool) (l : list A) :
  (forall x, In x l -> p x = false) -> filter p l = [].
Proof.
  induction l as [| x l IH]; intros H; [reflexivity |].
  cbn [filter]. rewrite (H x (or_introl eq_refl)).
  apply IH. intros y Hy. apply H. right. exact Hy.
Qed.

(** X25: every rule of the catalog begins with one of the words DROP,
    ALTER, ADD and CREATE: a script in which none of the four occurs, in any
    case and even inside longer words, has no finding. *)
Theorem no_keyword_no_finding (script : str) (rows : Z) :
  contains_ci (lit "DROP") script = false ->
  contains_ci (lit "ALTER") script = false ->
  contains_ci (lit "ADD") script = false ->
  contains_ci (lit "CREATE") script = false ->
  analyze script rows = Ok [].
Proof.
  intros Hdrop Halter Hadd Hcreate. rewrite analyze_value. f_equal.
  apply flat_map_nil. intros [stmt ln] Hin. unfold findings_of. cbn [fst snd].
  rewrite filter_nil; [reflexivity |].
  intros r Hr. destruct (search (pattern_of r) stmt) eqn:Hs; [| reflexivity].
  exfalso.
  destruct (rule_keyword r stmt Hr Hs) as [H | [H | [H | H]]];
    [ apply (statement_contains (lit "DROP") script _ ln eq_refl Hin) in H
    | apply (statement_contains (lit "ALTER") script _ ln eq_refl Hin) in H
    | apply (statement_contains (lit "ADD") script _ ln eq_refl Hin) in H
    | apply (statement_contains (lit "CREATE") script _ ln eq_refl Hin) in H ];
    congruence.
Qed.

Lemma no_keyword_no_finding_witness :
  contains_ci (lit "DROP") (lit "INSERT INTO t VALUES (1); SELECT 'x';") = false
  /\ contains_ci (lit "ALTER") (lit "INSERT INTO t VALUES (1); SELECT 'x';") = false
  /\ contains_ci (lit "ADD") (lit "INSERT INTO t VALUES (1); SELECT 'x';") = false
  /\ contains_ci (lit "CREATE") (lit "INSERT INTO t VALUES (1); SELECT 'x';") = false
  /\ analyze (lit "INSERT INTO t VALUES (1); SELECT 'x';") 0 = Ok [].
Proof.
  assert (H1 : contains_ci (lit "DROP")
                 (lit "INSERT INTO t VALUES (1); SELECT 'x';") = false) by reflexivity.
  assert (H2 : contains_ci (lit "ALTER")
                 (lit "INSERT INTO t VALUES (1); SELECT 'x';") = false) by reflexivity.
  assert (H3 : contains_ci (lit "ADD")
                 (lit "INSERT INTO t VALUES (1); SELECT 'x';") = false) by reflexivity.
  assert (H4 : contains_ci (lit "CREATE")
                 (lit "INSERT INTO t VALUES (1); SELECT 'x';") = false) by reflexivity.
  repeat (split; [assumption |]).
  exact (no_keyword_no_finding _ 0%Z H1 H2 H3 H4).
Defined.

(** ** Reading a match back *)

Lemma spaced_tail (a s : str) : spaced (a ++ s) = true -> spaced s = true.
Proof.
  induction a as [| c a IH]; intros H; [exact H |].
  cbn [app spaced] in H. apply andb_prop in H as [_ H]. exact (IH H).
Qed.

Lemma spaced_run (a v rest : str) :
  spaced (a ++ v ++ rest) = true ->
  forallb Char.isspace v = true -> v <> [] -> v = [" "%char].
Proof.
  intros Hs Hv Hne. apply spaced_tail in Hs.
  destruct v as [| c v]; [contradiction |].
  cbn [forallb] in Hv. apply andb_prop in Hv as [Hc Hv].
  cbn [app spaced] in Hs. rewrite Hc in Hs.
  apply andb_prop in Hs as [Hs _]. apply andb_prop in Hs as [Heq Hnext].
  apply Ascii.eqb_eq in Heq. subst c.
  destruct v as [| d v]; [reflexivity |].
  cbn [forallb] in Hv. apply andb_prop in Hv as [Hd _].
  cbn [app] in Hnext. rewrite Hd in Hnext. discriminate Hnext.
Qed.

Lemma statement_spaced (script stmt : str) (ln : nat) :
  In (stmt, ln) (_split_statements script) -> spaced stmt = true.
Proof.
  intros Hin. destruct (statement_shape _ _ _ Hin) as (part & -> & Hne & _).
  assert (Hwords : Py.words (Py.strip part) <> []).
  { destruct (strip_head part) as [Hnil | (c & s & Hs & Hc)]; [contradiction |].
    rewrite Hs. destruct (words_head c s Hc) as (w & ws & Hw).
    rewrite Hw. discriminate. }
  pose proof (join_normal _ (words_tokens (Py.strip part)) Hwords) as Hn.
  unfold normal_form in Hn. apply andb_prop in Hn as [_ Hn]. exact Hn.
Qed.

Lemma boundary_inv (p : option ascii) (s : str) (q : position) :
  In q (ends wb p s) ->
  q = (p, s) /\ xorb (word_before p) (word_after s) = true.
Proof.
  cbn [wb ends]. destruct (xorb _ _); [| contradiction].
  intros [<- | []]. split; reflexivity.
Qed.

Lemma kw_inv (w : string) (p : option ascii) (s : str) (q : position) :
  In q (ends (kw w) p s) ->
  exists u, s = u ++ snd q /\ map Char.lower u = map Char.lower (lit w)
            /\ fst q = step_over p u.
Proof.
  unfold kw. rewrite ends_chars.
  destruct (read_ci (lit w) s) as [s' |] eqn:Hr; [| contradiction].
  intros [<- | []]. destruct (read_ci_inv _ _ _ Hr) as (u & Hs & Hu & Hfirst).
  exists u. cbn [fst snd]. rewrite <- Hfirst. repeat split; assumption.
Qed.

Lemma repeat1_inv (k : category) (p : option ascii) (s : str) (q : position) :
  In q (ends (Repeat1 k) p s) ->
  exists v, s = v ++ snd q /\ v <> [] /\ forallb (in_category k) v = true
            /\ fst q = step_over p v.
Proof.
  destruct s as [| c s]; [contradiction |]. cbn [ends].
  destruct (in_category k c) eqn:Hc; [| contradiction].
  intros Hin. destruct (run_inv _ _ _ _ Hin) as (u & Hs & Hp & Hall).
  exists (c :: u). cbn [app forallb]. rewrite Hc, Hall, <- Hs.
  repeat split; [discriminate | exact Hp].
Qed.

Lemma first_of (q : position) (l : list position) :
  l <> [] -> exists q, In q l.
Proof. destruct l as [| q0 l]; [contradiction |]. exists q0. left. reflexivity. Qed.

Lemma finding_rule_matches (rows : Z) (stmt : str) (ln : nat) (f : Finding) :
  In f (findings_of rows (stmt, ln)) ->
  exists r, In r RULES /\ search (pattern_of r) stmt = true
            /\ f = finding_of stmt ln rows r.
Proof.
  unfold findings_of. cbn [fst snd]. intros Hin.
  apply in_map_iff in Hin as (r & <- & Hr). apply filter_In in Hr as [Hr Hs].
  exists r. repeat split; assumption.
Qed.

(** ** The rule on DROP TABLE, both ways *)

Lemma ban001_needs_words (stmt : str) :
  spaced stmt = true -> search ban001 stmt = true ->
  has_word "DROP TABLE" stmt = true.
Proof.
  intros Hspaced Hsearch.
  apply search_from_inv in Hsearch as (pre & s' & -> & Hne).
  destruct (first_of (None, []) _ Hne) as (q & Hq).
  apply seq_cons_inv in Hq as (q1 & H1 & Hq).
  apply boundary_inv in H1 as [-> Hb1]. cbn [fst snd] in Hq.
  apply seq_cons_inv in Hq as ([p2 s2] & H2 & Hq).
  apply kw_inv in H2 as (u1 & -> & Hu1 & Hp2). cbn [fst snd] in *.
  apply seq_cons_inv in Hq as ([p3 s3] & H3 & Hq).
  apply repeat1_inv in H3 as (v & -> & Hv_ne & Hv & Hp3). cbn [fst snd] in *.
  apply seq_cons_inv in Hq as ([p4 s4] & H4 & Hq).
  apply kw_inv in H4 as (u2 & -> & Hu2 & Hp4). cbn [fst snd] in *.
  apply seq_cons_inv in Hq as (q5 & H5 & _).
  apply boundary_inv in H5 as [_ Hb5]. subst p2 p3 p4.
  assert (Hv1 : v = [" "%char]).
  { apply (spaced_run (pre ++ u1) v (u2 ++ s4)); [| exact Hv | exact Hv_ne].
    rewrite <- app_assoc. exact Hspaced. }
  subst v.
  cbn [map list_ascii_of_string] in Hu1, Hu2.
  ci_letter Hu1 d1 D1. ci_letter Hu1 d2 D2. ci_letter Hu1 d3 D3.
  ci_letter Hu1 d4 D4. ci_end Hu1.
  ci_letter Hu2 t1 T1. ci_letter Hu2 t2 T2. ci_letter Hu2 t3 T3.
  ci_letter Hu2 t4 T4. ci_letter Hu2 t5 T5. ci_end Hu2.
  cbn [app word_after] in Hb1. rewrite (isword_same _ _ D1) in Hb1.
  change (Char.isword "D") with true in Hb1.
  cbn [app step_over fold_left word_before] in Hb5.
  rewrite (isword_same _ _ T5) in Hb5. change (Char.isword "E") with true in Hb5.
  unfold has_word. apply has_word_from_app. unfold word_here.
  destruct (word_before (step_over None pre)); [discriminate Hb1 |].
  cbn [negb andb app].
  assert (Hread : read_ci (lit "DROP TABLE")
                    ([d1; d2; d3; d4; " "%char; t1; t2; t3; t4; t5] ++ s4) = Some s4)
    by (apply read_ci_app; cbn [map list_ascii_of_string]; congruence).
  cbn [app] in Hread. rewrite Hread.
  destruct (word_after s4); [discriminate Hb5 | reflexivity].
Qed.

Lemma ban001_only_by_pattern (rows : Z) (stmt : str) (ln : nat) (f : Finding) :
  In f (findings_of rows (stmt, ln)) ->
  rule_id f = lit "BAN001" -> search ban001 stmt = true.
Proof.
  intros Hin Hid. destruct (finding_rule_matches _ _ _ _ Hin) as (r & Hr & Hs & ->).
  unfold RULES in Hr.
  repeat (destruct Hr as [<- | Hr];
          [ first [ exact Hs | discriminate Hid ] |]).
  contradiction.
Qed.

(** X26: rule BAN001 is reported for a statement exactly when its text
    contains DROP TABLE as whole words, in any case: the rule has neither
    false alarms nor misses with respect to that reading. *)
Theorem ban001_exactly_drop_table (script : str) (rows : Z) (stmt : str) (ln : nat) :
  In (stmt, ln) (_split_statements script) ->
  ((exists f, In f (findings_of rows (stmt, ln)) /\ rule_id f = lit "BAN001")
   <-> has_word "DROP TABLE" stmt = true).
Proof.
  intros Hin. split.
  - intros (f & Hf & Hid).
    apply ban001_needs_words; [exact (statement_spaced _ _ _ Hin) |].
    exact (ban001_only_by_pattern _ _ _ _ Hf Hid).
  - intros Hword. eexists. split.
    + apply (In_findings_of rows stmt ln _ (or_introl eq_refl)).
      apply (has_word_search (lit "DROP TABLE")); [apply drop_table_here | exact Hword].
    + reflexivity.
Qed.

Lemma ban001_exactly_drop_table_witness :
  In (lit "DROP TABLESPACE ts", 1) (_split_statements (lit "DROP TABLESPACE ts;"))
  /\ ((exists f, In f (findings_of 0 (lit "DROP TABLESPACE ts", 1))
                 /\ rule_id f = lit "BAN001")
      <-> has_word "DROP TABLE" (lit "DROP TABLESPACE ts") = true).
Proof.
  assert (H : In (lit "DROP TABLESPACE ts", 1)
                 (_split_statements (lit "DROP TABLESPACE ts;")))
    by (left; reflexivity).
  split; [exact H |].
  exact (ban001_exactly_drop_table _ 0%Z _ _ H).
Defined.

(** ** The rule on CREATE INDEX *)

Lemma In_optional_take (r : regex) (p : option ascii) (s : str) (q : position) :
  In q (ends r p s) -> In q (ends (Optional r) p s).
Proof. intros H. cbn [ends]. apply in_or_app. left. exact H. Qed.

Lemma nil_of_no_In (l : list position) : (forall q, ~ In q l) -> l = [].
Proof.
  destruct l as [| q l]; [reflexivity |].
  intros H. exfalso. apply (H q). left. reflexivity.
Qed.

Lemma notahead_inv (r : regex) (p : option ascii) (s : str) (q : position) :
  In q (ends (NotAhead r) p s) -> q = (p, s) /\ ends r p s = [].
Proof.
  cbn [ends]. destruct (ends r p s); [| contradiction].
  intros [<- | []]. split; reflexivity.
Qed.

Lemma concurrently_ahead (p : option ascii) (s : str) :
  ends (seq [kw "CONCURRENTLY"; wb]) p s = []
  <-> starts_word "CONCURRENTLY" s = false.
Proof.
  unfold starts_word. cbn [seq ends]. unfold kw. rewrite ends_chars.
  destruct (read_ci (lit "CONCURRENTLY") s) as [s' |] eqn:Hr;
    [| split; reflexivity].
  destruct (read_ci_inv _ _ _ Hr) as (u & _ & Hu & <-).
  cbn [map list_ascii_of_string] in Hu.
  ci_letter Hu c1 C1. ci_letter Hu c2 C2. ci_letter Hu c3 C3. ci_letter Hu c4 C4.
  ci_letter Hu c5 C5. ci_letter Hu c6 C6. ci_letter Hu c7 C7. ci_letter Hu c8 C8.
  ci_letter Hu c9 C9. ci_letter Hu c10 C10. ci_letter Hu c11 C11.
  ci_letter Hu c12 C12. ci_end Hu.
  cbn [flat_map fst snd step_over fold_left wb ends word_before app].
  rewrite (isword_same _ _ C12). change (Char.isword "Y") with true.
  destruct (word_after s'); cbn [xorb negb flat_map app]; split;
    first [reflexivity | discriminate].
Qed.

Lemma lck002_matches (pre create unique index post : str) :
  word_before (step_over None pre) = false ->
  same_ci create "CREATE" ->
  unique = [] \/ same_ci unique "UNIQUE " ->
  same_ci index "INDEX" ->
  starts_word "CONCURRENTLY" post = false ->
  search lck002 (index_creation pre create unique index post) = true.
Proof.
  unfold index_creation, same_ci.
  intros Hpre Hcreate Hunique Hindex Hpost.
  cbn [map list_ascii_of_string] in Hcreate, Hindex.
  ci_letter Hcreate c1 C1. ci_letter Hcreate c2 C2. ci_letter Hcreate c3 C3.
  ci_letter Hcreate c4 C4. ci_letter Hcreate c5 C5. ci_letter Hcreate c6 C6.
  ci_end Hcreate.
  ci_letter Hindex i1 I1. ci_letter Hindex i2 I2. ci_letter Hindex i3 I3.
  ci_letter Hindex i4 I4. ci_letter Hindex i5 I5. ci_end Hindex.
  apply search_from_found. apply (not_nil_of_In (Some " "%char, post)).
  cbn [app].
  seq_step ltac:(apply In_boundary; cbn [word_after];
                 rewrite Hpre, (isword_same _ _ C1); reflexivity).
  seq_step ltac:(apply (In_kw "CREATE" [c1; c2; c3; c4; c5; c6]);
                 cbn [map list_ascii_of_string]; congruence).
  seq_step ltac:(apply (In_repeat1 Space [" "%char]); [discriminate | reflexivity]).
  destruct Hunique as [-> | Hunique].
  - seq_step ltac:(apply In_optional_skip).
    cbn [app].
    seq_step ltac:(apply (In_kw "INDEX" [i1; i2; i3; i4; i5]);
                   cbn [map list_ascii_of_string]; congruence).
    seq_step ltac:(apply (In_repeat1 Space [" "%char]); [discriminate | reflexivity]).
    seq_step ltac:(apply In_notahead; apply concurrently_ahead; exact Hpost).
    apply In_seq_nil.
  - cbn [map list_ascii_of_string] in Hunique.
    ci_letter Hunique u1 U1. ci_letter Hunique u2 U2. ci_letter Hunique u3 U3.
    ci_letter Hunique u4 U4. ci_letter Hunique u5 U5. ci_letter Hunique u6 U6.
    ci_letter Hunique u7 U7. ci_end Hunique.
    apply space_only in U7. subst u7. cbn [app].
    seq_step ltac:(apply In_optional_take;
                   apply (In_seq_cons _ _ _ _
                            (Some u6, " "%char :: i1 :: i2 :: i3 :: i4 :: i5
                                      :: " "%char :: post));
                   [ apply (In_kw "UNIQUE" [u1; u2; u3; u4; u5; u6]);
                     cbn [map list_ascii_of_string]; congruence
                   | cbn [fst snd];
                     apply (In_seq_cons _ _ _ _
                              (Some " "%char, i1 :: i2 :: i3 :: i4 :: i5
                                              :: " "%char :: post));
                     [ apply (In_repeat1 Space [" "%char]);
                       [discriminate | reflexivity]
                     | apply In_seq_nil ] ]).
    seq_step ltac:(apply (In_kw "INDEX" [i1; i2; i3; i4; i5]);
                   cbn [map list_ascii_of_string]; congruence).
    seq_step ltac:(apply (In_repeat1 Space [" "%char]); [discriminate | reflexivity]).
    seq_step ltac:(apply In_notahead; apply concurrently_ahead; exact Hpost).
    apply In_seq_nil.
Qed.

Lemma optional_inv (r : regex) (p : option ascii) (s : str) (q : position) :
  In q (ends (Optional r) p s) -> In q (ends r p s) \/ q = (p, s).
Proof.
  cbn [ends]. intros H. apply in_app_or in H as [H | [<- | []]];
    [left; exact H | right; reflexivity].
Qed.

Lemma read_word_space (w : string) (u s : str) :
  same_ci u w -> read_ci (lit w ++ [" "%char]) (u ++ " "%char :: s) = Some s.
Proof.
  intros Hu.
  replace (u ++ " "%char :: s) with ((u ++ [" "%char]) ++ s)
    by (rewrite <- app_assoc; reflexivity).
  apply read_ci_app. unfold same_ci in Hu. rewrite !map_app, Hu. reflexivity.
Qed.

Lemma index_concurrently_plain (idx b : str) :
  same_ci idx "INDEX" -> starts_word "CONCURRENTLY" b = false ->
  index_concurrently (idx ++ " "%char :: b) = false.
Proof.
  intros Hidx Hb. unfold index_concurrently.
  change (lit "INDEX ") with (lit "INDEX" ++ [" "%char]).
  rewrite (read_word_space "INDEX" idx b Hidx). exact Hb.
Qed.

Lemma index_not_unique (idx b : str) :
  same_ci idx "INDEX" -> read_ci (lit "UNIQUE ") (idx ++ b) = None.
Proof.
  unfold same_ci. intros Hidx. cbn [map list_ascii_of_string] in Hidx.
  ci_letter Hidx i1 I1. cbn [app list_ascii_of_string read_ci].
  rewrite I1. reflexivity.
Qed.

Lemma unique_not_index (uq b : str) :
  same_ci uq "UNIQUE" -> index_concurrently (uq ++ b) = false.
Proof.
  unfold same_ci, index_concurrently. intros Huq.
  cbn [map list_ascii_of_string] in Huq.
  ci_letter Huq u1 U1. cbn [app list_ascii_of_string read_ci].
  rewrite U1. reflexivity.
Qed.

Lemma index_then_plain (a : str) (p : option ascii) (s : str) (q : position) :
  spaced (a ++ s) = true ->
  In q (ends (seq [kw "INDEX"; ws; NotAhead (seq [kw "CONCURRENTLY"; wb])]) p s) ->
  exists idx b,
    s = idx ++ " "%char :: b /\ same_ci idx "INDEX"
    /\ starts_word "CONCURRENTLY" b = false.
Proof.
  intros Hspaced Hq.
  apply seq_cons_inv in Hq as ([p1 s1] & H1 & Hq).
  apply kw_inv in H1 as (idx & Hs & Hidx & _). cbn [fst snd] in *.
  apply seq_cons_inv in Hq as ([p2 s2] & H2 & Hq).
  apply repeat1_inv in H2 as (v & Hs1 & Hv_ne & Hv & _). cbn [fst snd] in *.
  apply seq_cons_inv in Hq as (q3 & H3 & _).
  apply notahead_inv in H3 as [_ Hahead]. apply concurrently_ahead in Hahead.
  subst s s1.
  assert (Hv1 : v = [" "%char]).
  { apply (spaced_run (a ++ idx) v s2); [| exact Hv | exact Hv_ne].
    rewrite <- app_assoc. exact Hspaced. }
  subst v. exists idx, s2. repeat split; assumption.
Qed.

Lemma create_always_concurrent_at (a create b : str) :
  create_always_concurrent (a ++ create ++ " "%char :: b) = true ->
  same_ci create "CREATE" -> concurrently_follows b = true.
Proof.
  intros H Hcreate. induction a as [| c a IH].
  - cbn [app] in H.
    pose proof (read_word_space "CREATE" create b Hcreate) as Hread.
    change (lit "CREATE" ++ [" "%char]) with (lit "CREATE ") in Hread.
    destruct (create ++ " "%char :: b) as [| x l] eqn:Hl;
      cbn [create_always_concurrent] in H;
      rewrite Hread in H; apply andb_prop in H as [H _]; exact H.
  - cbn [app create_always_concurrent] in H. apply andb_prop in H as [_ H].
    exact (IH H).
Qed.

Lemma lck002_needs_plain_index (stmt : str) :
  spaced stmt = true -> create_always_concurrent stmt = true ->
  search lck002 stmt = false.
Proof.
  intros Hspaced Hall. apply search_from_nowhere. intros pre s' Hstmt.
  apply nil_of_no_In. intros q Hq.
  apply seq_cons_inv in Hq as (q0 & H0 & Hq).
  apply boundary_inv in H0 as [-> _]. cbn [fst snd] in Hq.
  apply seq_cons_inv in Hq as ([p1 s1] & H1 & Hq).
  apply kw_inv in H1 as (create & Hs' & Hcreate & _). cbn [fst snd] in *.
  apply seq_cons_inv in Hq as ([p2 s2] & H2 & Hq).
  apply repeat1_inv in H2 as (v & Hs1 & Hv_ne & Hv & _). cbn [fst snd] in *.
  assert (Hwhole : stmt = (pre ++ create) ++ v ++ s2)
    by (rewrite Hstmt, Hs', Hs1, <- !app_assoc; reflexivity).
  assert (Hv1 : v = [" "%char])
    by (apply (spaced_run (pre ++ create) v s2);
        [rewrite <- Hwhole; exact Hspaced | exact Hv | exact Hv_ne]).
  subst v. clear Hv Hv_ne.
  assert (Hfollows : concurrently_follows s2 = true).
  { apply (create_always_concurrent_at pre create s2); [| exact Hcreate].
    rewrite Hwhole, <- !app_assoc in Hall. exact Hall. }
  rewrite Hwhole in Hspaced.
  apply seq_cons_inv in Hq as ([p3 s3] & H3 & Hq). cbn [fst snd] in Hq.
  unfold concurrently_follows in Hfollows.
  apply optional_inv in H3 as [H3 | H3].
  - apply seq_cons_inv in H3 as ([p4 s4] & H4 & H3).
    apply kw_inv in H4 as (uq & Hs2 & Huq & _). cbn [fst snd] in *.
    apply seq_cons_inv in H3 as ([p5 s5] & H5 & H3).
    apply repeat1_inv in H5 as (v & Hs4 & Hv_ne & Hv & _). cbn [fst snd] in *.
    destruct H3 as [H3 | []]. injection H3 as _ <-.
    subst s2 s4.
    assert (Hv1 : v = [" "%char]).
    { apply (spaced_run (((pre ++ create) ++ [" "%char]) ++ uq) v s5);
        [| exact Hv | exact Hv_ne].
      rewrite <- !app_assoc. rewrite <- !app_assoc in Hspaced. exact Hspaced. }
    subst v.
    assert (Hsp : spaced (((pre ++ create) ++ [" "%char] ++ uq ++ [" "%char]) ++ s5)
                  = true)
      by (rewrite <- !app_assoc; rewrite <- !app_assoc in Hspaced; exact Hspaced).
    destruct (index_then_plain _ _ _ _ Hsp Hq) as (idx & b & -> & Hidx & Hb).
    rewrite (unique_not_index uq _ Huq) in Hfollows.
    cbn [app] in Hfollows.
    change (lit "UNIQUE ") with (lit "UNIQUE" ++ [" "%char]) in Hfollows.
    rewrite (read_word_space "UNIQUE" uq _ Huq) in Hfollows.
    rewrite (index_concurrently_plain idx b Hidx Hb) in Hfollows.
    discriminate Hfollows.
  - injection H3 as -> ->.
    assert (Hsp : spaced (((pre ++ create) ++ [" "%char]) ++ s2) = true)
      by (rewrite <- !app_assoc; rewrite <- !app_assoc in Hspaced; exact Hspaced).
    destruct (index_then_plain _ _ _ _ Hsp Hq) as (idx & b & -> & Hidx & Hb).
    rewrite (index_concurrently_plain idx b Hidx Hb) in Hfollows.
    rewrite (index_not_unique idx _ Hidx) in Hfollows.
    discriminate Hfollows.
Qed.

Lemma lck002_only_by_pattern (rows : Z) (stmt : str) (ln : nat) (f : Finding) :
  In f (findings_of rows (stmt, ln)) ->
  rule_id f = lit "LCK002" -> search lck002 stmt = true.
Proof.
  intros Hin Hid. destruct (finding_rule_matches _ _ _ _ Hin) as (r & Hr & Hs & ->).
  unfold RULES in Hr.
  repeat (destruct Hr as [<- | Hr];
          [ first [ exact Hs | discriminate Hid ] |]).
  contradiction.
Qed.

(** X27: a statement with CREATE INDEX or CREATE UNIQUE INDEX as words,
    followed by a space and by anything but the word CONCURRENTLY, yields a
    finding of rule LCK002; a statement in which every CREATE followed by
    a space begins CREATE INDEX CONCURRENTLY or CREATE UNIQUE INDEX
    CONCURRENTLY, the last as a word, yields none. *)
Theorem create_index_needs_concurrently
  (script script' : str) (rows : Z) (ln ln' : nat)
  (pre create unique index post stmt' : str) :
  In (index_creation pre create unique index post, ln) (_split_statements script) ->
  word_before (step_over None pre) = false ->
  same_ci create "CREATE" ->
  unique = [] \/ same_ci unique "UNIQUE " ->
  same_ci index "INDEX" ->
  starts_word "CONCURRENTLY" post = false ->
  In (stmt', ln') (_split_statements script') ->
  create_always_concurrent stmt' = true ->
  (exists fs f,
      analyze script rows = Ok fs /\ In f fs
      /\ rule_id f = lit "LCK002" /\ line f = ln)
  /\ (forall f, In f (findings_of rows (stmt', ln')) -> rule_id f <> lit "LCK002").
Proof.
  intros Hstmt Hpre Hcreate Hunique Hindex Hpost Hstmt' Hall. split.
  - pose proof (lck002_matches _ _ _ _ _ Hpre Hcreate Hunique Hindex Hpost)
      as Hsearch.
    destruct (In_analyze script rows _ ln _ Hstmt
                (In_findings_of rows _ ln _
                   (or_intror (or_intror (or_intror (or_intror (or_introl eq_refl)))))
                   Hsearch))
      as (fs & Hfs & Hin).
    exists fs. eexists. split; [exact Hfs |]. split; [exact Hin |].
    split; reflexivity.
  - intros f Hin Hid.
    pose proof (lck002_only_by_pattern _ _ _ _ Hin Hid) as Hsearch.
    rewrite (lck002_needs_plain_index _ (statement_spaced _ _ _ Hstmt') Hall)
      in Hsearch.
    discriminate Hsearch.
Qed.

Lemma create_index_needs_concurrently_witness :
  In (index_creation [] (lit "create") (lit "UNIQUE ") (lit "INDEX")
        (lit "idx_email ON users(email)"), 1)
     (_split_statements (lit "create UNIQUE INDEX idx_email ON users(email);"))
  /\ word_before (step_over None []) = false
  /\ same_ci (lit "create") "CREATE"
  /\ (lit "UNIQUE " = [] \/ same_ci (lit "UNIQUE ") "UNIQUE ")
  /\ same_ci (lit "INDEX") "INDEX"
  /\ starts_word "CONCURRENTLY" (lit "idx_email ON users(email)") = false
  /\ In (lit "CREATE INDEX CONCURRENTLY idx_email ON users(email)", 1)
        (_split_statements
           (lit "CREATE INDEX CONCURRENTLY idx_email ON users(email);"))
  /\ create_always_concurrent
       (lit "CREATE INDEX CONCURRENTLY idx_email ON users(email)") = true
  /\ ((exists fs f,
          analyze (lit "create UNIQUE INDEX idx_email ON users(email);") 0 = Ok fs
          /\ In f fs /\ rule_id f = lit "LCK002" /\ line f = 1)
      /\ (forall f,
             In f (findings_of 0
                     (lit "CREATE INDEX CONCURRENTLY idx_email ON users(email)", 1)) ->
             rule_id f <> lit "LCK002")).
Proof.
  assert (H1 : In (index_creation [] (lit "create") (lit "UNIQUE ") (lit "INDEX")
                     (lit "idx_email ON users(email)"), 1)
                  (_split_statements
                     (lit "create UNIQUE INDEX idx_email ON users(email);")))
    by (left; reflexivity).
  assert (H2 : word_before (step_over None []) = false) by reflexivity.
  assert (H3 : same_ci (lit "create") "CREATE") by reflexivity.
  assert (H4 : lit "UNIQUE " = [] \/ same_ci (lit "UNIQUE ") "UNIQUE ")
    by (right; reflexivity).
  assert (H5 : same_ci (lit "INDEX") "INDEX") by reflexivity.
  assert (H6 : starts_word "CONCURRENTLY" (lit "idx_email ON users(email)") = false)
    by reflexivity.
  assert (H7 : In (lit "CREATE INDEX CONCURRENTLY idx_email ON users(email)", 1)
                  (_split_statements
                     (lit "CREATE INDEX CONCURRENTLY idx_email ON users(email);")))
    by (left; reflexivity).
  assert (H8 : create_always_concurrent
                 (lit "CREATE INDEX CONCURRENTLY idx_email ON users(email)") = true)
    by reflexivity.
  repeat (split; [assumption |]).
  exact (create_index_needs_concurrently _ _ 0%Z _ _ _ _ _ _ _ _
           H1 H2 H3 H4 H5 H6 H7 H8).
Defined.

(** ** The rule on foreign keys *)

Lemma not_valid_ahead_inv (prefix post : str) (p : option ascii) :
  spaced (prefix ++ post) = true ->
  ends not_valid_ahead p post <> [] ->
  has_word_from (lit "NOT VALID") p post = true.
Proof.
  intros Hspaced Hne. destruct (first_of (None, []) _ Hne) as (q & Hq).
  apply seq_cons_inv in Hq as ([p1 s1] & H1 & Hq).
  apply run_inv in H1 as (u & -> & Hp1 & _). cbn [fst snd] in *. subst p1.
  apply seq_cons_inv in Hq as (q2 & H2 & Hq).
  apply boundary_inv in H2 as [-> Hb1]. cbn [fst snd] in Hq.
  apply seq_cons_inv in Hq as ([p3 s3] & H3 & Hq).
  apply kw_inv in H3 as (n & -> & Hn & Hp3). cbn [fst snd] in *.
  apply seq_cons_inv in Hq as ([p4 s4] & H4 & Hq).
  apply repeat1_inv in H4 as (v & -> & Hv_ne & Hv & Hp4). cbn [fst snd] in *.
  apply seq_cons_inv in Hq as ([p5 s5] & H5 & Hq).
  apply kw_inv in H5 as (w & -> & Hw & Hp5). cbn [fst snd] in *.
  apply seq_cons_inv in Hq as (q6 & H6 & _).
  apply boundary_inv in H6 as [_ Hb6]. subst p3 p4 p5.
  assert (Hv1 : v = [" "%char]).
  { apply (spaced_run (prefix ++ u ++ n) v (w ++ s5)); [| exact Hv | exact Hv_ne].
    rewrite <- !app_assoc. exact Hspaced. }
  subst v.
  cbn [map list_ascii_of_string] in Hn, Hw.
  ci_letter Hn n1 N1. ci_letter Hn n2 N2. ci_letter Hn n3 N3. ci_end Hn.
  ci_letter Hw v1 V1. ci_letter Hw v2 V2. ci_letter Hw v3 V3.
  ci_letter Hw v4 V4. ci_letter Hw v5 V5. ci_end Hw.
  cbn [app word_after] in Hb1. rewrite (isword_same _ _ N1) in Hb1.
  change (Char.isword "N") with true in Hb1.
  cbn [app step_over fold_left word_before] in Hb6.
  rewrite (isword_same _ _ V5) in Hb6. change (Char.isword "D") with true in Hb6.
  apply has_word_from_app. unfold word_here.
  destruct (word_before (step_over p u)); [discriminate Hb1 |].
  cbn [negb andb app].
  assert (Hread : read_ci (lit "NOT VALID")
                    ([n1; n2; n3; " "%char; v1; v2; v3; v4; v5] ++ s5) = Some s5)
    by (apply read_ci_app; cbn [map list_ascii_of_string]; congruence).
  cbn [app] in Hread. rewrite Hread.
  destruct (word_after s5); [discriminate Hb6 | reflexivity].
Qed.

Lemma has_word_from_prev_not_valid (p p' : option ascii) (s : str) :
  word_after s = false ->
  has_word_from (lit "NOT VALID") p s = has_word_from (lit "NOT VALID") p' s.
Proof.
  intros Hs. destruct s as [| c s]; cbn [has_word_from]; f_equal;
    unfold word_here; cbn [list_ascii_of_string read_ci].
  - rewrite !andb_false_r. reflexivity.
  - destruct (Ascii.eqb_spec (Char.lower c) (Char.lower "N")) as [Hc | _].
    + cbn [word_after] in Hs. rewrite (isword_same _ _ Hc) in Hs. discriminate Hs.
    + rewrite !andb_false_r. reflexivity.
Qed.

Lemma not_valid_needs_not (p : option ascii) (s : str) :
  has_word_from (lit "NOT VALID") p s = true ->
  has_word_from (lit "NOT") p s = true.
Proof.
  assert (Hhere : forall p s, word_here (lit "NOT VALID") p s = true ->
                              word_here (lit "NOT") p s = true).
  { clear p s. intros p s. unfold word_here.
    destruct (word_before p); [discriminate |]. cbn [negb andb].
    destruct (read_ci (lit "NOT VALID") s) as [s' |] eqn:Hr; [| discriminate].
    intros _. destruct (read_ci_inv _ _ _ Hr) as (u & -> & Hu & _).
    cbn [map list_ascii_of_string] in Hu.
    ci_letter Hu n1 N1. ci_letter Hu n2 N2. ci_letter Hu n3 N3.
    ci_letter Hu sp SP. apply space_only in SP. subst sp.
    assert (Hread : read_ci (lit "NOT") ([n1; n2; n3] ++ " "%char :: u ++ s')
                    = Some (" "%char :: u ++ s'))
      by (apply read_ci_app; cbn [map list_ascii_of_string]; congruence).
    cbn [app] in Hread |- *. rewrite Hread. reflexivity. }
  revert p. induction s as [| c s IH]; intros p H; cbn [has_word_from] in *.
  - rewrite orb_false_r in *. apply Hhere, H.
  - apply orb_prop in H as [H | H].
    + rewrite (Hhere _ _ H). reflexivity.
    + rewrite (IH _ H). apply orb_true_r.
Qed.

Lemma lck003_matches (pre add cons foreign key post : str) :
  spaced (fk_addition pre add cons foreign key post) = true ->
  word_before (step_over None pre) = false ->
  same_ci add "ADD" ->
  constraint_clause cons ->
  same_ci foreign "FOREIGN" -> same_ci key "KEY" ->
  word_after post = false ->
  has_word "NOT" post = false ->
  search lck003 (fk_addition pre add cons foreign key post) = true.
Proof.
  unfold fk_addition, same_ci.
  intros Hspaced Hpre Hadd Hcons Hforeign Hkey Hpost Hnv.
  assert (Hahead : ends not_valid_ahead (step_over None
                     (pre ++ add ++ " "%char :: cons ++ foreign ++ " "%char :: key))
                     post = []).
  { destruct (ends not_valid_ahead _ post) as [| q l] eqn:He; [reflexivity |].
    exfalso.
    assert (Hword : has_word_from (lit "NOT VALID")
                      (step_over None
                         (pre ++ add ++ " "%char :: cons ++ foreign ++ " "%char :: key))
                      post = true).
    { apply (not_valid_ahead_inv
               (pre ++ add ++ " "%char :: cons ++ foreign ++ " "%char :: key)).
      - rewrite <- app_assoc. cbn [app]. rewrite <- !app_assoc. cbn [app].
        rewrite <- !app_assoc. exact Hspaced.
      - rewrite He. discriminate. }
    rewrite (has_word_from_prev_not_valid _ None _ Hpost) in Hword.
    apply not_valid_needs_not in Hword.
    unfold has_word in Hnv. congruence. }
  cbn [map list_ascii_of_string] in Hadd, Hforeign, Hkey.
  ci_letter Hadd a1 A1. ci_letter Hadd a2 A2. ci_letter Hadd a3 A3. ci_end Hadd.
  ci_letter Hforeign f1 F1. ci_letter Hforeign f2 F2. ci_letter Hforeign f3 F3.
  ci_letter Hforeign f4 F4. ci_letter Hforeign f5 F5. ci_letter Hforeign f6 F6.
  ci_letter Hforeign f7 F7. ci_end Hforeign.
  ci_letter Hkey k1 K1. ci_letter Hkey k2 K2. ci_letter Hkey k3 K3. ci_end Hkey.
  assert (Hlast : step_over None
                    (pre ++ [a1; a2; a3] ++ " "%char :: cons
                         ++ [f1; f2; f3; f4; f5; f6; f7] ++ " "%char :: [k1; k2; k3])
                  = Some k3).
  { rewrite app_assoc.
    replace ((pre ++ [a1; a2; a3]) ++ " "%char :: cons
               ++ [f1; f2; f3; f4; f5; f6; f7] ++ " "%char :: [k1; k2; k3])
      with (((pre ++ [a1; a2; a3]) ++ " "%char :: cons
               ++ [f1; f2; f3; f4; f5; f6; f7] ++ [" "%char; k1; k2]) ++ [k3])
      by (rewrite <- !app_assoc; cbn [app]; rewrite <- !app_assoc; reflexivity).
    apply step_over_last. }
  rewrite Hlast in Hahead. clear Hlast Hspaced.
  apply search_from_found. apply (not_nil_of_In (Some k3, post)).
  cbn [app].
  seq_step ltac:(apply In_boundary; cbn [word_after];
                 rewrite Hpre, (isword_same _ _ A1); reflexivity).
  seq_step ltac:(apply (In_kw "ADD" [a1; a2; a3]);
                 cbn [map list_ascii_of_string]; congruence).
  seq_step ltac:(apply (In_repeat1 Space [" "%char]); [discriminate | reflexivity]).
  destruct Hcons as [-> | (word & name & -> & Hword & Hname)].
  - seq_step ltac:(apply In_optional_skip).
    cbn [app].
    seq_step ltac:(apply (In_kw "FOREIGN" [f1; f2; f3; f4; f5; f6; f7]);
                   cbn [map list_ascii_of_string]; congruence).
    seq_step ltac:(apply (In_repeat1 Space [" "%char]); [discriminate | reflexivity]).
    seq_step ltac:(apply (In_kw "KEY" [k1; k2; k3]);
                   cbn [map list_ascii_of_string]; congruence).
    seq_step ltac:(apply In_boundary; cbn [word_before];
                   rewrite Hpost, (isword_same _ _ K3); reflexivity).
    seq_step ltac:(apply In_notahead; exact Hahead).
    apply In_seq_nil.
  - destruct (token_inv _ Hname) as [Hne Hall].
    rewrite <- !app_assoc. cbn [app]. rewrite <- !app_assoc. cbn [app].
    seq_step ltac:(apply In_optional_take;
                   eapply In_seq_cons;
                   [ apply (In_kw "CONSTRAINT" word); exact Hword
                   | cbn [fst snd]; eapply In_seq_cons;
                     [ apply (In_repeat1 Space [" "%char]);
                       [discriminate | reflexivity]
                     | cbn [fst snd]; eapply In_seq_cons;
                       [ apply (In_repeat1 NotSpace name); assumption
                       | cbn [fst snd]; eapply In_seq_cons;
                         [ apply (In_repeat1 Space [" "%char]);
                           [discriminate | reflexivity]
                         | apply In_seq_nil ] ] ] ]).
    seq_step ltac:(apply (In_kw "FOREIGN" [f1; f2; f3; f4; f5; f6; f7]);
                   cbn [map list_ascii_of_string]; congruence).
    seq_step ltac:(apply (In_repeat1 Space [" "%char]); [discriminate | reflexivity]).
    seq_step ltac:(apply (In_kw "KEY" [k1; k2; k3]);
                   cbn [map list_ascii_of_string]; congruence).
    seq_step ltac:(apply In_boundary; cbn [word_before];
                   rewrite Hpost, (isword_same _ _ K3); reflexivity).
    seq_step ltac:(apply In_notahead; exact Hahead).
    apply In_seq_nil.
Qed.

Lemma not_valid_no_key (l : str) (c : ascii) (s : str) :
  not_valid = l ++ c :: s -> Char.lower c = Char.lower "Y" -> False.
Proof.
  intros Heq Hc. cbn [list_ascii_of_string] in Heq.
  repeat (destruct l as [| ? l];
          [ cbn [app] in Heq; injection Heq as <- <-;
            vm_compute in Hc; discriminate Hc
          | cbn [app] in Heq; injection Heq as <- Heq ]).
  destruct l; discriminate Heq.
Qed.

Lemma not_valid_ahead_found (p : option ascii) (l : str) :
  ~ In ";"%char l -> ends not_valid_ahead p (l ++ not_valid) <> [].
Proof.
  intros Hl.
  apply (not_nil_of_In (Some "D"%char, [])).
  change (l ++ not_valid) with (l ++ [" "%char] ++ lit "NOT" ++ lit " VALID").
  rewrite app_assoc.
  seq_step ltac:(apply (In_repeat0 NotSemicolon (l ++ [" "%char]));
                 rewrite forallb_app, (not_semicolon _ Hl); reflexivity).
  rewrite step_over_last.
  seq_step ltac:(apply In_boundary; reflexivity).
  seq_step ltac:(apply (In_kw "NOT" (lit "NOT")); reflexivity).
  seq_step ltac:(apply (In_repeat1 Space [" "%char]); [discriminate | reflexivity]).
  seq_step ltac:(apply (In_kw "VALID" (lit "VALID") _ []); reflexivity).
  seq_step ltac:(apply In_boundary; reflexivity).
  apply In_seq_nil.
Qed.

Lemma lck003_not_with_not_valid (t : str) :
  ~ In ";"%char t -> search lck003 (t ++ not_valid) = false.
Proof.
  intros Ht. apply search_from_nowhere. intros pre s' Hsplit.
  change lck003 with
    (seq (([wb; kw "ADD"; ws; Optional (seq [kw "CONSTRAINT"; ws; nws; ws]);
            kw "FOREIGN"; ws] ++ [kw "KEY"; wb])
          ++ [NotAhead not_valid_ahead])).
  rewrite ends_seq_app. apply flat_map_nil. intros q Hq.
  rewrite ends_seq_app in Hq. apply in_flat_map in Hq as ([p0 s0] & H0 & Hq).
  destruct (ends_suffix _ _ _ _ H0) as (u0 & Hs' & _). cbn [fst snd] in *.
  apply seq_cons_inv in Hq as ([p1 s1] & H1 & Hq).
  apply kw_inv in H1 as (key & Hs0 & Hkey & Hp1). cbn [fst snd] in *.
  apply seq_cons_inv in Hq as (q2 & H2 & Hq).
  apply boundary_inv in H2 as [-> _]. destruct Hq as [<- | []]. cbn [fst snd].
  cbn [map list_ascii_of_string] in Hkey.
  ci_letter Hkey k1 K1. ci_letter Hkey k2 K2. ci_letter Hkey k3 K3. ci_end Hkey.
  assert (Hwhole : t ++ not_valid = (pre ++ u0 ++ [k1; k2]) ++ k3 :: s1)
    by (rewrite Hsplit, Hs', Hs0, <- !app_assoc; reflexivity).
  assert (Hlate : exists l, s1 = l ++ not_valid /\ ~ In ";"%char l).
  { apply app_eq_app in Hwhole as (l & [[Ht' Hs1'] | [_ Happ]]).
    - destruct l as [| x l]; cbn [app] in Hs1'.
      + injection Hs1' as -> _. vm_compute in K3. discriminate K3.
      + injection Hs1' as _ ->. exists l. split; [reflexivity |].
        intros Hin. apply Ht. rewrite Ht'.
        apply in_or_app. right. right. exact Hin.
    - exfalso. exact (not_valid_no_key l k3 s1 Happ K3). }
  destruct Hlate as (l & -> & Hl).
  apply notahead_blocked, not_valid_ahead_found, Hl.
Qed.

Lemma lck003_only_by_pattern (rows : Z) (stmt : str) (ln : nat) (f : Finding) :
  In f (findings_of rows (stmt, ln)) ->
  rule_id f = lit "LCK003" -> search lck003 stmt = true.
Proof.
  intros Hin Hid. destruct (finding_rule_matches _ _ _ _ Hin) as (r & Hr & Hs & ->).
  unfold RULES in Hr.
  repeat (destruct Hr as [<- | Hr];
          [ first [ exact Hs | discriminate Hid ] |]).
  contradiction.
Qed.

(** X28: a statement that adds a foreign key, with ADD, optionally
    CONSTRAINT and a name, and FOREIGN KEY as words, and without the word
    NOT anywhere after, yields a finding of rule LCK003; the same
    statement with NOT VALID appended at its end yields none. *)
Theorem foreign_key_needs_not_valid
  (script script' : str) (rows : Z) (ln ln' : nat)
  (pre add cons foreign key post : str) :
  In (fk_addition pre add cons foreign key post, ln) (_split_statements script) ->
  word_before (step_over None pre) = false ->
  same_ci add "ADD" ->
  constraint_clause cons ->
  same_ci foreign "FOREIGN" -> same_ci key "KEY" ->
  word_after post = false ->
  has_word "NOT" post = false ->
  _split_statements script'
  = [(fk_addition pre add cons foreign key post ++ not_valid, ln')] ->
  (exists fs f,
      analyze script rows = Ok fs /\ In f fs
      /\ rule_id f = lit "LCK003" /\ line f = ln)
  /\ (exists fs',
         analyze script' rows = Ok fs'
         /\ forall f, In f fs' -> rule_id f <> lit "LCK003").
Proof.
  intros Hstmt Hpre Hadd Hcons Hforeign Hkey Hpost Hnv Hstmt'. split.
  - pose proof (lck003_matches _ _ _ _ _ _ (statement_spaced _ _ _ Hstmt)
                  Hpre Hadd Hcons Hforeign Hkey Hpost Hnv) as Hsearch.
    destruct (In_analyze script rows _ ln _ Hstmt
                (In_findings_of rows _ ln _
                   (or_intror (or_intror (or_intror (or_intror (or_intror
                      (or_introl eq_refl))))))
                   Hsearch))
      as (fs & Hfs & Hin).
    exists fs. eexists. split; [exact Hfs |]. split; [exact Hin |].
    split; reflexivity.
  - eexists. split; [apply analyze_value |].
    rewrite Hstmt'. cbn [flat_map]. rewrite app_nil_r.
    intros f Hin Hid.
    pose proof (lck003_only_by_pattern _ _ _ _ Hin Hid) as Hsearch.
    rewrite (lck003_not_with_not_valid _ (statement_no_semicolon _ _ _ Hstmt))
      in Hsearch.
    discriminate Hsearch.
Qed.

Lemma foreign_key_needs_not_valid_witness :
  In (fk_addition (lit "ALTER TABLE orders ") (lit "ADD") (lit "CONSTRAINT fk_user ")
        (lit "FOREIGN") (lit "KEY") (lit " (user_id) REFERENCES users(id)"), 1)
     (_split_statements
        (lit "ALTER TABLE orders ADD CONSTRAINT fk_user FOREIGN KEY (user_id) REFERENCES users(id);"))
  /\ word_before (step_over None (lit "ALTER TABLE orders ")) = false
  /\ same_ci (lit "ADD") "ADD"
  /\ constraint_clause (lit "CONSTRAINT fk_user ")
  /\ same_ci (lit "FOREIGN") "FOREIGN" /\ same_ci (lit "KEY") "KEY"
  /\ word_after (lit " (user_id) REFERENCES users(id)") = false
  /\ has_word "NOT" (lit " (user_id) REFERENCES users(id)") = false
  /\ _split_statements
       (lit "ALTER TABLE orders ADD CONSTRAINT fk_user FOREIGN KEY (user_id) REFERENCES users(id) NOT VALID;")
     = [(fk_addition (lit "ALTER TABLE orders ") (lit "ADD")
           (lit "CONSTRAINT fk_user ") (lit "FOREIGN") (lit "KEY")
           (lit " (user_id) REFERENCES users(id)") ++ not_valid, 1)]
  /\ ((exists fs f,
          analyze
            (lit "ALTER TABLE orders ADD CONSTRAINT fk_user FOREIGN KEY (user_id) REFERENCES users(id);")
            0 = Ok fs
          /\ In f fs /\ rule_id f = lit "LCK003" /\ line f = 1)
      /\ (exists fs',
             analyze
               (lit "ALTER TABLE orders ADD CONSTRAINT fk_user FOREIGN KEY (user_id) REFERENCES users(id) NOT VALID;")
               0 = Ok fs'
             /\ forall f, In f fs' -> rule_id f <> lit "LCK003")).
Proof.
  assert (H1 : In (fk_addition (lit "ALTER TABLE orders ") (lit "ADD")
                     (lit "CONSTRAINT fk_user ") (lit "FOREIGN") (lit "KEY")
                     (lit " (user_id) REFERENCES users(id)"), 1)
                  (_split_statements
                     (lit "ALTER TABLE orders ADD CONSTRAINT fk_user FOREIGN KEY (user_id) REFERENCES users(id);")))
    by (left; reflexivity).
  assert (H2 : word_before (step_over None (lit "ALTER TABLE orders ")) = false)
    by reflexivity.
  assert (H3 : same_ci (lit "ADD") "ADD") by reflexivity.
  assert (H4 : constraint_clause (lit "CONSTRAINT fk_user "))
    by (right; exists (lit "CONSTRAINT"), (lit "fk_user"); repeat split).
  assert (H5 : same_ci (lit "FOREIGN") "FOREIGN") by reflexivity.
  assert (H6 : same_ci (lit "KEY") "KEY") by reflexivity.
  assert (H7 : word_after (lit " (user_id) REFERENCES users(id)") = false)
    by reflexivity.
  assert (H8 : has_word "NOT" (lit " (user_id) REFERENCES users(id)") = false)
    by reflexivity.
  assert (H9 : _split_statements
                 (lit "ALTER TABLE orders ADD CONSTRAINT fk_user FOREIGN KEY (user_id) REFERENCES users(id) NOT VALID;")
               = [(fk_addition (lit "ALTER TABLE orders ") (lit "ADD")
                     (lit "CONSTRAINT fk_user ") (lit "FOREIGN") (lit "KEY")
                     (lit " (user_id) REFERENCES users(id)") ++ not_valid, 1)])
    by reflexivity.
  repeat (split; [assumption |]).
  exact (foreign_key_needs_not_valid _ _ 0%Z _ _ _ _ _ _ _ _
           H1 H2 H3 H4 H5 H6 H7 H8 H9).
Defined.

(** ** The rules on ALTER TABLE *)

Lemma word_after_same (x r : str) (w : string) :
  same_ci x w -> word_after (lit w) = true -> word_after (x ++ r) = true.
Proof.
  unfold same_ci. intros Hx Hw.
  destruct (lit w) as [| a l]; [discriminate Hw |].
  destruct x as [| c x]; [discriminate Hx |].
  cbn [map] in Hx. injection Hx as Hc _.
  cbn [app word_after] in *. rewrite (isword_same _ _ Hc). exact Hw.
Qed.

Lemma word_before_step (x l : str) (p p' : option ascii) :
  map Char.lower x = map Char.lower l -> word_before p = word_before p' ->
  word_before (step_over p x) = word_before (step_over p' l).
Proof.
  revert l p p'. induction x as [| c x IH]; intros [| a l] p p' Hx Hp;
    try discriminate Hx; [exact Hp |].
  cbn [map] in Hx. injection Hx as Hc Hx.
  change (step_over p (c :: x)) with (step_over (Some c) x).
  change (step_over p' (a :: l)) with (step_over (Some a) l).
  apply IH; [exact Hx |]. cbn [word_before]. apply isword_same, Hc.
Qed.

Lemma word_before_same (x : str) (w : string) (p : option ascii) :
  same_ci x w -> word_before (step_over None (lit w)) = true ->
  word_before (step_over p x) = true.
Proof.
  unfold same_ci. intros Hx Hw.
  destruct (lit w) as [| a l]; [discriminate Hw |].
  destruct x as [| c x]; [discriminate Hx |].
  cbn [map] in Hx. injection Hx as Hc Hx.
  change (step_over p (c :: x)) with (step_over (Some c) x).
  change (step_over None (a :: l)) with (step_over (Some a) l) in Hw.
  rewrite <- Hw. apply word_before_step; [exact Hx |].
  cbn [word_before]. apply isword_same, Hc.
Qed.

Ltac seq_next tac := eapply In_seq_cons; [tac | cbn [fst snd]].

Ltac kw_next x H := seq_next ltac:(apply (In_kw _ x); exact H).

Ltac space_next :=
  seq_next ltac:(apply (In_repeat1 Space [" "%char]); [discriminate | reflexivity]).

Ltac name_next x H :=
  seq_next ltac:(apply (In_repeat1 NotSpace x); apply (token_inv _ H)).

Ltac flatten_text :=
  cbn [Py.join];
  repeat first [ rewrite <- app_assoc
               | progress cbn [app list_ascii_of_string] ].

Ltac start_phrase x H Hpre :=
  apply search_from_found; eapply not_nil_of_In;
  seq_next ltac:(apply In_boundary; rewrite Hpre;
                 rewrite (word_after_same x _ _ H eq_refl); reflexivity).

Ltac end_phrase x H Hpost :=
  seq_next ltac:(apply In_boundary; rewrite Hpost;
                 rewrite (word_before_same x _ _ H eq_refl); reflexivity);
  apply In_seq_nil.

Ltac take_word words Hfits x Hx :=
  destruct words as [| x words]; cbn [fits] in Hfits; [contradiction |];
  destruct Hfits as [Hx Hfits].

Ltac no_more_words words Hfits :=
  destruct words; cbn [fits] in Hfits; [clear Hfits | contradiction].

Lemma alter_table_phrase_matches (id : string) (pieces : list piece)
  (pre post : str) (words : list str) :
  In (id, pieces) alter_table_phrases -> fits pieces words ->
  word_before (step_over None pre) = false -> word_after post = false ->
  exists r,
    In r RULES /\ (let '(rid, _, _, _, _, _) := r in rid = lit id)
    /\ search (pattern_of r) (pre ++ Py.join (lit " ") words ++ post) = true.
Proof.
  intros Hphrase Hfits Hpre Hpost. unfold alter_table_phrases in Hphrase.
  destruct Hphrase as [Heq | [Heq | [Heq | [Heq | [Heq | []]]]]];
    injection Heq as <- <-;
    take_word words Hfits w1 H1; take_word words Hfits w2 H2;
    take_word words Hfits w3 H3; take_word words Hfits w4 H4.
  - take_word words Hfits w5 H5. no_more_words words Hfits.
    eexists. split; [right; left; reflexivity |]. split; [reflexivity |].
    cbn [pattern_of]. flatten_text.
    start_phrase w1 H1 Hpre. kw_next w1 H1. space_next. kw_next w2 H2. space_next.
    name_next w3 H3. space_next. kw_next w4 H4. space_next. kw_next w5 H5.
    end_phrase w5 H5 Hpost.
  - no_more_words words Hfits.
    eexists. split; [right; right; left; reflexivity |]. split; [reflexivity |].
    cbn [pattern_of]. flatten_text.
    start_phrase w1 H1 Hpre. kw_next w1 H1. space_next. kw_next w2 H2. space_next.
    name_next w3 H3. space_next. kw_next w4 H4.
    end_phrase w4 H4 Hpost.
  - take_word words Hfits w5 H5. take_word words Hfits w6 H6.
    take_word words Hfits w7 H7. no_more_words words Hfits.
    eexists. split; [do 6 right; left; reflexivity |]. split; [reflexivity |].
    cbn [pattern_of]. flatten_text.
    start_phrase w1 H1 Hpre. kw_next w1 H1. space_next. kw_next w2 H2. space_next.
    name_next w3 H3. space_next. kw_next w4 H4. space_next. kw_next w5 H5.
    space_next. name_next w6 H6. space_next.
    seq_next ltac:(apply In_optional_skip).
    kw_next w7 H7. end_phrase w7 H7 Hpost.
  - take_word words Hfits w5 H5. take_word words Hfits w6 H6.
    take_word words Hfits w7 H7. take_word words Hfits w8 H8.
    take_word words Hfits w9 H9. no_more_words words Hfits.
    eexists. split; [do 6 right; left; reflexivity |]. split; [reflexivity |].
    cbn [pattern_of]. flatten_text.
    start_phrase w1 H1 Hpre. kw_next w1 H1. space_next. kw_next w2 H2. space_next.
    name_next w3 H3. space_next. kw_next w4 H4. space_next. kw_next w5 H5.
    space_next. name_next w6 H6. space_next.
    seq_next ltac:(apply In_optional_take;
                   kw_next w7 H7; space_next; kw_next w8 H8; space_next;
                   apply In_seq_nil).
    kw_next w9 H9. end_phrase w9 H9 Hpost.
  - take_word words Hfits w5 H5. take_word words Hfits w6 H6.
    take_word words Hfits w7 H7. take_word words Hfits w8 H8.
    take_word words Hfits w9 H9. no_more_words words Hfits.
    eexists. split; [do 7 right; left; reflexivity |]. split; [reflexivity |].
    cbn [pattern_of]. flatten_text.
    start_phrase w1 H1 Hpre. kw_next w1 H1. space_next. kw_next w2 H2. space_next.
    name_next w3 H3. space_next. kw_next w4 H4. space_next. kw_next w5 H5.
    space_next. name_next w6 H6. space_next. kw_next w7 H7. space_next.
    kw_next w8 H8. space_next. kw_next w9 H9.
    end_phrase w9 H9 Hpost.
Qed.

(** X29: a statement that contains, as whole words in any case and with
    any names, one of the phrases ALTER TABLE name DROP COLUMN (BAN002),
    ALTER TABLE name RENAME (BAN003), ALTER TABLE name ALTER COLUMN name
    TYPE or SET DATA TYPE (LCK004), ALTER TABLE name ALTER COLUMN name SET
    NOT NULL (LCK005), yields a finding of the phrase's rule. *)
Theorem alter_table_rules_flag (script : str) (rows : Z) (ln : nat)
  (id : string) (pieces : list piece) (pre post : str) (words : list str) :
  In (id, pieces) alter_table_phrases ->
  fits pieces words ->
  word_before (step_over None pre) = false ->
  word_after post = false ->
  In (pre ++ Py.join (lit " ") words ++ post, ln) (_split_statements script) ->
  exists fs f,
    analyze script rows = Ok fs /\ In f fs
    /\ rule_id f = lit id /\ line f = ln.
Proof.
  intros Hphrase Hfits Hpre Hpost Hstmt.
  destruct (alter_table_phrase_matches id pieces pre post words
              Hphrase Hfits Hpre Hpost) as (r & Hr & Hid & Hsearch).
  destruct (In_analyze script rows _ ln _ Hstmt
              (In_findings_of rows _ ln r Hr Hsearch)) as (fs & Hfs & Hin).
  exists fs. eexists. split; [exact Hfs |]. split; [exact Hin |].
  destruct r as [[[[[rid pattern] sev] msg] lock] base].
  split; [exact Hid | reflexivity].
Qed.

Lemma alter_table_rules_flag_witness :
  In ("LCK004"%string,
      [Word "ALTER"; Word "TABLE"; Name; Word "ALTER"; Word "COLUMN"; Name;
       Word "SET"; Word "DATA"; Word "TYPE"]) alter_table_phrases
  /\ fits [Word "ALTER"; Word "TABLE"; Name; Word "ALTER"; Word "COLUMN"; Name;
           Word "SET"; Word "DATA"; Word "TYPE"]
          [lit "alter"; lit "table"; lit "big_table"; lit "ALTER"; lit "COLUMN";
           lit "price"; lit "SET"; lit "DATA"; lit "TYPE"]
  /\ word_before (step_over None []) = false
  /\ word_after (lit " numeric") = false
  /\ In ([] ++ Py.join (lit " ")
                 [lit "alter"; lit "table"; lit "big_table"; lit "ALTER";
                  lit "COLUMN"; lit "price"; lit "SET"; lit "DATA"; lit "TYPE"]
            ++ lit " numeric", 1)
        (_split_statements
           (lit "alter table big_table ALTER COLUMN price SET DATA TYPE numeric;"))
  /\ exists fs f,
      analyze (lit "alter table big_table ALTER COLUMN price SET DATA TYPE numeric;") 0
      = Ok fs
      /\ In f fs /\ rule_id f = lit "LCK004" /\ line f = 1.
Proof.
  assert (H1 : In ("LCK004"%string,
                   [Word "ALTER"; Word "TABLE"; Name; Word "ALTER"; Word "COLUMN";
                    Name; Word "SET"; Word "DATA"; Word "TYPE"]) alter_table_phrases)
    by (do 3 right; left; reflexivity).
  assert (H2 : fits [Word "ALTER"; Word "TABLE"; Name; Word "ALTER"; Word "COLUMN";
                     Name; Word "SET"; Word "DATA"; Word "TYPE"]
                    [lit "alter"; lit "table"; lit "big_table"; lit "ALTER";
                     lit "COLUMN"; lit "price"; lit "SET"; lit "DATA"; lit "TYPE"])
    by (cbn [fits]; repeat split).
  assert (H3 : word_before (step_over None []) = false) by reflexivity.
  assert (H4 : word_after (lit " numeric") = false) by reflexivity.
  assert (H5 : In ([] ++ Py.join (lit " ")
                     [lit "alter"; lit "table"; lit "big_table"; lit "ALTER";
                      lit "COLUMN"; lit "price"; lit "SET"; lit "DATA"; lit "TYPE"]
                     ++ lit " numeric", 1)
                  (_split_statements
                     (lit "alter table big_table ALTER COLUMN price SET DATA TYPE numeric;")))
    by (left; reflexivity).
  repeat (split; [assumption |]).
  exact (alter_table_rules_flag _ 0%Z _ _ _ _ _ _ H1 H2 H3 H4 H5).
Defined.

(** ** The case of letters *)

Lemma fold_small (c : ascii) : Char.lower (small_letter c) = Char.lower c.
Proof. each_char c. Qed.

Lemma isspace_small (c : ascii) : Char.isspace (small_letter c) = Char.isspace c.
Proof. each_char c. Qed.

Lemma isword_small (c : ascii) : Char.isword (small_letter c) = Char.isword c.
Proof. each_char c. Qed.

Lemma semicolon_small (c : ascii) :
  Ascii.eqb (small_letter c) ";" = Ascii.eqb c ";".
Proof. each_char c. Qed.

Lemma dash_small (c : ascii) : Ascii.eqb "-" (small_letter c) = Ascii.eqb "-" c.
Proof. each_char c. Qed.

Lemma newline_small (c : ascii) : Ascii.eqb nl (small_letter c) = Ascii.eqb nl c.
Proof. each_char c. Qed.

Lemma split_small (s : str) :
  Py.split ";" (small_letters s) = map small_letters (Py.split ";" s).
Proof.
  unfold small_letters. induction s as [| c s IH]; [reflexivity |].
  cbn [map Py.split]. rewrite semicolon_small, IH.
  destruct (Ascii.eqb c ";"); [reflexivity |].
  destruct (Py.split ";" s); reflexivity.
Qed.

Lemma lstrip_small (s : str) :
  Py.lstrip (small_letters s) = small_letters (Py.lstrip s).
Proof.
  unfold small_letters. induction s as [| c s IH]; [reflexivity |].
  cbn [map Py.lstrip]. rewrite isspace_small.
  destruct (Char.isspace c); [exact IH | reflexivity].
Qed.

Lemma strip_small (s : str) :
  Py.strip (small_letters s) = small_letters (Py.strip s).
Proof.
  unfold Py.strip, Py.rstrip.
  rewrite lstrip_small. unfold small_letters at 1. rewrite <- map_rev.
  fold (small_letters (rev (Py.lstrip s))). rewrite lstrip_small.
  unfold small_letters. rewrite map_rev. reflexivity.
Qed.

Lemma words_small (s : str) :
  Py.words (small_letters s) = map small_letters (Py.words s).
Proof.
  unfold small_letters. induction s as [| c s IH]; [reflexivity |].
  cbn [map]. rewrite !words_cons, isspace_small.
  destruct (Char.isspace c); [exact IH |].
  destruct s as [| d s]; [reflexivity |].
  cbn [map] in *. rewrite isspace_small, IH.
  destruct (Char.isspace d); [reflexivity |].
  destruct (Py.words (d :: s)); reflexivity.
Qed.

Lemma join_small (ws : list str) :
  Py.join (lit " ") (map small_letters ws)
  = small_letters (Py.join (lit " ") ws).
Proof.
  unfold small_letters. induction ws as [| w ws IH]; [reflexivity |].
  cbn [map Py.join]. destruct ws as [| w1 ws1]; [reflexivity |].
  cbn [map] in *. rewrite IH, !map_app. reflexivity.
Qed.

Lemma startswith_comment_small (s : str) :
  Py.startswith (lit "--") (small_letters s) = Py.startswith (lit "--") s.
Proof.
  destruct s as [| c [| d s]];
    cbn [small_letters map list_ascii_of_string Py.startswith];
    rewrite ?dash_small; reflexivity.
Qed.

Lemma truthy_small (s : str) : Py.truthy (small_letters s) = Py.truthy s.
Proof. destruct s; reflexivity. Qed.

Lemma count_newline_small (s : str) :
  Py.count nl (small_letters s) = Py.count nl s.
Proof.
  unfold Py.count, small_letters. induction s as [| c s IH]; [reflexivity |].
  cbn [map filter]. rewrite newline_small.
  destruct (Ascii.eqb nl c); cbn [length]; rewrite IH; reflexivity.
Qed.

Lemma firstn_small (n : nat) (s : str) :
  firstn n (small_letters s) = small_letters (firstn n s).
Proof. apply firstn_map. Qed.

Lemma length_small (s : str) : length (small_letters s) = length s.
Proof. apply length_map. Qed.

Lemma split_loop_small (script : str) (parts : list str) (offset : nat) :
  split_loop (small_letters script) (map small_letters parts) offset
  = map (fun sl => (small_letters (fst sl), snd sl))
        (split_loop script parts offset).
Proof.
  revert offset. induction parts as [| part parts IH]; intros offset; [reflexivity |].
  cbn [map split_loop]. rewrite map_app, length_small, IH. f_equal.
  rewrite !strip_small, lstrip_small, truthy_small, startswith_comment_small.
  destruct (_ && _); [| reflexivity].
  cbn [map fst snd].
  rewrite words_small, join_small, firstn_small, count_newline_small.
  reflexivity.
Qed.

Lemma split_statements_small (script : str) :
  _split_statements (small_letters script)
  = map (fun sl => (small_letters (fst sl), snd sl)) (_split_statements script).
Proof. unfold _split_statements. rewrite split_small. apply split_loop_small. Qed.

Lemma in_category_small (k : category) (c : ascii) :
  in_category k (small_letter c) = in_category k c.
Proof.
  destruct k; cbn [in_category]; rewrite ?isspace_small, ?fold_small; reflexivity.
Qed.

Lemma run_small (k : category) (p : option ascii) (s : str) :
  run k (option_map small_letter p) (small_letters s)
  = map lower_position (run k p s).
Proof.
  unfold small_letters.
  revert p. induction s as [| c s IH]; intros p; [reflexivity |].
  cbn [map run]. rewrite in_category_small.
  destruct (in_category k c); [| reflexivity].
  rewrite map_app. rewrite <- IH. reflexivity.
Qed.

Lemma word_before_small (p : option ascii) :
  word_before (option_map small_letter p) = word_before p.
Proof. destruct p as [c |]; [apply isword_small | reflexivity]. Qed.

Lemma word_after_small (s : str) : word_after (small_letters s) = word_after s.
Proof. destruct s as [| c s]; [reflexivity | apply isword_small]. Qed.

Lemma flat_map_map (A B C : Type) (g : A -> B) (f : B -> list C) (l : list A) :
  flat_map f (map g l) = flat_map (fun x => f (g x)) l.
Proof.
  induction l as [| x l IH]; [reflexivity |].
  cbn [map flat_map]. rewrite IH. reflexivity.
Qed.

Lemma map_flat_map (A B C : Type) (g : B -> C) (f : A -> list B) (l : list A) :
  map g (flat_map f l) = flat_map (fun x => map g (f x)) l.
Proof.
  induction l as [| x l IH]; [reflexivity |].
  cbn [flat_map]. rewrite map_app, IH. reflexivity.
Qed.

Lemma ends_small (r : regex) (p : option ascii) (s : str) :
  ends r (option_map small_letter p) (small_letters s)
  = map lower_position (ends r p s).
Proof.
  revert p s.
  induction r as [a | | r1 IH1 r2 IH2 | r IH | k | k | r IH |]; intros p s.
  - destruct s as [| c s]; [reflexivity |]. cbn [small_letters map ends].
    rewrite fold_small. destruct (Ascii.eqb _ _); reflexivity.
  - cbn [ends]. rewrite word_before_small, word_after_small.
    destruct (xorb _ _); reflexivity.
  - cbn [ends]. rewrite IH1, flat_map_map, map_flat_map.
    apply flat_map_ext. intros q. apply IH2.
  - cbn [ends]. rewrite IH, map_app. reflexivity.
  - destruct s as [| c s]; [reflexivity |]. cbn [small_letters map ends].
    rewrite in_category_small. destruct (in_category k c); [| reflexivity].
    apply (run_small k (Some c) s).
  - apply run_small.
  - cbn [ends]. rewrite IH. destruct (ends r p s); reflexivity.
  - reflexivity.
Qed.

Lemma search_from_small (r : regex) (p : option ascii) (s : str) :
  search_from r (option_map small_letter p) (small_letters s) = search_from r p s.
Proof.
  revert p. induction s as [| c s IH]; intros p.
  - pose proof (ends_small r p []) as H. cbn [small_letters map] in H.
    cbn [small_letters map search_from]. rewrite H.
    destruct (ends r p []); reflexivity.
  - pose proof (ends_small r p (c :: s)) as H. cbn [small_letters map] in H.
    cbn [small_letters map search_from]. rewrite H.
    destruct (ends r p (c :: s)); cbn [map]; [apply (IH (Some c)) | reflexivity].
Qed.

Lemma findings_of_small (rows : Z) (sl : str * nat) :
  findings_of rows (small_letters (fst sl), snd sl)
  = map lower_snippet (findings_of rows sl).
Proof.
  unfold findings_of. cbn [fst snd]. rewrite map_map.
  rewrite (filter_ext _ (fun r => search (pattern_of r) (fst sl)))
    by (intros r; apply (search_from_small _ None)).
  apply map_ext. intros [[[[[rid pattern] sev] msg] lock] base].
  unfold lower_snippet. cbn [finding_of rule_id severity message line sql
    lock_type lock_ms]. rewrite firstn_small. reflexivity.
Qed.

Lemma analyze_small (script : str) (rows : Z) :
  flat_map (findings_of rows) (_split_statements (small_letters script))
  = map lower_snippet (flat_map (findings_of rows) (_split_statements script)).
Proof.
  rewrite split_statements_small, flat_map_map, map_flat_map.
  apply flat_map_ext. intros sl. apply findings_of_small.
Qed.

(** X30: the analysis ignores the case of the letters A to Z: two scripts
    that differ only in the case of these letters get the same findings,
    rule by rule and line by line, up to the case of the same letters in
    the snippets, and the same risk score. *)
Theorem analysis_ignores_case (script1 script2 : str) (rows : Z)
  (fs1 fs2 : list Finding) :
  small_letters script1 = small_letters script2 ->
  analyze script1 rows = Ok fs1 -> analyze script2 rows = Ok fs2 ->
  map lower_snippet fs1 = map lower_snippet fs2
  /\ risk_score fs1 = risk_score fs2.
Proof.
  rewrite !analyze_value. intros Hcase H1 H2.
  injection H1 as <-. injection H2 as <-.
  assert (Hsame : map lower_snippet
                    (flat_map (findings_of rows) (_split_statements script1))
                  = map lower_snippet
                      (flat_map (findings_of rows) (_split_statements script2)))
    by (rewrite <- !analyze_small, Hcase; reflexivity).
  split; [exact Hsame |].
  assert (Hweights : forall fs : list Finding,
            map (fun f => (dict_get SEVERITY_WEIGHT (severity f) 1 * 25)%Z) fs
            = map (fun f => (dict_get SEVERITY_WEIGHT (severity f) 1 * 25)%Z)
                (map lower_snippet fs))
    by (intros fs; rewrite map_map; apply map_ext; intros f; reflexivity).
  unfold risk_score.
  rewrite (Hweights (flat_map (findings_of rows) (_split_statements script1))).
  rewrite (Hweights (flat_map (findings_of rows) (_split_statements script2))).
  rewrite Hsame. reflexivity.
Qed.

Lemma analysis_ignores_case_witness :
  exists fs1 fs2,
    small_letters (lit "Drop Table Users;") = small_letters (lit "DROP TABLE users;")
    /\ analyze (lit "Drop Table Users;") 0 = Ok fs1
    /\ analyze (lit "DROP TABLE users;") 0 = Ok fs2
    /\ map lower_snippet fs1 = map lower_snippet fs2
    /\ risk_score fs1 = risk_score fs2.
Proof.
  eexists. eexists.
  assert (H0 : small_letters (lit "Drop Table Users;")
               = small_letters (lit "DROP TABLE users;")) by reflexivity.
  assert (H1 : analyze (lit "Drop Table Users;") 0
               = Ok (flat_map (findings_of 0)
                       (_split_statements (lit "Drop Table Users;"))))
    by apply analyze_value.
  assert (H2 : analyze (lit "DROP TABLE users;") 0
               = Ok (flat_map (findings_of 0)
                       (_split_statements (lit "DROP TABLE users;"))))
    by apply analyze_value.
  split; [exact H0 |]. split; [exact H1 |]. split; [exact H2 |].
  exact (analysis_ignores_case _ _ 0%Z _ _ H0 H1 H2).
Defined.
